(** * DYHT: the interaction controller [DyhtApp] and its render loop

    A shallow embedding of the TypeScript controller class [DyhtApp]
    (chat, recording, admin code, kill switch, live waveform) together
    with the part of the browser it talks to: the page (a DOM tree), the
    console, the modal dialogs, the clock and the Tauri [invoke] bridge.

    Handlers are written in a small state-and-exception monad over the
    [World]; an [await invoke(...)] splits a handler into the part that
    runs when the handler is called and a continuation that runs when the
    backend call settles, so that other handlers can run in between, as
    they do on the single UI thread. *)

From Stdlib Require Import ZArith List String Ascii Bool Lia RelationClasses.
From Stdlib Require Import DecimalString.
From Stdlib Require Reals Lra.
Import ListNotations.

Local Open Scope string_scope.
Local Open Scope list_scope.

(* ================================================================== *)
(** ** Strings as JavaScript uses them *)

Module Js.

(** A [string] holds the UTF-8 encoding of a JavaScript string.
    [String.prototype.trim] strips white space and line terminators:
    TAB, LF, VT, FF, CR and SP, which are one byte each, ... *)
Definition white_space1 (c : ascii) : bool :=
  let n := nat_of_ascii c in
  ((9 <=? n) && (n <=? 13))%nat || (n =? 32)%nat.

(** ... U+00A0, which is two bytes, ... *)
Definition white_space2 (c1 c2 : ascii) : bool :=
  (nat_of_ascii c1 =? 194)%nat && (nat_of_ascii c2 =? 160)%nat.

(** ... and U+1680, U+2000 to U+200A, U+2028, U+2029, U+202F, U+205F,
    U+3000 and U+FEFF, which are three bytes each. *)
Definition white_space3 (c1 c2 c3 : ascii) : bool :=
  let n1 := nat_of_ascii c1 in
  let n2 := nat_of_ascii c2 in
  let n3 := nat_of_ascii c3 in
  ((n1 =? 225) && (n2 =? 154) && (n3 =? 128))%nat
  || ((n1 =? 226) && (n2 =? 128)
      && (((128 <=? n3) && (n3 <=? 138))
          || (n3 =? 168) || (n3 =? 169) || (n3 =? 175)))%nat
  || ((n1 =? 226) && (n2 =? 129) && (n3 =? 159))%nat
  || ((n1 =? 227) && (n2 =? 128) && (n3 =? 128))%nat
  || ((n1 =? 239) && (n2 =? 187) && (n3 =? 191))%nat.

Fixpoint trimStart (s : string) : string :=
  match s with
  | EmptyString => EmptyString
  | String c1 s1 =>
      if white_space1 c1 then trimStart s1
      else
        match s1 with
        | EmptyString => s
        | String c2 s2 =>
            if white_space2 c1 c2 then trimStart s2
            else
              match s2 with
              | EmptyString => s
              | String c3 s3 =>
                  if white_space3 c1 c2 c3 then trimStart s3 else s
              end
        end
  end.

(** The same from the end, on the bytes in reverse. *)
Fixpoint dropEnd (r : list ascii) : list ascii :=
  match r with
  | [] => []
  | c1 :: r1 =>
      if white_space1 c1 then dropEnd r1
      else
        match r1 with
        | [] => r
        | c2 :: r2 =>
            if white_space2 c2 c1 then dropEnd r2
            else
              match r2 with
              | [] => r
              | c3 :: r3 =>
                  if white_space3 c3 c2 c1 then dropEnd r3 else r
              end
        end
  end.

Definition trimEnd (s : string) : string :=
  string_of_list_ascii (rev (dropEnd (rev (list_ascii_of_string s)))).

Definition trim (s : string) : string := trimEnd (trimStart s).

(** Truthiness of a string: only the empty string is falsy. *)
Definition truthy (s : string) : bool :=
  match s with EmptyString => false | _ => true end.

(** A string of white space and line terminators only. *)
Fixpoint all_white_space (s : string) : bool :=
  match s with
  | EmptyString => true
  | String c1 s1 =>
      if white_space1 c1 then all_white_space s1
      else
        match s1 with
        | EmptyString => false
        | String c2 s2 =>
            if white_space2 c1 c2 then all_white_space s2
            else
              match s2 with
              | EmptyString => false
              | String c3 s3 =>
                  white_space3 c1 c2 c3 && all_white_space s3
              end
        end
  end.

(** Rendering of an integer inside a template literal. *)
Definition string_of_Z (z : Z) : string :=
  NilZero.string_of_int (Z.to_int z).

Definition string_of_bool (b : bool) : string :=
  if b then "true" else "false".

End Js.

(* ================================================================== *)
(** ** The page *)

Module Dom.

(** The properties of an element that the controller reads or writes.
    [style] is the inline style, one entry per property. *)
Record Attrs : Type := mkAttrs {
  tagName : string;
  elemId : string;
  className : string;
  disabled : bool;
  value : string;
  style : list (string * string)
}.

Local Unset Elimination Schemes.

Inductive Node : Type :=
| Text (data : string)
| Element (a : Attrs) (children : list Node).

Local Set Elimination Schemes.

(** Induction over a page needs the hypothesis for every child. *)
Section NodeInd.
Variable P : Node -> Prop.
Hypothesis HText : forall s, P (Text s).
Hypothesis HElement :
  forall a cs, Forall P cs -> P (Element a cs).

Fixpoint Node_induction (n : Node) : P n :=
  match n with
  | Text s => HText s
  | Element a cs =>
      HElement a cs
        ((fix all (l : list Node) : Forall P l :=
            match l with
            | [] => Forall_nil P
            | c :: l' => Forall_cons c (Node_induction c) (all l')
            end) cs)
  end.
End NodeInd.

Definition with_disabled (b : bool) (a : Attrs) : Attrs :=
  mkAttrs (tagName a) (elemId a) (className a) b (value a) (style a).

Definition with_value (v : string) (a : Attrs) : Attrs :=
  mkAttrs (tagName a) (elemId a) (className a) (disabled a) v (style a).

Definition with_style (st : list (string * string)) (a : Attrs) : Attrs :=
  mkAttrs (tagName a) (elemId a) (className a) (disabled a) (value a) st.

(** [el.style.prop = v]: the property is overwritten where it is set
    already and added otherwise. *)
Fixpoint set_property (prop v : string) (st : list (string * string))
  : list (string * string) :=
  match st with
  | [] => [(prop, v)]
  | (k, w) :: st' =>
      if String.eqb k prop then (k, v) :: st'
      else (k, w) :: set_property prop v st'
  end.

(** A freshly created element: [document.createElement(tag)] followed
    by assignments to [className] and [id]. *)
Definition createElement (tag ident cls : string) : Attrs :=
  mkAttrs tag ident cls false "" [].

(** The nodes that an assignment to [textContent] leaves below an
    element. *)
Definition text_children (s : string) : list Node :=
  match s with EmptyString => [] | _ => [Text s] end.

(** *** Document order *)

(** The elements of a subtree in document order (pre-order). *)
Fixpoint elements (n : Node) : list Attrs :=
  match n with
  | Text _ => []
  | Element a cs => a :: flat_map elements cs
  end.

Definition has_id (i : string) (a : Attrs) : bool :=
  String.eqb (elemId a) i.

(** [document.getElementById(i)] finds the first element in document
    order whose id is [i]. *)
Definition getElementById (i : string) (d : Node) : option Attrs :=
  find (has_id i) (elements d).

(** *** Updates *)

Section FirstInList.
Context {A : Type} (u : A -> option A).
(** Apply [u] to the first member of a list on which it succeeds. *)
Fixpoint update_first_in (l : list A) : option (list A) :=
  match l with
  | [] => None
  | x :: l' =>
      match u x with
      | Some x' => Some (x' :: l')
      | None => option_map (cons x) (update_first_in l')
      end
  end.
End FirstInList.

(** Rewrite the first element in document order that satisfies [p]:
    [f] receives its properties and children and returns the new ones.
    [None] when no element satisfies [p]. *)
Fixpoint update_first (p : Attrs -> bool)
    (f : Attrs -> list Node -> Attrs * list Node) (n : Node)
  : option Node :=
  match n with
  | Text _ => None
  | Element a cs =>
      if p a then Some (Element (fst (f a cs)) (snd (f a cs)))
      else option_map (Element a) (update_first_in (update_first p f) cs)
  end.

(** The element that [f] makes of an element. *)
Definition rewrite_of (f : Attrs -> list Node -> Attrs * list Node)
    (a : Attrs) (cs : list Node) : Node :=
  Element (fst (f a cs)) (snd (f a cs)).

(** An update through an element reference leaves the page as it is
    when the element is no longer part of it. *)
Definition update (p : Attrs -> bool)
    (f : Attrs -> list Node -> Attrs * list Node) (d : Node) : Node :=
  match update_first p f d with
  | Some d' => d'
  | None => d
  end.

(** Apply [g] to the properties of every element. *)
Fixpoint map_attrs (g : Attrs -> Attrs) (n : Node) : Node :=
  match n with
  | Text s => Text s
  | Element a cs => Element (g a) (map (map_attrs g) cs)
  end.

Definition set_disabled (i : string) (b : bool) : Node -> Node :=
  update (has_id i) (fun a cs => (with_disabled b a, cs)).

Definition set_value (i v : string) : Node -> Node :=
  update (has_id i) (fun a cs => (with_value v a, cs)).

Definition set_style (i prop v : string) : Node -> Node :=
  update (has_id i)
    (fun a cs => (with_style (set_property prop v (style a)) a, cs)).

(** [el.textContent = s] replaces the children by one text node. *)
Definition set_textContent (i s : string) : Node -> Node :=
  update (has_id i) (fun a _ => (a, text_children s)).

(** [el.innerHTML = markup], with the markup given as its parse. *)
Definition set_innerHTML (i : string) (parsed : list Node) : Node -> Node :=
  update (has_id i) (fun a _ => (a, parsed)).

Definition appendChild (i : string) (c : Node) : Node -> Node :=
  update (has_id i) (fun a cs => (a, cs ++ [c])).

(** [el.querySelector(sel)?.setAttribute('style', ...)] on the element
    with id [i]: the first descendant that satisfies [sel] gets the
    inline style [st], all of it. *)
Definition set_style_attribute_within (i : string) (sel : Attrs -> bool)
    (st : list (string * string)) : Node -> Node :=
  update (has_id i)
    (fun a cs =>
       (a, match update_first_in
                   (update_first sel (fun a' cs' => (with_style st a', cs')))
                   cs with
           | Some cs' => cs'
           | None => cs
           end)).

(** *** Selectors *)

(** The selector [button:not(#kill-switch)]. *)
Definition button_not_kill_switch (a : Attrs) : bool :=
  String.eqb (tagName a) "button" && negb (has_id "kill-switch" a).

(** Class tokens of a [className]: separated by TAB, LF, FF, CR or
    SP. *)
Definition token_separator (c : ascii) : bool :=
  let n := nat_of_ascii c in
  ((n =? 9) || (n =? 10) || (n =? 12) || (n =? 13) || (n =? 32))%nat.

Fixpoint tokens_from (cur : string) (s : string) : list string :=
  match s with
  | EmptyString => match cur with EmptyString => [] | _ => [cur] end
  | String c s' =>
      if token_separator c
      then match cur with
           | EmptyString => tokens_from EmptyString s'
           | _ => cur :: tokens_from EmptyString s'
           end
      else tokens_from (cur ++ String c EmptyString) s'
  end.

Definition has_class (c : string) (a : Attrs) : bool :=
  existsb (String.eqb c) (tokens_from EmptyString (className a)).

(** [querySelectorAll('button:not(#kill-switch)')] followed by
    [forEach(btn => btn.disabled = true)]. *)
Definition disable_buttons : Node -> Node :=
  map_attrs (fun a =>
    if button_not_kill_switch a then with_disabled true a else a).

(** *** What the recording controls need of a page *)

Definition disabled_of (i : string) (d : Node) : option bool :=
  option_map disabled (getElementById i d).

(** The ids that the recording methods look up. *)
Definition tracked_id (i : string) : bool :=
  String.eqb i "record-btn" || String.eqb i "stop-btn"
  || String.eqb i "recording-status" || String.eqb i "clips-list".

Definition tracked (a : Attrs) : bool := tracked_id (elemId a).

(** Those among them whose content the controller replaces, by
    [textContent] or by [innerHTML]. *)
Definition rewritten (a : Attrs) : bool :=
  has_id "recording-status" a || has_id "clips-list" a.

Fixpoint untracked (n : Node) : bool :=
  match n with
  | Text _ => true
  | Element a cs => negb (tracked a) && forallb untracked cs
  end.

(** A page is [stable] when replacing the content of the status line
    or of the clip list cannot take one of the tracked elements off
    the page: none of them lies inside those two. *)
Fixpoint stable (n : Node) : bool :=
  match n with
  | Text _ => true
  | Element a cs =>
      (if rewritten a then forallb untracked cs else true)
      && forallb stable cs
  end.

(** Id and [disabled] flag of the tracked elements, in document
    order. *)
Definition key (a : Attrs) : string * bool := (elemId a, disabled a).

Definition controls (d : Node) : list (string * bool) :=
  map key (filter tracked (elements d)).

Definition controls_in (cs : list Node) : list (string * bool) :=
  map key (filter tracked (flat_map elements cs)).

(** First entry for an id in such a list, and its replacement. *)
Fixpoint assoc (i : string) (l : list (string * bool)) : option bool :=
  match l with
  | [] => None
  | (j, b) :: l' => if String.eqb j i then Some b else assoc i l'
  end.

Fixpoint set_first (i : string) (b : bool) (l : list (string * bool))
  : list (string * bool) :=
  match l with
  | [] => []
  | (j, x) :: l' =>
      if String.eqb j i then (j, b) :: l' else (j, x) :: set_first i b l'
  end.

End Dom.

(* ================================================================== *)
(** ** Data model *)

Inductive Role : Type := user | assistant.

Definition Role_to_string (r : Role) : string :=
  match r with user => "user" | assistant => "assistant" end.

Record ChatMessage : Type := mkChatMessage {
  role : Role;
  content : string;
  timestamp : string
}.

(** [transcription] and [waveform_data] are optional fields; the only
    waveform ever stored is the empty one. *)
Record AudioClip : Type := mkAudioClip {
  clip_id : string;
  clip_timestamp : string;
  duration_ms : Z;
  file_path : string;
  transcription : option string;
  waveform_data : option (list Z);
  tags : list string
}.

(** The fields of the controller object; [audioContext] tells whether
    an audio context is held. An element reference held in a field or a
    local is the id it was looked up with ([None] for [null]): elements
    carry no identity of their own, and every access through the
    reference resolves the id again. *)
Record DyhtApp : Type := mkDyhtApp {
  isRecording : bool;
  audioContext : bool;
  liveWaveformCanvas : option string;
  playbackWaveformCanvas : option string;
  chatHistory : list ChatMessage;
  audioClips : list AudioClip;
  isAdminVerified : bool
}.

(** [new DyhtApp()] before [init] runs. *)
Definition new_DyhtApp : DyhtApp :=
  mkDyhtApp false false None None [] [] false.

(* ================================================================== *)
(** ** The browser and the backend as the controller sees them *)

(** What a [catch] can receive: a property access on [null], a
    failure of [new AudioContext()], the rejection of a backend call. *)
Inductive JsError : Type :=
| TypeError (message : string)
| AudioError (message : string)
| BackendError (reason : string).

(** Lines of the console; an unhandled rejection ends up there too. *)
Inductive ConsoleEntry : Type :=
| ConsoleLog (text : string)
| ConsoleError (text : string) (error : JsError)
| Uncaught (error : JsError).

(** The modal dialogs shown so far. *)
Inductive Dialog : Type :=
| Alert (text : string)
| Confirm (text : string) (answer : bool).

(** Arguments of a backend call. *)
Inductive Payload : Type :=
| NoArgs
| MessageArg (message : string)
| AudioDataArg (audioData : list Z).

Record Invocation : Type := mkInvocation {
  command : string;
  args : Payload
}.

(** How a backend call settles: with a value, taken as the text that a
    template literal makes of it, or with a rejection. A call that the
    bridge refuses at once is a rejection like any other. *)
Inductive Settlement : Type :=
| Resolved (result : string)
| Rejected (reason : string).

(** The code after an [await invoke(...)], named by the method it
    belongs to. *)
Inductive Cont : Type :=
| AfterInitAgent
| AfterChatWithAgent
| AfterProcessAudio
| AfterEmergencyKillSwitch.

Record Pending : Type := mkPending {
  awaited : Invocation;
  cont : Cont
}.

(** One reading of the clock: [Date.now()], [new Date().toISOString()]
    and [new Date().toLocaleTimeString()]. A handler, or a continuation,
    runs within one reading. *)
Record Clock : Type := mkClock {
  now : Z;
  isoString : string;
  localeTimeString : string
}.

(** The controller and what it acts on: the page, the console, the
    dialogs shown, the backend calls issued so far ([invoked]), those
    among them that have not settled yet ([pending]), and whether the
    render loop is running. *)
Record World : Type := mkWorld {
  this : DyhtApp;
  document : Dom.Node;
  console : list ConsoleEntry;
  dialogs : list Dialog;
  invoked : list Invocation;
  pending : list Pending;
  animating : bool
}.

Definition with_this (f : DyhtApp -> DyhtApp) (w : World) : World :=
  mkWorld (f (this w)) (document w) (console w) (dialogs w) (invoked w)
          (pending w) (animating w).

Definition with_document (f : Dom.Node -> Dom.Node) (w : World) : World :=
  mkWorld (this w) (f (document w)) (console w) (dialogs w) (invoked w)
          (pending w) (animating w).

Definition with_console (f : list ConsoleEntry -> list ConsoleEntry)
    (w : World) : World :=
  mkWorld (this w) (document w) (f (console w)) (dialogs w) (invoked w)
          (pending w) (animating w).

Definition with_dialogs (f : list Dialog -> list Dialog) (w : World)
  : World :=
  mkWorld (this w) (document w) (console w) (f (dialogs w)) (invoked w)
          (pending w) (animating w).

Definition with_call (c : Invocation) (k : Cont) (w : World) : World :=
  mkWorld (this w) (document w) (console w) (dialogs w) (invoked w ++ [c])
          (pending w ++ [mkPending c k]) (animating w).

Definition with_pending (p : list Pending) (w : World) : World :=
  mkWorld (this w) (document w) (console w) (dialogs w) (invoked w) p
          (animating w).

Definition with_animating (b : bool) (w : World) : World :=
  mkWorld (this w) (document w) (console w) (dialogs w) (invoked w)
          (pending w) b.

(* ================================================================== *)
(** ** The handler monad: clock, world and exceptions *)

Inductive outcome (A : Type) : Type :=
| Normal (a : A)
| Thrown (e : JsError).

Arguments Normal {A} a.
Arguments Thrown {A} e.

Definition M (A : Type) : Type := Clock -> World -> outcome A * World.

Definition ret {A} (a : A) : M A := fun _ w => (Normal a, w).

Definition bind {A B} (m : M A) (k : A -> M B) : M B :=
  fun c w =>
    match m c w with
    | (Normal a, w') => k a c w'
    | (Thrown e, w') => (Thrown e, w')
    end.

Definition throw {A} (e : JsError) : M A := fun _ w => (Thrown e, w).

(** [try { body } catch (error) { handler error }]: what [body] did to
    the world before it threw stays done. *)
Definition try_catch {A} (body : M A) (handler : JsError -> M A) : M A :=
  fun c w =>
    match body c w with
    | (Normal a, w') => (Normal a, w')
    | (Thrown e, w') => handler e c w'
    end.

Definition modify (f : World -> World) : M unit :=
  fun _ w => (Normal tt, f w).

Definition gets {A} (f : World -> A) : M A :=
  fun _ w => (Normal (f w), w).

Definition read_clock {A} (f : Clock -> A) : M A :=
  fun c w => (Normal (f c), w).

Declare Scope js_scope.
Delimit Scope js_scope with js.
Notation "x <- m ;; k" := (bind m (fun x => k))
  (at level 61, m at next level, right associativity) : js_scope.
Notation "m ;; k" := (bind m (fun _ => k))
  (at level 61, right associativity) : js_scope.
Local Open Scope js_scope.

(* ================================================================== *)
(** ** Primitives *)

Definition update_app (f : DyhtApp -> DyhtApp) : M unit :=
  modify (with_this f).

Definition set_isRecording (b : bool) : M unit :=
  update_app (fun a =>
    mkDyhtApp b (audioContext a) (liveWaveformCanvas a)
      (playbackWaveformCanvas a) (chatHistory a) (audioClips a)
      (isAdminVerified a)).

Definition set_audioContext (b : bool) : M unit :=
  update_app (fun a =>
    mkDyhtApp (isRecording a) b (liveWaveformCanvas a)
      (playbackWaveformCanvas a) (chatHistory a) (audioClips a)
      (isAdminVerified a)).

Definition set_canvases (live playback : option string) : M unit :=
  update_app (fun a =>
    mkDyhtApp (isRecording a) (audioContext a) live playback
      (chatHistory a) (audioClips a) (isAdminVerified a)).

Definition push_chatHistory (m : ChatMessage) : M unit :=
  update_app (fun a =>
    mkDyhtApp (isRecording a) (audioContext a) (liveWaveformCanvas a)
      (playbackWaveformCanvas a) (chatHistory a ++ [m]) (audioClips a)
      (isAdminVerified a)).

Definition push_audioClips (c : AudioClip) : M unit :=
  update_app (fun a =>
    mkDyhtApp (isRecording a) (audioContext a) (liveWaveformCanvas a)
      (playbackWaveformCanvas a) (chatHistory a) (audioClips a ++ [c])
      (isAdminVerified a)).

Definition set_isAdminVerified (b : bool) : M unit :=
  update_app (fun a =>
    mkDyhtApp (isRecording a) (audioContext a) (liveWaveformCanvas a)
      (playbackWaveformCanvas a) (chatHistory a) (audioClips a) b).

(** [document.getElementById(i)]: a reference, or [null]. *)
Definition document_getElementById (i : string) : M (option string) :=
  gets (fun w =>
    match Dom.getElementById i (document w) with
    | Some _ => Some i
    | None => None
    end).

(** Property accesses through a reference that the source does not
    guard: on [null] they throw a [TypeError]. *)
Definition set_disabled (el : option string) (b : bool) : M unit :=
  match el with
  | Some i => modify (with_document (Dom.set_disabled i b))
  | None => throw (TypeError "Cannot set properties of null")
  end.

Definition set_textContent (el : option string) (s : string) : M unit :=
  match el with
  | Some i => modify (with_document (Dom.set_textContent i s))
  | None => throw (TypeError "Cannot set properties of null")
  end.

Definition set_style (el : option string) (prop v : string) : M unit :=
  match el with
  | Some i => modify (with_document (Dom.set_style i prop v))
  | None => throw (TypeError "Cannot read properties of null")
  end.

Definition get_value (el : option string) : M string :=
  match el with
  | Some i =>
      gets (fun w =>
        match Dom.getElementById i (document w) with
        | Some a => Dom.value a
        | None => ""
        end)
  | None => throw (TypeError "Cannot read properties of null")
  end.

Definition set_value (el : option string) (v : string) : M unit :=
  match el with
  | Some i => modify (with_document (Dom.set_value i v))
  | None => throw (TypeError "Cannot set properties of null")
  end.

Definition console_log (text : string) : M unit :=
  modify (with_console (fun l => l ++ [ConsoleLog text])).

Definition console_error (text : string) (error : JsError) : M unit :=
  modify (with_console (fun l => l ++ [ConsoleError text error])).

Definition alert (text : string) : M unit :=
  modify (with_dialogs (fun l => l ++ [Alert text])).

(** [confirm(text)]: the answer is the user's. *)
Definition confirm (text : string) (answer : bool) : M bool :=
  modify (with_dialogs (fun l => l ++ [Confirm text answer])) ;;
  ret answer.

(** [await invoke(cmd, args)], first half: the call is issued and the
    handler suspends; [k] names the code that runs when it settles. *)
Definition invoke (cmd : string) (a : Payload) (k : Cont) : M unit :=
  modify (with_call (mkInvocation cmd a) k).

(** [await invoke(cmd, args)], second half: the value of the [await]
    expression, or the rejection thrown at it. *)
Definition settled (r : Settlement) : M string :=
  match r with
  | Resolved v => ret v
  | Rejected reason => throw (BackendError reason)
  end.

(* ================================================================== *)
(** ** The methods of [DyhtApp] *)

(** The listeners that [setupEventListeners] registers are the
    constructors of [Event] below; registering them changes nothing
    that the other methods read. *)
Definition setupEventListeners : M unit := ret tt.

(** [new AudioContext()]: its state, or an exception where the browser
    has none to give. *)
Definition new_AudioContext (browser : option string) : M string :=
  match browser with
  | Some state => ret state
  | None => throw (AudioError "AudioContext is not available")
  end.

Definition initializeAudio (browser : option string) : M unit :=
  try_catch
    (state <- new_AudioContext browser ;;
     set_audioContext true ;;
     console_log "Audio context initialized" ;;
     console_log ("Audio context state: " ++ state))
    (fun error =>
       console_error "Failed to initialize audio context:" error ;;
       set_audioContext false).

(** The placeholder text and the two fills on the playback canvas are
    pixels, which the world does not hold. *)
Definition setupWaveformCanvases : M unit :=
  live <- document_getElementById "live-waveform" ;;
  playback <- document_getElementById "playback-waveform" ;;
  set_canvases live playback.

(** The first frame is drawn at once and asks for the next one; see
    [Render.drawCircularWaveform] for a frame. *)
Definition startLiveWaveform : M unit :=
  canvas <- gets (fun w => liveWaveformCanvas (this w)) ;;
  match canvas with
  | None => ret tt
  | Some _ => modify (with_animating true)
  end.

(** The scroll position of the transcript is layout, which the page
    does not hold. *)
Definition addChatMessage (r : Role) (text : string) : M unit :=
  stamp <- read_clock isoString ;;
  push_chatHistory (mkChatMessage r text stamp) ;;
  chatMessages <- document_getElementById "chat-messages" ;;
  match chatMessages with
  | Some i =>
      modify (with_document
        (Dom.appendChild i
           (Dom.Element
              (Dom.createElement "div" ""
                 ("chat-message " ++ Role_to_string r))
              (Dom.text_children text))))
  | None => ret tt
  end.

Definition loadInitialData_catch (error : JsError) : M unit :=
  console_error "Failed to initialize agent:" error ;;
  addChatMessage assistant
    "Failed to initialize agent. Please check the console for errors.".

Definition loadInitialData : M unit :=
  try_catch (invoke "init_agent" NoArgs AfterInitAgent)
            loadInitialData_catch.

Definition loadInitialData_resume (r : Settlement) : M unit :=
  try_catch
    (_ <- settled r ;;
     addChatMessage assistant
       "Dwight AI agent initialized. Ready to assist!")
    loadInitialData_catch.

(** [init] up to the [await] inside [loadInitialData]. *)
Definition init (browser : option string) : M unit :=
  setupEventListeners ;;
  initializeAudio browser ;;
  loadInitialData.

Definition init_resume (r : Settlement) : M unit :=
  loadInitialData_resume r ;;
  setupWaveformCanvases ;;
  startLiveWaveform.

Definition sendMessage_catch (error : JsError) : M unit :=
  console_error "Chat error:" error ;;
  addChatMessage assistant
    "Sorry, I encountered an error processing your message.".

Definition sendMessage : M unit :=
  chatInput <- document_getElementById "chat-input" ;;
  text <- get_value chatInput ;;
  let message := Js.trim text in
  if negb (Js.truthy message) then ret tt
  else
    addChatMessage user message ;;
    set_value chatInput "" ;;
    try_catch
      (invoke "chat_with_agent" (MessageArg message) AfterChatWithAgent)
      sendMessage_catch.

Definition sendMessage_resume (r : Settlement) : M unit :=
  try_catch
    (response <- settled r ;;
     addChatMessage assistant response)
    sendMessage_catch.

Definition startRecording : M unit :=
  try_catch
    (set_isRecording true ;;
     recordBtn <- document_getElementById "record-btn" ;;
     stopBtn <- document_getElementById "stop-btn" ;;
     statusText <- document_getElementById "recording-status" ;;
     set_disabled recordBtn true ;;
     set_disabled stopBtn false ;;
     set_textContent statusText "Recording..." ;;
     set_style statusText "color" "#ff3333" ;;
     console_log "Recording started (placeholder)")
    (fun error =>
       console_error "Recording error:" error ;;
       set_isRecording false).

(** The markup that [updateAudioClipsList] assigns to [innerHTML], as
    parsed (white-space-only text nodes left out). *)
Definition clip_item_markup (time : string) : list Dom.Node :=
  [Dom.Element (Dom.createElement "div" "" "clip-item")
    [Dom.Element (Dom.createElement "div" "" "clip-info")
       [Dom.Element (Dom.createElement "div" "" "clip-name")
          [Dom.Text ("Recording " ++ time)];
        Dom.Element (Dom.createElement "div" "" "clip-meta")
          [Dom.Text "5.2s • Just now"]];
     Dom.Element (Dom.createElement "div" "" "clip-actions")
       [Dom.Element (Dom.createElement "button" "" "clip-btn play")
          [Dom.Text "▶"];
        Dom.Element (Dom.createElement "button" "" "clip-btn delete")
          [Dom.Text "🗑"]]]].

Definition updateAudioClipsList : M unit :=
  clipsList <- document_getElementById "clips-list" ;;
  match clipsList with
  | None => ret tt
  | Some i =>
      time <- read_clock localeTimeString ;;
      modify (with_document (Dom.set_innerHTML i (clip_item_markup time))) ;;
      ms <- read_clock now ;;
      stamp <- read_clock isoString ;;
      push_audioClips
        (mkAudioClip ("clip-" ++ Js.string_of_Z ms) stamp 5200
           "placeholder.wav" (Some "Placeholder transcription")
           (Some []) ["recorded"])
  end.

Definition stopRecording_catch (error : JsError) : M unit :=
  console_error "Stop recording error:" error.

Definition stopRecording : M unit :=
  try_catch
    (set_isRecording false ;;
     recordBtn <- document_getElementById "record-btn" ;;
     stopBtn <- document_getElementById "stop-btn" ;;
     statusText <- document_getElementById "recording-status" ;;
     set_disabled recordBtn false ;;
     set_disabled stopBtn true ;;
     set_textContent statusText "Processing..." ;;
     set_style statusText "color" "#ff6b35" ;;
     invoke "process_audio" (AudioDataArg [1; 2; 3; 4; 5]%Z)
            AfterProcessAudio)
    stopRecording_catch.

(** [statusText] was not [null] when the call was issued. *)
Definition stopRecording_resume (r : Settlement) : M unit :=
  try_catch
    (transcription <- settled r ;;
     let statusText := Some "recording-status" in
     set_textContent statusText "Ready" ;;
     set_style statusText "color" "#cccccc" ;;
     addChatMessage assistant ("Audio processed: " ++ transcription) ;;
     updateAudioClipsList)
    stopRecording_catch.

Definition toggleRecording : M unit :=
  recording <- gets (fun w => isRecording (this w)) ;;
  if negb recording then startRecording else stopRecording.

Definition verifyAdminCode_try : M unit :=
  set_isAdminVerified true ;;
  adminCodeInput <- document_getElementById "admin-code" ;;
  match adminCodeInput with
  | Some _ => set_style adminCodeInput "borderColor" "#00ff00"
  | None => ret tt
  end ;;
  alert "Admin access granted".

Definition verifyAdminCode_catch (error : JsError) : M unit :=
  console_error "Admin verification error:" error ;;
  adminCodeInput <- document_getElementById "admin-code" ;;
  match adminCodeInput with
  | Some _ => set_style adminCodeInput "borderColor" "#ff3333"
  | None => ret tt
  end ;;
  alert "Invalid admin code".

Definition verifyAdminCode (adminCode : string) : M unit :=
  if negb (Js.truthy adminCode) then alert "Please enter an admin code"
  else try_catch verifyAdminCode_try verifyAdminCode_catch.

Definition switchModel (model : string) : M unit :=
  try_catch
    (console_log ("Switching to model: " ++ model) ;;
     addChatMessage assistant ("Switched to " ++ model ++ " model"))
    (fun error => console_error "Model switch error:" error).

Definition switchTheme (theme : string) : M unit :=
  console_log ("Switching to theme: " ++ theme) ;;
  verified <- gets (fun w => isAdminVerified (this w)) ;;
  console_log ("Admin verified: " ++ Js.string_of_bool verified).

Definition emergencyKillSwitch_catch (error : JsError) : M unit :=
  console_error "Emergency shutdown error:" error.

Definition kill_prompt : string :=
  "Are you sure you want to activate the emergency kill switch? This will shut down all AI agent functions.".

Definition emergencyKillSwitch (answer : bool) : M unit :=
  confirmed <- confirm kill_prompt answer ;;
  if confirmed
  then try_catch
         (invoke "emergency_kill_switch" NoArgs AfterEmergencyKillSwitch)
         emergencyKillSwitch_catch
  else ret tt.

Definition emergencyKillSwitch_resume (r : Settlement) : M unit :=
  try_catch
    (_ <- settled r ;;
     addChatMessage assistant
       "Emergency shutdown activated. All AI functions disabled." ;;
     modify (with_document Dom.disable_buttons))
    emergencyKillSwitch_catch.

Definition minimizePanel : M unit :=
  panel <- document_getElementById "dwight-panel" ;;
  match panel with
  | Some i =>
      set_style panel "height" "40px" ;;
      modify (with_document
        (Dom.set_style_attribute_within i (Dom.has_class "panel-content")
           [("display", "none")]))
  | None => ret tt
  end.

Definition closePanel : M unit :=
  panel <- document_getElementById "dwight-panel" ;;
  match panel with
  | Some _ => set_style panel "display" "none"
  | None => ret tt
  end.

Definition toggleVoiceActivation (enabled : bool) : M unit :=
  console_log ("Voice activation: " ++ Js.string_of_bool enabled).

Definition toggleAutoTranscribe (enabled : bool) : M unit :=
  console_log ("Auto-transcribe: " ++ Js.string_of_bool enabled).

Definition toggleSmartResponse (enabled : bool) : M unit :=
  console_log ("Smart response: " ++ Js.string_of_bool enabled).

(* ================================================================== *)
(** ** Events and runs *)

(** What can happen on the UI thread once the controller exists: a
    listener calls its method, the user edits a field, or a backend call
    that is in flight settles. [EmergencyKillSwitch] carries the user's
    answer to the prompt, [Settle n] names the [n]-th call in flight.
    The frames of the render loop read the recording flag and write
    pixels only; they are not among the events. *)
Inductive Event : Type :=
| SendMessage
| ToggleRecording
| StopRecording
| VerifyAdminCode (adminCode : string)
| SwitchModel (model : string)
| SwitchTheme (theme : string)
| EmergencyKillSwitch (answer : bool)
| MinimizePanel
| ClosePanel
| ToggleVoiceActivation (enabled : bool)
| ToggleAutoTranscribe (enabled : bool)
| ToggleSmartResponse (enabled : bool)
| Typed (field text : string)
| Settle (n : nat) (r : Settlement).

Definition resume (k : Cont) (r : Settlement) : M unit :=
  match k with
  | AfterInitAgent => init_resume r
  | AfterChatWithAgent => sendMessage_resume r
  | AfterProcessAudio => stopRecording_resume r
  | AfterEmergencyKillSwitch => emergencyKillSwitch_resume r
  end.

Definition remove_at {A} (n : nat) (l : list A) : list A :=
  firstn n l ++ skipn (S n) l.

Definition settle (n : nat) (r : Settlement) : M unit :=
  inflight <- gets pending ;;
  match nth_error inflight n with
  | None => ret tt
  | Some p =>
      modify (with_pending (remove_at n inflight)) ;;
      resume (cont p) r
  end.

Definition handle (e : Event) : M unit :=
  match e with
  | SendMessage => sendMessage
  | ToggleRecording => toggleRecording
  | StopRecording => stopRecording
  | VerifyAdminCode adminCode => verifyAdminCode adminCode
  | SwitchModel model => switchModel model
  | SwitchTheme theme => switchTheme theme
  | EmergencyKillSwitch answer => emergencyKillSwitch answer
  | MinimizePanel => minimizePanel
  | ClosePanel => closePanel
  | ToggleVoiceActivation enabled => toggleVoiceActivation enabled
  | ToggleAutoTranscribe enabled => toggleAutoTranscribe enabled
  | ToggleSmartResponse enabled => toggleSmartResponse enabled
  | Typed field text => modify (with_document (Dom.set_value field text))
  | Settle n r => settle n r
  end.

(** Run a piece of handler code as one task: an exception that leaves
    it is an unhandled rejection, which the browser reports. *)
Definition exec (m : M unit) (c : Clock) (w : World) : World :=
  match m c w with
  | (Normal _, w') => w'
  | (Thrown e, w') => with_console (fun l => l ++ [Uncaught e]) w'
  end.

Definition step (c : Clock) (e : Event) (w : World) : World :=
  exec (handle e) c w.

Fixpoint run (es : list (Clock * Event)) (w : World) : World :=
  match es with
  | [] => w
  | (c, e) :: es' => run es' (step c e w)
  end.

(** [DOMContentLoaded]: [new DyhtApp()] on the [page], whose
    constructor calls [init]. *)
Definition boot (page : Dom.Node) (browser : option string) (c : Clock)
  : World :=
  exec (init browser) c (mkWorld new_DyhtApp page [] [] [] [] false).

(* ================================================================== *)
(** ** An example page *)

(** The repository's own page is not among the sources: the theorems
    take the page as a parameter, and this one, which holds every
    element that the controller looks up by id, serves for examples. *)
Module Sample.

Definition el (tag ident cls : string) (cs : list Dom.Node) : Dom.Node :=
  Dom.Element (Dom.createElement tag ident cls) cs.

Definition page : Dom.Node :=
  el "body" "" ""
    [el "div" "dwight-panel" "panel"
       [el "button" "minimize-btn" "" [Dom.Text "_"];
        el "button" "close-btn" "" [Dom.Text "x"];
        el "div" "" "panel-content"
          [el "canvas" "live-waveform" "" [];
           el "canvas" "playback-waveform" "" [];
           el "div" "chat-messages" "" [];
           el "input" "chat-input" "" [];
           el "button" "send-btn" "" [Dom.Text "Send"];
           el "button" "record-btn" "" [Dom.Text "Record"];
           Dom.Element
             (Dom.with_disabled true
                (Dom.createElement "button" "stop-btn" ""))
             [Dom.Text "Stop"];
           el "span" "recording-status" "" [Dom.Text "Ready"];
           el "div" "clips-list" "" [];
           el "input" "admin-code" "" [];
           el "button" "verify-admin" "" [Dom.Text "Verify"];
           el "select" "model-select" "" [];
           el "select" "theme-select" "" [];
           el "input" "voice-activation" "" [];
           el "input" "auto-transcribe" "" [];
           el "input" "smart-response" "" [];
           el "button" "kill-switch" "" [Dom.Text "Kill"]]]].

Definition clock (t : Z) : Clock :=
  mkClock t "2024-01-01T00:00:00.000Z" "12:00:00 AM".

(** The controller after [DOMContentLoaded] on [page], and after the
    [init_agent] call has resolved. *)
Definition booted : World := boot page (Some "running") (clock 0).

Definition ready : World :=
  step (clock 1) (Settle 0 (Resolved "ok")) booted.

End Sample.

(* ================================================================== *)
(** ** The recording lifecycle *)

Inductive Phase : Type := Idle | Recording | Processing.

Definition awaits_process_audio (p : Pending) : bool :=
  match cont p with AfterProcessAudio => true | _ => false end.

(** Recording while the flag is set; otherwise processing while a
    [process_audio] call is in flight. *)
Definition phase (w : World) : Phase :=
  if isRecording (this w) then Recording
  else if existsb awaits_process_audio (pending w) then Processing
  else Idle.

(** The lifecycle as the specification draws it. *)
Inductive specified_transition : Phase -> Phase -> Prop :=
| spec_start : specified_transition Idle Recording
| spec_stop : specified_transition Recording Processing
| spec_settle : specified_transition Processing Idle.

(** The transitions that the code makes, each with the event that
    makes it, given the calls in flight before the event. The first four
    are the specified ones: a stop is made by either control, and the
    settlement is that of the only [process_audio] call in flight. The
    last two are not specified: the record control is enabled again as
    soon as a stop is initiated, so a recording can start while the call
    is in flight; and [stopRecording] does not ask whether a recording
    is running. *)
Inductive coded_transition (inflight : list Pending)
  : Event -> Phase -> Phase -> Prop :=
| coded_start : coded_transition inflight ToggleRecording Idle Recording
| coded_toggle_stop :
    coded_transition inflight ToggleRecording Recording Processing
| coded_stop : coded_transition inflight StopRecording Recording Processing
| coded_settle n r p :
    nth_error inflight n = Some p ->
    awaits_process_audio p = true ->
    existsb awaits_process_audio (remove_at n inflight) = false ->
    coded_transition inflight (Settle n r) Processing Idle
| coded_restart :
    coded_transition inflight ToggleRecording Processing Recording
| coded_stop_idle :
    coded_transition inflight StopRecording Idle Processing.

(** What the settlement of a [process_audio] call leaves in the
    transcript and in the console. *)
Definition process_audio_entries (r : Settlement) (c : Clock)
  : list ChatMessage * list ConsoleEntry :=
  match r with
  | Resolved text =>
      ([mkChatMessage assistant ("Audio processed: " ++ text) (isoString c)],
       [])
  | Rejected reason =>
      ([], [ConsoleError "Stop recording error:" (BackendError reason)])
  end.

(** The three elements that [startRecording] and [stopRecording]
    dereference without a guard. *)
Definition has_recording_controls (d : Dom.Node) : Prop :=
  Dom.getElementById "record-btn" d <> None /\
  Dom.getElementById "stop-btn" d <> None /\
  Dom.getElementById "recording-status" d <> None.

(** The user confirms the kill switch. *)
Definition confirms_kill (e : Event) : bool :=
  match e with EmergencyKillSwitch true => true | _ => false end.

(** The event is the settlement of a kill switch call in flight, and
    the call resolves. *)
Definition kill_resolves (e : Event) (w : World) : bool :=
  match e with
  | Settle n (Resolved _) =>
      match nth_error (pending w) n with
      | Some p =>
          match cont p with AfterEmergencyKillSwitch => true | _ => false end
      | None => false
      end
  | _ => false
  end.

(** The event is a press on the record control while no recording is
    running: the press that starts one. *)
Definition starts (e : Event) (w : World) : bool :=
  match e with
  | ToggleRecording => negb (isRecording (this w))
  | _ => false
  end.

(** Whether, at the end of a run from [w], a kill switch call has
    resolved since the last press that started a recording; [k] tells
    it of the time before the run. *)
Fixpoint cut_off (k : bool) (es : list (Clock * Event)) (w : World) : bool :=
  match es with
  | [] => k
  | (c, e) :: es' =>
      cut_off (if kill_resolves e w then true
               else if starts e w then false
               else k)
              es' (step c e w)
  end.

(** ** Failures of backend calls, as the code treats them *)

Definition command_of (k : Cont) : string :=
  match k with
  | AfterInitAgent => "init_agent"
  | AfterChatWithAgent => "chat_with_agent"
  | AfterProcessAudio => "process_audio"
  | AfterEmergencyKillSwitch => "emergency_kill_switch"
  end.

Definition error_label (k : Cont) : string :=
  match k with
  | AfterInitAgent => "Failed to initialize agent:"
  | AfterChatWithAgent => "Chat error:"
  | AfterProcessAudio => "Stop recording error:"
  | AfterEmergencyKillSwitch => "Emergency shutdown error:"
  end.

(** The fallback message shown for a failed call: one for the two chat
    calls, none for the other two. *)
Definition fallback_message (k : Cont) : option string :=
  match k with
  | AfterInitAgent =>
      Some "Failed to initialize agent. Please check the console for errors."
  | AfterChatWithAgent =>
      Some "Sorry, I encountered an error processing your message."
  | AfterProcessAudio => None
  | AfterEmergencyKillSwitch => None
  end.

Definition fallback_entries (k : Cont) (c : Clock) : list ChatMessage :=
  match fallback_message k with
  | Some text => [mkChatMessage assistant text (isoString c)]
  | None => []
  end.

(* ================================================================== *)
(** ** The render loop *)

Module Render.

(** The arithmetic of JavaScript numbers that a frame uses, left
    abstract: [decimal m e] is the literal [m / 10^e], [of_Z] the
    number for an integer. A frame is the same sequence of canvas
    calls whatever the arithmetic is. *)
Record Number : Type := mkNumber {
  num : Type;
  add : num -> num -> num;
  mul : num -> num -> num;
  div : num -> num -> num;
  sin : num -> num;
  cos : num -> num;
  of_Z : Z -> num;
  decimal : Z -> nat -> num;
  PI : num
}.

(** The same over the real numbers. *)
Definition real : Number :=
  mkNumber Rdefinitions.R Rdefinitions.Rplus Rdefinitions.Rmult
    Rdefinitions.Rdiv Rtrigo_def.sin Rtrigo_def.cos Rdefinitions.IZR
    (fun m e => Rdefinitions.Rdiv (Rdefinitions.IZR m)
                  (Rpow_def.pow (Rdefinitions.IZR 10) e))
    Rtrigo1.PI.

Section Frame.
Variable N : Number.

(** Calls on the 2D context, and the request for the next frame. *)
Inductive Command : Type :=
| clearRect (x y w h : num N)
| set_strokeStyle (colour : string)
| set_lineWidth (w : num N)
| beginPath
| arc (x y r startAngle endAngle : num N)
| stroke
| moveTo (x y : num N)
| lineTo (x y : num N)
| closePath
| requestAnimationFrame.

Definition radius : num N := of_Z N 80.

(** [Date.now() * 0.001] *)
Definition seconds (now : Z) : num N :=
  mul N (of_Z N now) (decimal N 1 3).

Definition amplitude (isRecording : bool) (time : num N) (i : Z)
  : num N :=
  if isRecording
  then add N
         (mul N (sin N (add N (mul N time (of_Z N 3))
                              (mul N (of_Z N i) (decimal N 1 1))))
                (of_Z N 20))
         (mul N (sin N (add N (mul N time (of_Z N 7))
                              (mul N (of_Z N i) (decimal N 5 2))))
                (of_Z N 10))
  else mul N (sin N (add N time (mul N (of_Z N i) (decimal N 2 2))))
             (of_Z N 5).

Definition angle (i : Z) : num N :=
  div N (mul N (of_Z N i) (PI N)) (of_Z N 180).

Definition vertex (centerX centerY : num N) (isRecording : bool)
    (time : num N) (i : Z) : num N * num N :=
  (add N centerX
     (mul N (cos N (angle i))
            (add N radius (amplitude isRecording time i))),
   add N centerY
     (mul N (sin N (angle i))
            (add N radius (amplitude isRecording time i)))).

(** [for (let i = 0; i < 360; i += 5) { ... }], from [i] on;
    [None] when the fuel runs out before the loop ends. *)
Fixpoint waveform_loop (fuel : nat) (centerX centerY : num N)
    (isRecording : bool) (time : num N) (i : Z)
  : option (list Command) :=
  match fuel with
  | O => None
  | S fuel' =>
      if (i <? 360)%Z
      then
        let (x, y) := vertex centerX centerY isRecording time i in
        match waveform_loop fuel' centerX centerY isRecording time
                            (i + 5)%Z with
        | Some rest =>
            Some ((if (i =? 0)%Z then moveTo x y else lineTo x y)
                    :: rest)
        | None => None
        end
      else Some []
  end.

(** One frame on a canvas of the given size, at clock reading
    [now], with the recording flag as it is then. *)
Definition drawCircularWaveform (fuel : nat) (width height : num N)
    (now : Z) (isRecording : bool) : option (list Command) :=
  let centerX := div N width (of_Z N 2) in
  let centerY := div N height (of_Z N 2) in
  let time := seconds now in
  match waveform_loop fuel centerX centerY isRecording time 0 with
  | Some path =>
      Some ([clearRect (of_Z N 0) (of_Z N 0) width height;
             set_strokeStyle "#333333";
             set_lineWidth (of_Z N 2);
             beginPath;
             arc centerX centerY radius (of_Z N 0)
                 (mul N (of_Z N 2) (PI N));
             stroke;
             set_strokeStyle "#00ff00";
             set_lineWidth (of_Z N 3);
             beginPath]
            ++ path
            ++ [closePath; stroke; requestAnimationFrame])
  | None => None
  end.

(** A path through the given points: move to the first, draw a line
    to each of the others. *)
Definition stroke_path (points : list (num N * num N)) : list Command :=
  match points with
  | [] => []
  | (x, y) :: rest => moveTo x y :: map (fun v => lineTo (fst v) (snd v)) rest
  end.

(** The sample positions in degrees: [0, 5, ..., 355]. *)
Definition sample_degrees : list Z :=
  map (fun k => (5 * Z.of_nat k)%Z) (seq 0 72).

Definition path_command (centerX centerY : num N) (isRecording : bool)
    (time : num N) (i : Z) : Command :=
  let (x, y) := vertex centerX centerY isRecording time i in
  if (i =? 0)%Z then moveTo x y else lineTo x y.

End Frame.

Arguments beginPath {N}.
Arguments stroke {N}.
Arguments closePath {N}.
Arguments requestAnimationFrame {N}.
Arguments set_strokeStyle {N} colour.

End Render.

(* ================================================================== *)
(** ** Vocabulary of the statements *)

(** *** What single methods leave behind *)

(** The transcript view after [addChatMessage]. *)
Definition shown (r : Role) (text : string) (d : Dom.Node) : Dom.Node :=
  match Dom.getElementById "chat-messages" d with
  | Some _ =>
      Dom.appendChild "chat-messages"
        (Dom.Element
           (Dom.createElement "div" "" ("chat-message " ++ Role_to_string r))
           (Dom.text_children text)) d
  | None => d
  end.

(** The controller after [addChatMessage]. *)
Definition said (r : Role) (text : string) (c : Clock) (a : DyhtApp)
  : DyhtApp :=
  mkDyhtApp (isRecording a) (audioContext a) (liveWaveformCanvas a)
    (playbackWaveformCanvas a)
    (chatHistory a ++ [mkChatMessage r text (isoString c)])
    (audioClips a) (isAdminVerified a).

(** The border of the admin code field once access is granted. *)
Definition granted_border (d : Dom.Node) : Dom.Node :=
  match Dom.getElementById "admin-code" d with
  | Some _ => Dom.set_style "admin-code" "borderColor" "#00ff00" d
  | None => d
  end.

Definition kill_call : Invocation :=
  mkInvocation "emergency_kill_switch" NoArgs.

Definition kill_message : string :=
  "Emergency shutdown activated. All AI functions disabled.".

(** What [startRecording] and [stopRecording] do to the page. *)
Definition recording_page (recording : bool) (text colour : string)
    (d : Dom.Node) : Dom.Node :=
  Dom.set_style "recording-status" "color" colour
    (Dom.set_textContent "recording-status" text
       (Dom.set_disabled "stop-btn" (negb recording)
          (Dom.set_disabled "record-btn" recording d))).

Definition flagged (b : bool) (a : DyhtApp) : DyhtApp :=
  mkDyhtApp b (audioContext a) (liveWaveformCanvas a)
    (playbackWaveformCanvas a) (chatHistory a) (audioClips a)
    (isAdminVerified a).

Definition process_audio_call : Invocation :=
  mkInvocation "process_audio" (AudioDataArg [1; 2; 3; 4; 5]%Z).

(** The clip that [updateAudioClipsList] pushes. *)
Definition placeholder_clip (c : Clock) : AudioClip :=
  mkAudioClip ("clip-" ++ Js.string_of_Z (now c)) (isoString c) 5200
    "placeholder.wav" (Some "Placeholder transcription") (Some [])
    ["recorded"].

(** The page once a transcription has arrived, before the clip list is
    rebuilt. *)
Definition ready_page (text : string) (d : Dom.Node) : Dom.Node :=
  shown assistant ("Audio processed: " ++ text)
    (Dom.set_style "recording-status" "color" "#cccccc"
       (Dom.set_textContent "recording-status" "Ready" d)).

(** *** Relations that every step of a handler respects *)

Definition preserves {A} (R : World -> World -> Prop) (m : M A) : Prop :=
  forall c w, R w (snd (m c w)).

(** The recording flag stays, and the calls that come into flight are
    among those that [allowed] admits. *)
Definition calm (allowed : Cont -> bool) (w w' : World) : Prop :=
  isRecording (this w') = isRecording (this w) /\
  exists added,
    pending w' = pending w ++ added /\
    forallb (fun p => allowed (cont p)) added = true.

(** A stable page stays stable. *)
Definition tidy (w w' : World) : Prop :=
  Dom.stable (document w) = true -> Dom.stable (document w') = true.

(** A stable page stays stable and keeps its controls as they are. *)
Definition untouched (w w' : World) : Prop :=
  Dom.stable (document w) = true ->
  Dom.stable (document w') = true /\
  Dom.controls (document w') = Dom.controls (document w).

(** Calls in flight carry the command of the method that awaits them. *)
Definition well_named (p : Pending) : Prop :=
  command (awaited p) = command_of (cont p).

Definition named (w w' : World) : Prop :=
  Forall well_named (pending w) -> Forall well_named (pending w').

(** Events whose handlers touch neither the recording flag nor the
    recording controls. *)
Definition bystander (e : Event) : bool :=
  match e with
  | ToggleRecording | StopRecording | Settle _ _ => false
  | _ => true
  end.

Definition not_process_audio (k : Cont) : bool :=
  match k with AfterProcessAudio => false | _ => true end.

(** While recording, the record control is disabled. *)
Definition record_locked (w : World) : Prop :=
  Dom.stable (document w) = true
  /\ (isRecording (this w) = true ->
      Dom.disabled_of "record-btn" (document w) = Some true).

(** While recording, the stop control is enabled, unless a kill
    switch call has resolved since the recording started, which [k]
    tells. *)
Definition stop_offered (k : bool) (w : World) : Prop :=
  isRecording (this w) = true -> k = false ->
  Dom.disabled_of "stop-btn" (document w) = Some false.

(* ================================================================== *)
(** ** Vocabulary of further statements *)

(** *** Reading the page *)

Module Query.

Section FirstSome.
Context {A B : Type} (u : A -> option B).
(** The first result that [u] gives on a member of a list. *)
Fixpoint first_some (l : list A) : option B :=
  match l with
  | [] => None
  | x :: l' =>
      match u x with
      | Some y => Some y
      | None => first_some l'
      end
  end.
End FirstSome.

(** The first element in document order that satisfies [p], with its
    children. *)
Fixpoint find_first (p : Dom.Attrs -> bool) (n : Dom.Node)
  : option (Dom.Attrs * list Dom.Node) :=
  match n with
  | Dom.Text _ => None
  | Dom.Element a cs =>
      if p a then Some (a, cs) else first_some (find_first p) cs
  end.

(** [document.getElementById(i).childNodes] *)
Definition childrenById (i : string) (d : Dom.Node)
  : option (list Dom.Node) :=
  option_map snd (find_first (Dom.has_id i) d).


(** [document.getElementById(i).value] *)
Definition valueById (i : string) (d : Dom.Node) : option string :=
  option_map Dom.value (Dom.getElementById i d).

End Query.

(** *** Logs that only grow *)

Definition extends {A} (l l' : list A) : Prop :=
  exists more, l' = l ++ more.

(** The transcript, the clip list, the calls issued, the console and
    the dialogs of [w'] continue those of [w]. *)
Definition grows (w w' : World) : Prop :=
  extends (chatHistory (this w)) (chatHistory (this w'))
  /\ extends (audioClips (this w)) (audioClips (this w'))
  /\ extends (invoked w) (invoked w')
  /\ extends (console w) (console w')
  /\ extends (dialogs w) (dialogs w').

(** *** Backend calls *)

(** The calls that come into flight between [w] and [w'] are the calls
    that are issued, and all satisfy [P]. *)
Definition issues (P : Pending -> Prop) (w w' : World) : Prop :=
  exists added,
    pending w' = pending w ++ added
    /\ invoked w' = invoked w ++ map awaited added
    /\ Forall P added.

(** The four calls as the methods make them: a chat message is never
    empty and carries no white space at its ends. *)
Definition well_formed_call (c : Invocation) : Prop :=
  c = mkInvocation "init_agent" NoArgs
  \/ (exists text,
        c = mkInvocation "chat_with_agent" (MessageArg (Js.trim text))
        /\ Js.truthy (Js.trim text) = true)
  \/ c = process_audio_call
  \/ c = kill_call.

(** *** The admin flag *)

Definition same_admin (w w' : World) : Prop :=
  isAdminVerified (this w') = isAdminVerified (this w).

(** Events that grant admin access. *)
Definition grants (e : Event) : bool :=
  match e with
  | VerifyAdminCode adminCode => Js.truthy adminCode
  | _ => false
  end.

(** *** Panels *)

Definition panel_event (e : Event) : bool :=
  match e with MinimizePanel | ClosePanel => true | _ => false end.

(** No call at all. *)
Definition never (p : Pending) : Prop := False.

(** Handlers that issue no call. *)
Definition silent (e : Event) : bool :=
  match e with
  | SendMessage | ToggleRecording | StopRecording
  | EmergencyKillSwitch _ | Settle _ _ => false
  | _ => true
  end.

(** The page after [startRecording] or [stopRecording] has run into a
    missing control: the assignments before the failing one are made. *)
Definition half_switched (recording : bool) (d : Dom.Node) : Dom.Node :=
  match Dom.getElementById "record-btn" d,
        Dom.getElementById "stop-btn" d with
  | Some _, Some _ =>
      Dom.set_disabled "stop-btn" (negb recording)
        (Dom.set_disabled "record-btn" recording d)
  | Some _, None => Dom.set_disabled "record-btn" recording d
  | None, _ => d
  end.

(** The message that [init] leaves in the transcript. *)
Definition init_message (r : Settlement) : string :=
  match r with
  | Resolved _ => "Dwight AI agent initialized. Ready to assist!"
  | Rejected _ =>
      "Failed to initialize agent. Please check the console for errors."
  end.

Definition present (i : string) (d : Dom.Node) : bool :=
  match Dom.getElementById i d with Some _ => true | None => false end.

(** The render loop, once asked for, is not cancelled. *)
Definition keeps_animating (w w' : World) : Prop :=
  animating w = true -> animating w' = true.

(** An element of the page that a click can reach: a button other than
    the kill switch that is not disabled. *)
Definition enabled_button (a : Dom.Attrs) : bool :=
  Dom.button_not_kill_switch a && negb (Dom.disabled a).

(** Handlers of the settings that write to the console and do nothing
    else. *)
Definition logs_only (e : Event) : bool :=
  match e with
  | SwitchTheme _ | ToggleVoiceActivation _ | ToggleAutoTranscribe _
  | ToggleSmartResponse _ => true
  | _ => false
  end.

Definition is_log (x : ConsoleEntry) : bool :=
  match x with ConsoleLog _ => true | _ => false end.

(** The texts of the user's messages in the transcript, and the texts
    that have gone to the backend as [chat_with_agent] calls. *)
Definition is_user (m : ChatMessage) : bool :=
  match role m with user => true | assistant => false end.

Definition user_texts (a : DyhtApp) : list string :=
  map content (filter is_user (chatHistory a)).

Definition chat_text (c : Invocation) : list string :=
  match args c with
  | MessageArg m =>
      if String.eqb (command c) "chat_with_agent" then [m] else []
  | _ => []
  end.

Definition sent_texts (w : World) : list string :=
  flat_map chat_text (invoked w).

Definition in_step (w : World) : Prop := user_texts (this w) = sent_texts w.

Definition keeps_in_step (w w' : World) : Prop := in_step w -> in_step w'.

(** The element that [addChatMessage] appends to the transcript view. *)
Definition bubble (r : Role) (text : string) : Dom.Node :=
  Dom.Element
    (Dom.createElement "div" "" ("chat-message " ++ Role_to_string r))
    (Dom.text_children text).

(** A world without what the admin check and the audio set-up have
    left in the controller, and worlds that differ in that only. *)
Definition blind (w : World) : World :=
  with_this
    (fun a =>
       mkDyhtApp (isRecording a) false (liveWaveformCanvas a)
         (playbackWaveformCanvas a) (chatHistory a) (audioClips a) false)
    w.

Definition alike (w1 w2 : World) : Prop := blind w1 = blind w2.

(** A piece of handler code that does the same on worlds that are
    alike. *)
Definition respects {A} (m : M A) : Prop :=
  forall c w1 w2, alike w1 w2 ->
    fst (m c w1) = fst (m c w2) /\ alike (snd (m c w1)) (snd (m c w2)).

Definition reads_admin (e : Event) : bool :=
  match e with SwitchTheme _ => true | _ => false end.

(** Other pages, for examples: one that lacks elements, and one whose
    markup leaves the stop button enabled. *)
Module Partial.

Definition buttons_only : Dom.Node :=
  Sample.el "body" "" ""
    [Sample.el "button" "send-btn" "" [Dom.Text "Send"];
     Sample.el "button" "record-btn" "" [Dom.Text "Record"];
     Dom.Element
       (Dom.with_disabled true (Dom.createElement "button" "stop-btn" ""))
       [Dom.Text "Stop"]].

Definition stop_enabled : Dom.Node :=
  Sample.el "body" "" ""
    [Sample.el "button" "record-btn" "" [Dom.Text "Record"];
     Sample.el "button" "stop-btn" "" [Dom.Text "Stop"];
     Sample.el "span" "recording-status" "" [Dom.Text "Ready"];
     Sample.el "div" "clips-list" "" []].

Definition world (page : Dom.Node) : World :=
  mkWorld new_DyhtApp page [] [] [] [] false.

End Partial.

(* ================================================================== *)
(** * Facts *)

Module DomFacts.
Import Dom.

(** *** Lists of controls *)

Lemma assoc_in (i : string) (l : list (string * bool)) :
  In i (map fst l) <-> assoc i l <> None.
Proof.
  induction l as [|[j b] l IH]; simpl.
  - split; [tauto | congruence].
  - destruct (String.eqb_spec j i) as [->|Hne].
    + split; [congruence | auto].
    + rewrite <- IH. split; [intros [H|H]; [congruence | exact H] | auto].
Qed.

Lemma set_first_absent (i : string) (b : bool) (l : list (string * bool)) :
  ~ In i (map fst l) -> set_first i b l = l.
Proof.
  induction l as [|[j x] l IH]; simpl; intros Hn; [reflexivity|].
  destruct (String.eqb_spec j i) as [->|Hne]; [tauto|].
  rewrite IH; auto.
Qed.

Lemma set_first_app_present (i : string) (b : bool) l1 l2 :
  In i (map fst l1) -> set_first i b (l1 ++ l2) = set_first i b l1 ++ l2.
Proof.
  induction l1 as [|[j x] l1 IH]; simpl; intros Hin; [tauto|].
  destruct (String.eqb_spec j i) as [->|Hne]; [reflexivity|].
  rewrite IH; [reflexivity|]. destruct Hin; [congruence | assumption].
Qed.

Lemma set_first_app_absent (i : string) (b : bool) l1 l2 :
  ~ In i (map fst l1) -> set_first i b (l1 ++ l2) = l1 ++ set_first i b l2.
Proof.
  induction l1 as [|[j x] l1 IH]; simpl; intros Hn; [reflexivity|].
  destruct (String.eqb_spec j i) as [->|Hne]; [tauto|].
  rewrite IH; auto.
Qed.

Lemma assoc_set_first_same (i : string) (b : bool) l :
  In i (map fst l) -> assoc i (set_first i b l) = Some b.
Proof.
  induction l as [|[j x] l IH]; simpl; intros Hin; [tauto|].
  destruct (String.eqb_spec j i) as [->|Hne]; simpl.
  - now rewrite String.eqb_refl.
  - destruct (String.eqb_spec j i); [congruence|].
    apply IH. destruct Hin; [congruence | assumption].
Qed.

Lemma assoc_set_first_other (i j : string) (b : bool) l :
  i <> j -> assoc j (set_first i b l) = assoc j l.
Proof.
  intros Hij. induction l as [|[k x] l IH]; simpl; [reflexivity|].
  destruct (String.eqb_spec k i) as [->|Hne]; simpl.
  - destruct (String.eqb_spec i j); [congruence | reflexivity].
  - now rewrite IH.
Qed.

Lemma ids_set_first (i : string) (b : bool) l :
  map fst (set_first i b l) = map fst l.
Proof.
  induction l as [|[k x] l IH]; simpl; [reflexivity|].
  destruct (String.eqb k i); simpl; [reflexivity | now rewrite IH].
Qed.

(** *** Lookups by id, through [controls] *)

Lemma find_filter {A} (p q : A -> bool) (l : list A) :
  (forall a, p a = true -> q a = true) ->
  find p (filter q l) = find p l.
Proof.
  intros Hpq. induction l as [|a l IH]; simpl; [reflexivity|].
  destruct (q a) eqn:Hq; simpl.
  - now rewrite IH.
  - destruct (p a) eqn:Hp; [|exact IH].
    apply Hpq in Hp. congruence.
Qed.

Lemma assoc_keys (i : string) (l : list Attrs) :
  assoc i (map key l) = option_map disabled (find (has_id i) l).
Proof.
  induction l as [|a l IH]; simpl; [reflexivity|].
  unfold has_id at 1. destruct (String.eqb (elemId a) i); simpl; auto.
Qed.

Lemma disabled_of_controls (i : string) (d : Node) :
  tracked_id i = true -> disabled_of i d = assoc i (controls d).
Proof.
  intros Hi. unfold disabled_of, getElementById, controls.
  rewrite assoc_keys, find_filter; [reflexivity|].
  intros a Ha. unfold has_id in Ha. apply String.eqb_eq in Ha.
  unfold tracked. now rewrite Ha.
Qed.

Lemma present_controls (i : string) (d : Node) :
  tracked_id i = true ->
  (getElementById i d <> None <-> In i (map fst (controls d))).
Proof.
  intros Hi. rewrite assoc_in, <- disabled_of_controls by assumption.
  unfold disabled_of. destruct (getElementById i d); simpl; split; congruence.
Qed.

(** *** Shape of [controls] on a tree *)

Lemma controls_element (a : Attrs) (cs : list Node) :
  controls (Element a cs)
  = (if tracked a then [key a] else []) ++ controls_in cs.
Proof.
  unfold controls, controls_in. simpl. destruct (tracked a); reflexivity.
Qed.

Lemma controls_in_cons (c : Node) (cs : list Node) :
  controls_in (c :: cs) = controls c ++ controls_in cs.
Proof.
  unfold controls, controls_in. simpl.
  now rewrite filter_app, map_app.
Qed.

Lemma controls_in_app (cs cs' : list Node) :
  controls_in (cs ++ cs') = controls_in cs ++ controls_in cs'.
Proof.
  unfold controls_in. now rewrite flat_map_app, filter_app, map_app.
Qed.

Lemma untracked_controls (n : Node) :
  untracked n = true -> controls n = [].
Proof.
  induction n as [s | a cs IH] using Node_induction; intros H.
  - reflexivity.
  - simpl in H. apply andb_true_iff in H as [Ha Hcs].
    rewrite controls_element.
    apply negb_true_iff in Ha. rewrite Ha. simpl.
    induction cs as [|c cs IHcs]; [reflexivity|].
    rewrite controls_in_cons. simpl in Hcs.
    apply andb_true_iff in Hcs as [Hc Hcs].
    inversion IH; subst.
    rewrite H1 by assumption. simpl. apply IHcs; assumption.
Qed.

Lemma untracked_controls_in (cs : list Node) :
  forallb untracked cs = true -> controls_in cs = [].
Proof.
  induction cs as [|c cs IH]; simpl; intros H; [reflexivity|].
  apply andb_true_iff in H as [Hc Hcs].
  rewrite controls_in_cons, untracked_controls, IH by assumption.
  reflexivity.
Qed.

(** *** Updates of the first element that satisfies a selector *)

Lemma update_first_in_some {A} (u : A -> option A) (l l' : list A) :
  update_first_in u l = Some l' ->
  exists l1 x x' l2,
    l = l1 ++ x :: l2 /\ l' = l1 ++ x' :: l2 /\ u x = Some x'.
Proof.
  revert l'. induction l as [|x l IH]; simpl; intros l' H; [discriminate|].
  destruct (u x) as [x'|] eqn:Hu.
  - inversion H; subst. exists [], x, x', l. auto.
  - destruct (update_first_in u l) as [l0|]; [|discriminate].
    inversion H; subst.
    destruct (IH l0 eq_refl) as (l1 & y & y' & l2 & -> & -> & Hy).
    exists (x :: l1), y, y', l2. auto.
Qed.

Section Update.
Variable p : Attrs -> bool.
Variable f : Attrs -> list Node -> Attrs * list Node.

(** An update that leaves the controls of its target as they are
    leaves those of a stable page as they are. *)
Hypothesis keeps_controls :
  forall a cs, p a = true -> stable (Element a cs) = true ->
               controls (rewrite_of f a cs) = controls (Element a cs).

Lemma controls_update_first (d : Node) :
  forall d', stable d = true -> update_first p f d = Some d' ->
             controls d' = controls d.
Proof.
  induction d as [s | a cs IH] using Node_induction;
    intros d' Hst Hup; simpl in Hup; [discriminate|].
  destruct (p a) eqn:Hp.
  - inversion Hup; subst. now apply keeps_controls.
  - destruct (update_first_in (update_first p f) cs) as [cs'|] eqn:Hcs;
      [|discriminate].
    inversion Hup; subst. rewrite !controls_element. f_equal.
    apply update_first_in_some in Hcs
      as (l1 & x & x' & l2 & -> & -> & Hx).
    rewrite !controls_in_app, !controls_in_cons. do 2 f_equal.
    rewrite Forall_forall in IH. apply IH.
    + apply in_elt.
    + simpl in Hst. apply andb_true_iff in Hst as [_ Hst].
      rewrite forallb_forall in Hst. apply Hst, in_elt.
    + exact Hx.
Qed.

Lemma controls_update (d : Node) :
  stable d = true -> controls (update p f d) = controls d.
Proof.
  intros Hst. unfold update.
  destruct (update_first p f d) eqn:Hup; [|reflexivity].
  now apply controls_update_first.
Qed.

Lemma controls_update_first_in (cs cs' : list Node) :
  forallb stable cs = true ->
  update_first_in (update_first p f) cs = Some cs' ->
  controls_in cs' = controls_in cs.
Proof.
  intros Hst Hcs.
  apply update_first_in_some in Hcs as (l1 & x & x' & l2 & -> & -> & Hx).
  rewrite !controls_in_app, !controls_in_cons. do 2 f_equal.
  apply controls_update_first; [|exact Hx].
  rewrite forallb_forall in Hst. apply Hst, in_elt.
Qed.
End Update.

Section UpdateStable.
Variable p : Attrs -> bool.
Variable f : Attrs -> list Node -> Attrs * list Node.

(** An update that keeps its target stable, and free of tracked
    elements where it was, keeps the page so. *)
Hypothesis keeps_stable :
  forall a cs, p a = true ->
    (stable (Element a cs) = true -> stable (rewrite_of f a cs) = true)
    /\ (untracked (Element a cs) = true ->
        untracked (rewrite_of f a cs) = true).

Lemma forallb_replaced {A} (q : A -> bool) (l1 l2 : list A) (x x' : A) :
  (q x = true -> q x' = true) ->
  forallb q (l1 ++ x :: l2) = true -> forallb q (l1 ++ x' :: l2) = true.
Proof.
  intros Hx. rewrite !forallb_app. simpl.
  rewrite !andb_true_iff. intros (H1 & H2 & H3). auto.
Qed.

Lemma stable_update_first (d : Node) :
  forall d', update_first p f d = Some d' ->
    (stable d = true -> stable d' = true)
    /\ (untracked d = true -> untracked d' = true).
Proof.
  induction d as [s | a cs IH] using Node_induction;
    intros d' Hup; simpl in Hup; [discriminate|].
  destruct (p a) eqn:Hp.
  - inversion Hup; subst. now apply keeps_stable.
  - destruct (update_first_in (update_first p f) cs) as [cs'|] eqn:Hcs;
      [|discriminate].
    inversion Hup; subst.
    apply update_first_in_some in Hcs
      as (l1 & x & x' & l2 & -> & -> & Hx).
    rewrite Forall_forall in IH.
    destruct (IH x (in_elt x l1 l2)
                 x' Hx) as [Hs Hu].
    split; simpl; rewrite !andb_true_iff.
    + intros [H1 H2]. split.
      * destruct (rewritten a); [|reflexivity].
        revert H1. now apply forallb_replaced.
      * revert H2. now apply forallb_replaced.
    + intros [H1 H2]. split; [exact H1|].
      revert H2. now apply forallb_replaced.
Qed.

Lemma stable_update (d : Node) :
  stable d = true -> stable (update p f d) = true.
Proof.
  intros Hst. unfold update.
  destruct (update_first p f d) eqn:Hup; [|exact Hst].
  now apply (stable_update_first d n Hup).
Qed.

Lemma stable_update_first_in (cs cs' : list Node) :
  update_first_in (update_first p f) cs = Some cs' ->
  (forallb stable cs = true -> forallb stable cs' = true)
  /\ (forallb untracked cs = true -> forallb untracked cs' = true).
Proof.
  intros Hcs.
  apply update_first_in_some in Hcs as (l1 & x & x' & l2 & -> & -> & Hx).
  destruct (stable_update_first x x' Hx) as [Hs Hu].
  split; now apply forallb_replaced.
Qed.
End UpdateStable.

Lemma untracked_stable (n : Node) : untracked n = true -> stable n = true.
Proof.
  induction n as [s | a cs IH] using Node_induction; intros H;
    [reflexivity|].
  simpl in *. apply andb_true_iff in H as [Ha Hcs].
  apply andb_true_iff. split.
  - destruct (rewritten a); [exact Hcs | reflexivity].
  - rewrite forallb_forall in *. rewrite Forall_forall in IH. auto.
Qed.

Lemma untracked_stable_in (cs : list Node) :
  forallb untracked cs = true -> forallb stable cs = true.
Proof.
  rewrite !forallb_forall. intros H x Hx. apply untracked_stable; auto.
Qed.

(** *** Updates of properties *)

(** A property update that touches neither the id nor the [disabled]
    flag leaves the controls alone. *)
Section PropertyUpdate.
Variable p : Attrs -> bool.
Variable g : Attrs -> Attrs.
Hypothesis g_id : forall a, elemId (g a) = elemId a.

Lemma stable_update_property (d : Node) :
  stable d = true ->
  stable (update p (fun a cs => (g a, cs)) d) = true.
Proof.
  apply stable_update. intros a cs _. unfold rewrite_of; simpl.
  unfold rewritten, tracked, has_id. rewrite g_id. auto.
Qed.

Hypothesis g_disabled : forall a, disabled (g a) = disabled a.

Lemma controls_update_property (d : Node) :
  stable d = true ->
  controls (update p (fun a cs => (g a, cs)) d) = controls d.
Proof.
  apply controls_update. intros a cs _ _. unfold rewrite_of; simpl.
  rewrite !controls_element. unfold tracked, key.
  now rewrite g_id, g_disabled.
Qed.
End PropertyUpdate.

Lemma controls_set_value (i v : string) (d : Node) :
  stable d = true -> controls (set_value i v d) = controls d.
Proof. now apply controls_update_property. Qed.

Lemma stable_set_value (i v : string) (d : Node) :
  stable d = true -> stable (set_value i v d) = true.
Proof. now apply stable_update_property. Qed.

Lemma controls_set_style (i prop v : string) (d : Node) :
  stable d = true -> controls (set_style i prop v d) = controls d.
Proof.
  apply (controls_update_property (has_id i)
           (fun a => with_style (set_property prop v (style a)) a));
    reflexivity.
Qed.

Lemma stable_set_style (i prop v : string) (d : Node) :
  stable d = true -> stable (set_style i prop v d) = true.
Proof.
  apply (stable_update_property (has_id i)
           (fun a => with_style (set_property prop v (style a)) a));
    reflexivity.
Qed.

Lemma stable_set_disabled (i : string) (b : bool) (d : Node) :
  stable d = true -> stable (set_disabled i b d) = true.
Proof. now apply stable_update_property. Qed.

(** [set_disabled] on a tracked id sets the first entry for it. *)
Lemma controls_set_disabled_first (i : string) (b : bool) (d : Node) :
  tracked_id i = true ->
  match update_first (has_id i) (fun a cs => (with_disabled b a, cs)) d with
  | Some d' => controls d' = set_first i b (controls d)
               /\ In i (map fst (controls d))
  | None => ~ In i (map fst (controls d))
  end.
Proof.
  intros Hi.
  induction d as [s | a cs IH] using Node_induction; simpl; [tauto|].
  destruct (has_id i a) eqn:Hp.
  - unfold has_id in Hp. apply String.eqb_eq in Hp.
    rewrite !controls_element. unfold tracked. simpl.
    rewrite Hp, Hi. simpl. rewrite Hp, String.eqb_refl.
    unfold key. simpl. rewrite Hp. auto.
  - assert (Hhead : ~ In i (map fst (if tracked a then [key a] else []))).
    { destruct (tracked a); simpl; [|tauto].
      unfold has_id in Hp. apply String.eqb_neq in Hp. tauto. }
    assert (Hkids :
      match update_first_in
              (update_first (has_id i)
                 (fun a cs => (with_disabled b a, cs))) cs with
      | Some cs' => controls_in cs' = set_first i b (controls_in cs)
                    /\ In i (map fst (controls_in cs))
      | None => ~ In i (map fst (controls_in cs))
      end).
    { clear Hp Hhead. induction cs as [|c cs IHcs]; simpl; [tauto|].
      inversion IH as [|? ? Hc Hrest]; subst.
      specialize (IHcs Hrest).
      rewrite controls_in_cons.
      destruct (update_first (has_id i) _ c) as [c'|].
      - destruct Hc as [Hc Hin]. rewrite controls_in_cons, Hc.
        rewrite set_first_app_present by assumption.
        split; [reflexivity|]. rewrite map_app. apply in_or_app. auto.
      - destruct (update_first_in _ cs) as [cs'|]; simpl.
        + destruct IHcs as [Hcs Hin]. rewrite controls_in_cons, Hcs.
          rewrite set_first_app_absent by assumption.
          split; [reflexivity|]. rewrite map_app. apply in_or_app. auto.
        + rewrite map_app, in_app_iff. tauto. }
    destruct (update_first_in _ cs) as [cs'|]; simpl.
    + destruct Hkids as [Hcs Hin]. rewrite !controls_element, Hcs.
      rewrite set_first_app_absent by assumption.
      split; [reflexivity|]. rewrite map_app. apply in_or_app. auto.
    + rewrite controls_element, map_app, in_app_iff. tauto.
Qed.

Lemma controls_set_disabled (i : string) (b : bool) (d : Node) :
  tracked_id i = true ->
  controls (set_disabled i b d) = set_first i b (controls d).
Proof.
  intros Hi. unfold set_disabled, update.
  pose proof (controls_set_disabled_first i b d Hi) as H.
  destruct (update_first _ _ d).
  - apply H.
  - symmetry. now apply set_first_absent.
Qed.

(** *** Updates of content *)

Lemma has_id_rewritten (i : string) (a : Attrs) :
  i = "recording-status" \/ i = "clips-list" ->
  has_id i a = true -> rewritten a = true.
Proof.
  unfold rewritten. intros [-> | ->] ->; [reflexivity | apply orb_true_r].
Qed.

(** Replacing the content of the status line or of the clip list. *)
Section Replace.
Variable i : string.
Variable content : list Node.
Hypothesis i_rewritten : i = "recording-status" \/ i = "clips-list".
Hypothesis content_untracked : forallb untracked content = true.

Lemma controls_replace (d : Node) :
  stable d = true ->
  controls (update (has_id i) (fun a _ => (a, content)) d) = controls d.
Proof.
  apply controls_update. intros a cs Ha Hst. unfold rewrite_of; simpl.
  rewrite !controls_element. f_equal.
  rewrite (untracked_controls_in content) by assumption.
  simpl in Hst. rewrite (has_id_rewritten i a) in Hst by assumption.
  apply andb_true_iff in Hst as [Hst _].
  now rewrite untracked_controls_in.
Qed.

Lemma stable_replace (d : Node) :
  stable d = true ->
  stable (update (has_id i) (fun a _ => (a, content)) d) = true.
Proof.
  apply stable_update. intros a cs Ha. unfold rewrite_of; simpl.
  split; intros H.
  - rewrite content_untracked, untracked_stable_in by assumption.
    now destruct (rewritten a).
  - apply andb_true_iff in H as [H _].
    now rewrite H, content_untracked.
Qed.
End Replace.

Lemma text_children_untracked (s : string) :
  forallb untracked (text_children s) = true.
Proof. destruct s; reflexivity. Qed.

(** Appending a child that holds no tracked element. *)
Section Append.
Variable i : string.
Variable c : Node.
Hypothesis c_untracked : untracked c = true.

Lemma controls_appendChild (d : Node) :
  stable d = true -> controls (appendChild i c d) = controls d.
Proof.
  apply controls_update. intros a cs Ha Hst. unfold rewrite_of; simpl.
  rewrite !controls_element, controls_in_app.
  rewrite (untracked_controls_in [c]), app_nil_r; [reflexivity|].
  simpl. now rewrite c_untracked.
Qed.

Lemma stable_appendChild (d : Node) :
  stable d = true -> stable (appendChild i c d) = true.
Proof.
  apply stable_update. intros a cs Ha. unfold rewrite_of; simpl.
  rewrite !forallb_app. simpl.
  rewrite c_untracked, (untracked_stable c c_untracked), !andb_true_r.
  tauto.
Qed.
End Append.

(** Setting the style of a descendant. *)
Lemma controls_set_style_attribute_within i sel st (d : Node) :
  stable d = true ->
  controls (set_style_attribute_within i sel st d) = controls d.
Proof.
  apply controls_update. intros a cs Ha Hst. unfold rewrite_of; simpl.
  rewrite !controls_element. f_equal.
  destruct (update_first_in _ cs) as [cs'|] eqn:Hcs; [|reflexivity].
  simpl in Hst. apply andb_true_iff in Hst as [_ Hst].
  revert Hcs. apply controls_update_first_in; [|exact Hst].
  intros a' cs0 _ _. unfold rewrite_of; simpl.
  now rewrite !controls_element.
Qed.

Lemma stable_set_style_attribute_within i sel st (d : Node) :
  stable d = true ->
  stable (set_style_attribute_within i sel st d) = true.
Proof.
  apply stable_update. intros a cs Ha. unfold rewrite_of; simpl.
  destruct (update_first_in _ cs) as [cs'|] eqn:Hcs; [|tauto].
  apply stable_update_first_in in Hcs as [Hs Hu].
  - rewrite !andb_true_iff. split.
    + intros [H1 H2]. split; [|auto]. destruct (rewritten a); auto.
    + intros [H1 H2]. auto.
  - intros a' cs0 _. unfold rewrite_of; simpl. tauto.
Qed.

(** *** Updates of every element *)

Lemma elements_map_attrs (g : Attrs -> Attrs) (d : Node) :
  elements (map_attrs g d) = map g (elements d).
Proof.
  induction d as [s | a cs IH] using Node_induction; simpl; [reflexivity|].
  f_equal. induction cs as [|c cs IHcs]; simpl; [reflexivity|].
  inversion IH; subst. rewrite map_app. f_equal; auto.
Qed.

Section MapAttrs.
Variable g : Attrs -> Attrs.
Hypothesis g_id : forall a, elemId (g a) = elemId a.

Lemma getElementById_map_attrs (i : string) (d : Node) :
  getElementById i (map_attrs g d) = option_map g (getElementById i d).
Proof.
  unfold getElementById. rewrite elements_map_attrs.
  induction (elements d) as [|a l IH]; simpl; [reflexivity|].
  unfold has_id at 1 3. rewrite g_id.
  destruct (String.eqb (elemId a) i); [reflexivity | exact IH].
Qed.

Lemma untracked_map_attrs (d : Node) :
  untracked (map_attrs g d) = untracked d.
Proof.
  induction d as [s | a cs IH] using Node_induction; simpl; [reflexivity|].
  unfold tracked. rewrite g_id. f_equal.
  induction cs as [|c cs IHcs]; simpl; [reflexivity|].
  inversion IH; subst. f_equal; auto.
Qed.

Lemma stable_map_attrs (d : Node) :
  stable (map_attrs g d) = stable d.
Proof.
  induction d as [s | a cs IH] using Node_induction; simpl; [reflexivity|].
  unfold rewritten, has_id. rewrite g_id.
  assert (Hu : forallb untracked (map (map_attrs g) cs)
               = forallb untracked cs).
  { clear IH. induction cs as [|c cs IHcs]; simpl; [reflexivity|].
    now rewrite untracked_map_attrs, IHcs. }
  rewrite Hu. f_equal.
  clear Hu. induction cs as [|c cs IHcs]; simpl; [reflexivity|].
  inversion IH; subst. f_equal; auto.
Qed.
End MapAttrs.

(** *** Lookups that an update cannot disturb *)

Section Sieve.
Variable p q : Attrs -> bool.
Variable f : Attrs -> list Node -> Attrs * list Node.
Hypothesis same_sieved :
  forall a cs, p a = true ->
    filter q (elements (rewrite_of f a cs))
    = filter q (elements (Element a cs)).

Lemma sieve_update_first (d : Node) :
  forall d', update_first p f d = Some d' ->
             filter q (elements d') = filter q (elements d).
Proof.
  induction d as [s | a cs IH] using Node_induction;
    intros d' Hup; simpl in Hup; [discriminate|].
  destruct (p a) eqn:Hp.
  - inversion Hup; subst. now apply same_sieved.
  - destruct (update_first_in (update_first p f) cs) as [cs'|] eqn:Hcs;
      [|discriminate].
    inversion Hup; subst.
    apply update_first_in_some in Hcs
      as (l1 & x & x' & l2 & -> & -> & Hx).
    change (filter q ([a] ++ flat_map elements (l1 ++ x' :: l2))
            = filter q ([a] ++ flat_map elements (l1 ++ x :: l2))).
    rewrite !flat_map_app. simpl flat_map.
    rewrite !filter_app.
    rewrite Forall_forall in IH.
    now rewrite (IH x (in_elt x l1 l2) x' Hx).
Qed.

Lemma find_update (d : Node) :
  find q (elements (update p f d)) = find q (elements d).
Proof.
  assert (Hq : forall a, q a = true -> q a = true) by auto.
  unfold update.
  destruct (update_first p f d) as [d'|] eqn:Hup; [|reflexivity].
  rewrite <- (find_filter q q (elements d')), <- (find_filter q q (elements d))
    by assumption.
  now rewrite (sieve_update_first d d' Hup).
Qed.
End Sieve.

Lemma getElementById_appendChild (j i : string) (c d : Node) :
  filter (has_id j) (elements c) = [] ->
  getElementById j (appendChild i c d) = getElementById j d.
Proof.
  intros Hc. unfold getElementById, appendChild.
  apply find_update.
  intros a cs _. unfold rewrite_of. simpl.
  rewrite flat_map_app. simpl. rewrite app_nil_r.
  destruct (has_id j a); rewrite filter_app, Hc, app_nil_r; reflexivity.
Qed.

(** *** The kill switch and the buttons *)

Lemma disable_buttons_disables (d : Node) :
  Forall (fun a => button_not_kill_switch a = true -> disabled a = true)
         (elements (disable_buttons d)).
Proof.
  unfold disable_buttons. rewrite elements_map_attrs.
  apply Forall_forall. intros a' Ha'. apply in_map_iff in Ha' as (a & <- & _).
  destruct (button_not_kill_switch a) eqn:Hb; [reflexivity|].
  congruence.
Qed.

Lemma disable_buttons_spares_kill_switch (d : Node) :
  getElementById "kill-switch" (disable_buttons d)
  = getElementById "kill-switch" d.
Proof.
  unfold getElementById, disable_buttons. rewrite elements_map_attrs.
  induction (elements d) as [|a l IH]; simpl; [reflexivity|].
  unfold button_not_kill_switch.
  destruct (has_id "kill-switch" a) eqn:Hk.
  - rewrite andb_false_r. now rewrite Hk.
  - destruct (String.eqb (tagName a) "button"); simpl.
    + unfold has_id in *. simpl. now rewrite Hk.
    + now rewrite Hk.
Qed.

(** An element keeps or gains its [disabled] flag when the buttons are
    disabled. *)
Lemma disable_buttons_keeps_disabled (i : string) (d : Node) :
  disabled_of i d = Some true ->
  disabled_of i (disable_buttons d) = Some true.
Proof.
  unfold disabled_of, disable_buttons.
  rewrite getElementById_map_attrs
    by (intros a; now destruct (button_not_kill_switch a)).
  destruct (getElementById i d) as [a|]; simpl; [|discriminate].
  intros H. destruct (button_not_kill_switch a); simpl; congruence.
Qed.

End DomFacts.

Import DomFacts.

(** ** Relations that every step of a handler respects *)

Section Preserves.
Variable R : World -> World -> Prop.
Context {R_preorder : PreOrder R}.

Lemma preserves_ret {A} (a : A) : preserves R (ret a).
Proof. intros c w. simpl. reflexivity. Qed.

Lemma preserves_throw {A} (e : JsError) : preserves R (@throw A e).
Proof. intros c w. simpl. reflexivity. Qed.

Lemma preserves_gets {A} (f : World -> A) : preserves R (gets f).
Proof. intros c w. simpl. reflexivity. Qed.

Lemma preserves_read_clock {A} (f : Clock -> A) :
  preserves R (read_clock f).
Proof. intros c w. simpl. reflexivity. Qed.

Lemma preserves_modify (f : World -> World) :
  (forall w, R w (f w)) -> preserves R (modify f).
Proof. intros H c w. apply H. Qed.

Lemma preserves_bind {A B} (m : M A) (k : A -> M B) :
  preserves R m -> (forall a, preserves R (k a)) ->
  preserves R (bind m k).
Proof.
  intros Hm Hk c w. unfold bind. specialize (Hm c w).
  destruct (m c w) as [[a|e] w1]; simpl in *.
  - transitivity w1; [exact Hm | apply Hk].
  - exact Hm.
Qed.

(** After a lookup by id the reference is that id, or [null]. *)
Lemma preserves_lookup {B} (i : string) (k : option string -> M B) :
  preserves R (k (Some i)) -> preserves R (k None) ->
  preserves R (bind (document_getElementById i) k).
Proof.
  intros Hs Hn c w. unfold bind, document_getElementById, gets.
  destruct (Dom.getElementById i (document w)); [apply Hs | apply Hn].
Qed.

Lemma preserves_try_catch {A} (body : M A) (handler : JsError -> M A) :
  preserves R body -> (forall e, preserves R (handler e)) ->
  preserves R (try_catch body handler).
Proof.
  intros Hb Hh c w. unfold try_catch. specialize (Hb c w).
  destruct (body c w) as [[a|e] w1]; simpl in *.
  - exact Hb.
  - transitivity w1; [exact Hb | apply Hh].
Qed.

Lemma preserves_exec (m : M unit) :
  (forall f w, R w (with_console f w)) ->
  preserves R m -> forall c w, R w (exec m c w).
Proof.
  intros Hc Hm c w. unfold exec. specialize (Hm c w).
  destruct (m c w) as [[a|e] w1]; simpl in *; [exact Hm|].
  transitivity w1; [exact Hm | apply Hc].
Qed.
End Preserves.

(** Walk through a handler, leaving the updates of the world. *)
Ltac walk :=
  repeat match goal with
    | |- preserves ?R (ret _) => apply (preserves_ret R)
    | |- preserves ?R (throw _) => apply (preserves_throw R)
    | |- preserves ?R (gets _) => apply (preserves_gets R)
    | |- preserves ?R (read_clock _) => apply (preserves_read_clock R)
    | |- preserves ?R (bind (document_getElementById _) _) =>
        apply (preserves_lookup R)
    | |- preserves ?R (bind _ _) => apply (preserves_bind R); [|intro]
    | |- preserves ?R (try_catch _ _) =>
        apply (preserves_try_catch R); [|intro]
    | |- preserves ?R (modify _) => apply (preserves_modify R); intro
    | |- preserves _ (match ?x with _ => _ end) => destruct x
    end.

(** *** The recording flag and the calls in flight *)

#[local] Instance calm_preorder (allowed : Cont -> bool) :
  PreOrder (calm allowed).
Proof.
  split.
  - intros w. split; [reflexivity|]. exists []. now rewrite app_nil_r.
  - intros w1 w2 w3 [H1 (a1 & P1 & F1)] [H2 (a2 & P2 & F2)]. split.
    + congruence.
    + exists (a1 ++ a2). rewrite P2, P1, <- app_assoc, forallb_app, F1, F2.
      auto.
Qed.

(** *** The page *)

#[local] Instance tidy_preorder : PreOrder tidy.
Proof. split; unfold tidy; [intros w; auto | intros w1 w2 w3; auto]. Qed.

#[local] Instance untouched_preorder : PreOrder untouched.
Proof.
  split; unfold untouched.
  - intros w; auto.
  - intros w1 w2 w3 H1 H2 Hs. destruct (H1 Hs) as [Hs2 C2].
    destruct (H2 Hs2) as [Hs3 C3]. split; congruence.
Qed.

Lemma untouched_tidy (w w' : World) : untouched w w' -> tidy w w'.
Proof. intros H Hs. now apply H. Qed.

Ltac open_methods :=
  unfold handle, resume, init_resume, loadInitialData_resume,
    loadInitialData_catch, sendMessage, sendMessage_resume,
    sendMessage_catch, startRecording, stopRecording, stopRecording_resume,
    stopRecording_catch, toggleRecording, updateAudioClipsList,
    verifyAdminCode, verifyAdminCode_try, verifyAdminCode_catch, switchModel, switchTheme, emergencyKillSwitch,
    emergencyKillSwitch_resume, emergencyKillSwitch_catch, minimizePanel,
    closePanel, toggleVoiceActivation, toggleAutoTranscribe,
    toggleSmartResponse, setupWaveformCanvases, startLiveWaveform,
    addChatMessage, init, setupEventListeners, initializeAudio,
    loadInitialData, new_AudioContext, confirm, settled.

Ltac open_primitives :=
  unfold set_disabled, set_textContent, set_style, set_value, get_value,
    console_log, console_error, alert, invoke, update_app, set_isRecording,
    set_audioContext, set_canvases, push_chatHistory, push_audioClips,
    set_isAdminVerified.

Ltac walk_all :=
  repeat first
    [ progress walk
    | progress (open_methods; open_primitives; cbv beta iota zeta) ].

Lemma calm_handle (allowed : Cont -> bool) (e : Event) :
  bystander e = true ->
  allowed AfterChatWithAgent = true ->
  (confirms_kill e = true -> allowed AfterEmergencyKillSwitch = true) ->
  preserves (calm allowed) (handle e).
Proof.
  intros Hb Hchat Hkill.
  destruct e as [ | | | | | | answer | | | | | | | ]; try discriminate Hb.
  5: { destruct answer; intros c w; (split; [reflexivity|]); simpl.
       - eexists [_]. split; [reflexivity|]. simpl.
         now rewrite Hkill by reflexivity.
       - exists []. now rewrite app_nil_r. }
  all: walk_all; (split; [reflexivity|]);
    try (exists []; rewrite app_nil_r; split; reflexivity).
  all: eexists [_]; split; [reflexivity|]; simpl; now rewrite Hchat.
Qed.

Lemma calm_resume (allowed : Cont -> bool) (k : Cont) (r : Settlement) :
  preserves (calm allowed) (resume k r).
Proof.
  destruct k, r; walk_all;
    (split; [reflexivity|]);
    exists []; rewrite app_nil_r; split; reflexivity.
Qed.

(** What the updates of the page do to it. *)

Lemma untouched_elsewhere (w w' : World) :
  document w' = document w -> untouched w w'.
Proof. intros H Hs. rewrite H. auto. Qed.

Lemma untouched_set_value (i v : string) (w : World) :
  untouched w (with_document (Dom.set_value i v) w).
Proof.
  intros Hs. simpl. split;
    [now apply stable_set_value | now apply controls_set_value].
Qed.

Lemma untouched_set_style (i prop v : string) (w : World) :
  untouched w (with_document (Dom.set_style i prop v) w).
Proof.
  intros Hs. simpl. split;
    [now apply stable_set_style | now apply controls_set_style].
Qed.

Lemma untouched_set_style_attribute_within i sel st (w : World) :
  untouched w (with_document (Dom.set_style_attribute_within i sel st) w).
Proof.
  intros Hs. simpl. split;
    [ now apply stable_set_style_attribute_within
    | now apply controls_set_style_attribute_within ].
Qed.

Lemma untouched_chat_message (i cls text : string) (w : World) :
  untouched w
    (with_document
       (Dom.appendChild i
          (Dom.Element (Dom.createElement "div" "" cls)
                       (Dom.text_children text))) w).
Proof.
  assert (Hu : Dom.untracked
                 (Dom.Element (Dom.createElement "div" "" cls)
                              (Dom.text_children text)) = true).
  { simpl. apply text_children_untracked. }
  intros Hs. simpl. split;
    [now apply stable_appendChild | now apply controls_appendChild].
Qed.

Lemma untouched_status_text (s : string) (w : World) :
  untouched w (with_document (Dom.set_textContent "recording-status" s) w).
Proof.
  intros Hs. simpl. unfold Dom.set_textContent. split.
  - apply stable_replace; auto using text_children_untracked.
  - apply controls_replace; auto using text_children_untracked.
Qed.

Lemma untouched_clips_markup (time : string) (w : World) :
  untouched w
    (with_document (Dom.set_innerHTML "clips-list" (clip_item_markup time)) w).
Proof.
  intros Hs. simpl. unfold Dom.set_innerHTML. split.
  - apply stable_replace; auto.
  - apply controls_replace; auto.
Qed.

Lemma tidy_set_disabled (i : string) (b : bool) (w : World) :
  tidy w (with_document (Dom.set_disabled i b) w).
Proof. intros Hs. simpl. now apply stable_set_disabled. Qed.

Lemma tidy_disable_buttons (w : World) :
  tidy w (with_document Dom.disable_buttons w).
Proof.
  intros Hs. simpl. unfold Dom.disable_buttons.
  rewrite stable_map_attrs; [exact Hs|].
  intros a. now destruct (Dom.button_not_kill_switch a).
Qed.

Ltac page_update :=
  first
    [ apply untouched_set_value
    | apply untouched_set_style
    | apply untouched_set_style_attribute_within
    | apply untouched_chat_message
    | apply untouched_status_text
    | apply untouched_clips_markup
    | apply untouched_elsewhere; reflexivity
    | apply tidy_set_disabled
    | apply tidy_disable_buttons
    | apply untouched_tidy; page_update ].

Lemma untouched_handle (e : Event) :
  bystander e = true -> preserves untouched (handle e).
Proof.
  intros Hb. destruct e; try discriminate Hb; walk_all; page_update.
Qed.

Lemma untouched_resume (k : Cont) (r : Settlement) :
  k <> AfterEmergencyKillSwitch -> preserves untouched (resume k r).
Proof.
  intros Hk. destruct k; try congruence; destruct r; walk_all; page_update.
Qed.

Lemma tidy_handle (e : Event) :
  (forall n r, e <> Settle n r) -> preserves tidy (handle e).
Proof.
  intros Hn. destruct e; try (now exfalso; eapply Hn); walk_all; page_update.
Qed.

Lemma tidy_resume (k : Cont) (r : Settlement) : preserves tidy (resume k r).
Proof. destruct k, r; walk_all; page_update. Qed.

(** ** Calls in flight *)

Lemma nth_error_snoc {A} (l : list A) (x : A) :
  nth_error (l ++ [x]) (List.length l) = Some x.
Proof. rewrite nth_error_app2, Nat.sub_diag by lia. reflexivity. Qed.

Lemma remove_at_snoc {A} (l : list A) (x : A) :
  remove_at (List.length l) (l ++ [x]) = l.
Proof.
  unfold remove_at. rewrite firstn_app, Nat.sub_diag, firstn_all.
  rewrite (skipn_all2 (n := S (List.length l)))
    by (rewrite length_app; simpl; lia).
  simpl. now rewrite !app_nil_r.
Qed.

(** A settlement runs the continuation of the call it names, with that
    call no longer in flight. *)
Lemma step_settle (c : Clock) (n : nat) (r : Settlement) (w : World)
    (p : Pending) :
  nth_error (pending w) n = Some p ->
  step c (Settle n r) w
  = exec (resume (cont p) r) c (with_pending (remove_at n (pending w)) w).
Proof.
  intros H. unfold step, exec, handle, settle, bind, gets, modify.
  rewrite H. reflexivity.
Qed.

Lemma step_settle_none (c : Clock) (n : nat) (r : Settlement) (w : World) :
  nth_error (pending w) n = None -> step c (Settle n r) w = w.
Proof.
  intros H. unfold step, exec, handle, settle, bind, gets.
  rewrite H. reflexivity.
Qed.

(** The settlement of the call that a handler has just issued. *)
Lemma step_settle_last (c : Clock) (r : Settlement) (w : World)
    (call : Invocation) (k : Cont) :
  step c (Settle (List.length (pending w)) r) (with_call call k w)
  = exec (resume k r) c
      (mkWorld (this w) (document w) (console w) (dialogs w)
               (invoked w ++ [call]) (pending w) (animating w)).
Proof.
  rewrite (step_settle _ _ _ _ (mkPending call k)).
  - simpl. unfold with_pending. simpl. now rewrite remove_at_snoc.
  - simpl. apply nth_error_snoc.
Qed.

(** ** The transcript *)

Lemma addChatMessage_run (r : Role) (text : string) (c : Clock) (w : World) :
  addChatMessage r text c w
  = (Normal tt, with_document (shown r text) (with_this (said r text c) w)).
Proof.
  unfold addChatMessage, bind, read_clock, push_chatHistory, update_app,
    modify, document_getElementById, gets, shown, with_document. simpl.
  destruct (Dom.getElementById "chat-messages" (document w)); reflexivity.
Qed.

Lemma sendMessage_run (c : Clock) (w : World) (a : Dom.Attrs) :
  Dom.getElementById "chat-input" (document w) = Some a ->
  Js.truthy (Js.trim (Dom.value a)) = true ->
  sendMessage c w
  = (Normal tt,
     with_call (mkInvocation "chat_with_agent"
                  (MessageArg (Js.trim (Dom.value a))))
       AfterChatWithAgent
       (with_document (Dom.set_value "chat-input" "")
          (with_document (shown user (Js.trim (Dom.value a)))
             (with_this (said user (Js.trim (Dom.value a)) c) w)))).
Proof.
  intros Ha Ht. unfold sendMessage, bind at 1 2, document_getElementById, gets.
  rewrite Ha. unfold get_value, gets. simpl. rewrite Ha, Ht. simpl.
  unfold bind at 1. rewrite addChatMessage_run. reflexivity.
Qed.

Lemma sendMessage_blank (c : Clock) (w : World) (a : Dom.Attrs) :
  Dom.getElementById "chat-input" (document w) = Some a ->
  Js.truthy (Js.trim (Dom.value a)) = false ->
  sendMessage c w = (Normal tt, w).
Proof.
  intros Ha Ht. unfold sendMessage, bind at 1 2, document_getElementById, gets.
  rewrite Ha. unfold get_value, gets. simpl. rewrite Ha, Ht. reflexivity.
Qed.

(** C6: when the chat input holds "hello" and the [chat_with_agent]
    call resolves to "hi", sending the message and the settlement of
    its call append exactly two entries to the transcript, in this
    order: the user's "hello", then the assistant's "hi". One backend
    call is issued for it, and none is left in flight. *)
Theorem sendMessage_hello_hi (w : World) (c1 c2 : Clock) (a : Dom.Attrs) :
  Dom.getElementById "chat-input" (document w) = Some a ->
  Dom.value a = "hello" ->
  let w1 := step c1 SendMessage w in
  let w2 := step c2 (Settle (List.length (pending w)) (Resolved "hi")) w1 in
  chatHistory (this w2)
  = chatHistory (this w)
    ++ [mkChatMessage user "hello" (isoString c1);
        mkChatMessage assistant "hi" (isoString c2)]
  /\ invoked w2
     = invoked w ++ [mkInvocation "chat_with_agent" (MessageArg "hello")]
  /\ pending w1
     = pending w
       ++ [mkPending (mkInvocation "chat_with_agent" (MessageArg "hello"))
             AfterChatWithAgent]
  /\ pending w2 = pending w.
Proof.
  intros Ha Hv w1 w2.
  assert (H1 : w1 = with_call (mkInvocation "chat_with_agent"
                                 (MessageArg "hello")) AfterChatWithAgent
                      (with_document (Dom.set_value "chat-input" "")
                         (with_document (shown user "hello")
                            (with_this (said user "hello" c1) w)))).
  { subst w1. unfold step, exec, handle.
    rewrite (sendMessage_run c1 w a Ha) by (rewrite Hv; reflexivity).
    now rewrite Hv. }
  subst w2. rewrite H1.
  match goal with
  | |- context [step c2 (Settle ?n ?r) (with_call ?call ?k ?w0)] =>
      change n with (List.length (pending w0));
      rewrite (step_settle_last c2 r w0 call k)
  end.
  unfold exec, resume, sendMessage_resume, try_catch, bind, settled, ret.
  rewrite addChatMessage_run. simpl.
  rewrite <- app_assoc. auto.
Qed.

Lemma sendMessage_hello_hi_example :
  let w := step (Sample.clock 2) (Typed "chat-input" "hello") Sample.ready in
  let a := Dom.with_value "hello"
             (Dom.createElement "input" "chat-input" "") in
  Dom.getElementById "chat-input" (document w) = Some a
  /\ Dom.value a = "hello"
  /\ chatHistory
       (this (step (Sample.clock 4) (Settle 0 (Resolved "hi"))
                (step (Sample.clock 3) SendMessage w)))
     = chatHistory (this w)
       ++ [mkChatMessage user "hello" (isoString (Sample.clock 3));
           mkChatMessage assistant "hi" (isoString (Sample.clock 4))].
Proof.
  intros w a. split; [reflexivity|]. split; [reflexivity|].
  exact (proj1 (sendMessage_hello_hi w (Sample.clock 3) (Sample.clock 4) a
                  eq_refl eq_refl)).
Defined.

(** ** Blank input *)

Lemma trimStart_blank_upto (n : nat) :
  forall s, (String.length s <= n)%nat ->
            Js.all_white_space s = true -> Js.trimStart s = "".
Proof.
  induction n as [|n IH]; intros s Hn H.
  - destruct s; [reflexivity | simpl in Hn; lia].
  - destruct s as [|c1 s1]; [reflexivity|]. simpl in *.
    destruct (Js.white_space1 c1); [apply IH; [lia | exact H]|].
    destruct s1 as [|c2 s2]; [discriminate|]. simpl in Hn.
    destruct (Js.white_space2 c1 c2); [apply IH; [lia | exact H]|].
    destruct s2 as [|c3 s3]; [discriminate|]. simpl in Hn.
    apply andb_true_iff in H as [H3 H]. rewrite H3.
    apply IH; [lia | exact H].
Qed.

Lemma trimStart_blank (s : string) :
  Js.all_white_space s = true -> Js.trimStart s = "".
Proof. now apply (trimStart_blank_upto (String.length s)). Qed.

Lemma trim_blank (s : string) :
  Js.all_white_space s = true -> Js.trim s = "".
Proof. intros H. unfold Js.trim. now rewrite trimStart_blank. Qed.

(** C7: when the chat input is empty or holds white space only,
    sending is a no-op and not an error: the world stays as it is, so
    the transcript gets no entry and no backend call is issued. *)
Theorem sendMessage_blank_is_noop (w : World) (c : Clock) (a : Dom.Attrs) :
  Dom.getElementById "chat-input" (document w) = Some a ->
  Js.all_white_space (Dom.value a) = true ->
  step c SendMessage w = w.
Proof.
  intros Ha Hb. unfold step, exec, handle.
  rewrite (sendMessage_blank c w a Ha); [reflexivity|].
  now rewrite trim_blank.
Qed.

Lemma sendMessage_blank_is_noop_example :
  let w := step (Sample.clock 2) (Typed "chat-input" "   ") Sample.ready in
  let a := Dom.with_value "   "
             (Dom.createElement "input" "chat-input" "") in
  Dom.getElementById "chat-input" (document w) = Some a
  /\ Js.all_white_space (Dom.value a) = true
  /\ step (Sample.clock 3) SendMessage w = w.
Proof.
  intros w a. split; [reflexivity|]. split; [reflexivity|].
  exact (sendMessage_blank_is_noop w (Sample.clock 3) a eq_refl eq_refl).
Defined.

(** ** Admin code *)

Lemma verifyAdminCode_try_run (c : Clock) (w : World) :
  verifyAdminCode_try c w
  = (Normal tt,
     with_dialogs (fun l => l ++ [Alert "Admin access granted"])
       (with_document granted_border
          (with_this
             (fun a =>
                mkDyhtApp (isRecording a) (audioContext a)
                  (liveWaveformCanvas a) (playbackWaveformCanvas a)
                  (chatHistory a) (audioClips a) true) w))).
Proof.
  unfold verifyAdminCode_try, bind, set_isAdminVerified, update_app, modify,
    document_getElementById, gets, alert, granted_border, with_document.
  simpl.
  destruct (Dom.getElementById "admin-code" (document w)); reflexivity.
Qed.

(** C8: verifying an empty admin code shows the alert "Please enter
    an admin code" and changes nothing else, the admin-verified flag
    included. Verifying any other code sets the flag and shows "Admin
    access granted". The guarded code never throws, so the failure
    path never runs: nothing is logged, the border is only ever set to
    green, and "Invalid admin code" is never shown. *)
Theorem verifyAdminCode_always_grants (w : World) (c : Clock)
    (adminCode : string) :
  let w' := step c (VerifyAdminCode adminCode) w in
  (adminCode = "" ->
     w' = with_dialogs (fun l => l ++ [Alert "Please enter an admin code"]) w)
  /\ (adminCode <> "" ->
        isAdminVerified (this w') = true
        /\ dialogs w' = dialogs w ++ [Alert "Admin access granted"]
        /\ document w' = granted_border (document w))
  /\ (forall c0 w0, fst (verifyAdminCode_try c0 w0) = Normal tt)
  /\ console w' = console w
  /\ ~ In (Alert "Invalid admin code")
          (skipn (List.length (dialogs w)) (dialogs w')).
Proof.
  intros w'. subst w'. unfold step, exec, handle, verifyAdminCode, try_catch.
  repeat split.
  - intros ->. reflexivity.
  - destruct adminCode; [congruence|]. simpl.
    now rewrite verifyAdminCode_try_run.
  - destruct adminCode; [congruence|]. simpl.
    now rewrite verifyAdminCode_try_run.
  - destruct adminCode; [congruence|]. simpl.
    now rewrite verifyAdminCode_try_run.
  - intros c0 w0. now rewrite verifyAdminCode_try_run.
  - destruct adminCode; simpl; [reflexivity|].
    now rewrite verifyAdminCode_try_run.
  - destruct adminCode; simpl; [|rewrite verifyAdminCode_try_run; simpl];
      rewrite skipn_app, skipn_all, Nat.sub_diag; simpl;
      intros [H|[]]; discriminate H.
Qed.

Lemma verifyAdminCode_always_grants_example :
  "dyht" <> ""
  /\ isAdminVerified
       (this (step (Sample.clock 2) (VerifyAdminCode "dyht") Sample.ready))
     = true.
Proof.
  assert (H : "dyht" <> "") by discriminate.
  split; [exact H|].
  exact (proj1 (proj1 (proj2 (verifyAdminCode_always_grants Sample.ready
                                (Sample.clock 2) "dyht")) H)).
Defined.

(** ** Kill switch *)

Lemma emergencyKillSwitch_declined (c : Clock) (w : World) :
  step c (EmergencyKillSwitch false) w
  = with_dialogs (fun l => l ++ [Confirm kill_prompt false]) w.
Proof. reflexivity. Qed.

Lemma emergencyKillSwitch_confirmed (c : Clock) (w : World) :
  step c (EmergencyKillSwitch true) w
  = with_call kill_call AfterEmergencyKillSwitch
      (with_dialogs (fun l => l ++ [Confirm kill_prompt true]) w).
Proof. reflexivity. Qed.

(** C10: when the user confirms the kill switch and the
    [emergency_kill_switch] call is rejected, the controller object and
    the page are as they were before the click: no chat message is
    appended and no control is disabled. The failure is only logged. *)
Theorem emergencyKillSwitch_failure_changes_nothing (w : World)
    (c1 c2 : Clock) (reason : string) :
  let w1 := step c1 (EmergencyKillSwitch true) w in
  let w2 := step c2 (Settle (List.length (pending w)) (Rejected reason)) w1 in
  invoked w1 = invoked w ++ [kill_call]
  /\ pending w1 = pending w ++ [mkPending kill_call AfterEmergencyKillSwitch]
  /\ this w2 = this w
  /\ document w2 = document w
  /\ pending w2 = pending w
  /\ console w2
     = console w
       ++ [ConsoleError "Emergency shutdown error:" (BackendError reason)].
Proof.
  intros w1 w2. subst w1 w2. rewrite emergencyKillSwitch_confirmed.
  match goal with
  | |- context [step c2 (Settle ?n ?r) (with_call ?call ?k ?w0)] =>
      change n with (List.length (pending w0));
      rewrite (step_settle_last c2 r w0 call k)
  end.
  repeat split.
Qed.

Lemma emergencyKillSwitch_resolved (c : Clock) (result : string) (w : World) :
  exec (resume AfterEmergencyKillSwitch (Resolved result)) c w
  = with_document Dom.disable_buttons
      (with_document (shown assistant kill_message)
         (with_this (said assistant kill_message c) w)).
Proof.
  unfold exec, resume, emergencyKillSwitch_resume, try_catch, bind, settled,
    ret.
  rewrite addChatMessage_run. reflexivity.
Qed.

Lemma shown_spares (j : string) (r : Role) (text : string) (d : Dom.Node) :
  j <> "" ->
  Dom.getElementById j (shown r text d) = Dom.getElementById j d.
Proof.
  intros Hj. unfold shown.
  destruct (Dom.getElementById "chat-messages" d); [|reflexivity].
  apply getElementById_appendChild.
  assert (He : Dom.has_id j
                 (Dom.createElement "div" ""
                    ("chat-message " ++ Role_to_string r)) = false).
  { unfold Dom.has_id. simpl. destruct j; [congruence | reflexivity]. }
  cbn [Dom.elements filter]. rewrite He. destruct text; reflexivity.
Qed.

(** C1, amended: when the user declines the prompt, only the answer
    is recorded: no backend call is issued and the page is unchanged.
    When the user confirms, exactly one [emergency_kill_switch] call is
    issued, and the controller and the page stay as they are until it
    settles. When it resolves, one confirmation message is appended to
    the transcript, every button other than the kill switch is
    disabled, and the kill switch keeps its state. *)
Theorem emergencyKillSwitch_effect (w : World) (c1 c2 : Clock)
    (result : string) :
  step c1 (EmergencyKillSwitch false) w
  = with_dialogs (fun l => l ++ [Confirm kill_prompt false]) w
  /\ let w1 := step c1 (EmergencyKillSwitch true) w in
     invoked w1 = invoked w ++ [kill_call]
     /\ pending w1 = pending w ++ [mkPending kill_call AfterEmergencyKillSwitch]
     /\ this w1 = this w
     /\ document w1 = document w
     /\ let w2 :=
          step c2 (Settle (List.length (pending w)) (Resolved result)) w1 in
        invoked w2 = invoked w ++ [kill_call]
        /\ chatHistory (this w2)
           = chatHistory (this w)
             ++ [mkChatMessage assistant kill_message (isoString c2)]
        /\ Forall (fun a => Dom.button_not_kill_switch a = true ->
                            Dom.disabled a = true)
                  (Dom.elements (document w2))
        /\ Dom.disabled_of "kill-switch" (document w2)
           = Dom.disabled_of "kill-switch" (document w).
Proof.
  split; [reflexivity|]. intros w1. subst w1.
  rewrite emergencyKillSwitch_confirmed.
  repeat (split; [reflexivity|]). intros w2. subst w2.
  match goal with
  | |- context [step c2 (Settle ?n ?r) (with_call ?call ?k ?w0)] =>
      change n with (List.length (pending w0));
      rewrite (step_settle_last c2 r w0 call k)
  end.
  rewrite emergencyKillSwitch_resolved. simpl.
  repeat (split; [reflexivity|]). split.
  - apply disable_buttons_disables.
  - unfold Dom.disabled_of.
    rewrite disable_buttons_spares_kill_switch, shown_spares; congruence.
Qed.

Lemma emergencyKillSwitch_effect_example :
  let w2 := step (Sample.clock 3) (Settle 0 (Resolved "ok"))
              (step (Sample.clock 2) (EmergencyKillSwitch true)
                 Sample.ready) in
  Forall (fun a => Dom.button_not_kill_switch a = true ->
                   Dom.disabled a = true)
         (Dom.elements (document w2))
  /\ Dom.disabled_of "kill-switch" (document w2) = Some false.
Proof.
  intros w2.
  exact (proj2 (proj2 (proj2 (proj2 (proj2 (proj2 (proj2
           (emergencyKillSwitch_effect Sample.ready (Sample.clock 2)
              (Sample.clock 3) "ok")))))))).
Defined.

(** C1 as stated does not hold: after a confirmed kill switch whose
    call is rejected, the one call has been issued, but the transcript
    has no new message and the buttons are still enabled. *)
Lemma emergencyKillSwitch_rejected_counterexample :
  let w2 := run [(Sample.clock 2, EmergencyKillSwitch true);
                 (Sample.clock 3, Settle 0 (Rejected "unreachable"))]
                Sample.ready in
  invoked w2 = invoked Sample.ready ++ [kill_call]
  /\ chatHistory (this w2) = chatHistory (this Sample.ready)
  /\ Dom.disabled_of "send-btn" (document w2) = Some false
  /\ Dom.disabled_of "record-btn" (document w2) = Some false.
Proof. vm_compute. repeat split. Qed.

(** When the call resolves, the buttons are disabled; the text field
    and the selectors are not buttons and stay enabled. *)
Lemma emergencyKillSwitch_spares_inputs :
  let w2 := run [(Sample.clock 2, EmergencyKillSwitch true);
                 (Sample.clock 3, Settle 0 (Resolved "ok"))]
                Sample.ready in
  Dom.disabled_of "send-btn" (document w2) = Some true
  /\ Dom.disabled_of "chat-input" (document w2) = Some false
  /\ Dom.disabled_of "model-select" (document w2) = Some false.
Proof. vm_compute. repeat split. Qed.

(** ** Failures of backend calls *)

(** C2, amended: a backend call that is rejected is caught and logged
    as a console error under the label of its method. A fallback
    message is appended to the transcript for [init_agent] and
    [chat_with_agent]; for [process_audio] and [emergency_kill_switch]
    the transcript stays as it is. *)
Theorem backend_failure_is_logged (w : World) (c : Clock) (n : nat)
    (p : Pending) (reason : string) :
  nth_error (pending w) n = Some p ->
  let w' := step c (Settle n (Rejected reason)) w in
  console w'
  = console w ++ [ConsoleError (error_label (cont p)) (BackendError reason)]
  /\ chatHistory (this w')
     = chatHistory (this w) ++ fallback_entries (cont p) c.
Proof.
  intros Hp w'. subst w'. rewrite (step_settle c n _ w p Hp).
  unfold exec, resume, init_resume, loadInitialData_resume,
    loadInitialData_catch, sendMessage_resume, sendMessage_catch,
    stopRecording_resume, stopRecording_catch, emergencyKillSwitch_resume,
    emergencyKillSwitch_catch, try_catch, bind, settled, throw, console_error,
    modify.
  destruct (cont p); simpl; rewrite ?addChatMessage_run; simpl.
  - unfold setupWaveformCanvases, startLiveWaveform, bind,
      document_getElementById, gets, set_canvases, update_app, modify. simpl.
    destruct (Dom.getElementById "live-waveform" _); simpl; auto.
  - auto.
  - now rewrite app_nil_r.
  - now rewrite app_nil_r.
Qed.

Lemma backend_failure_is_logged_example :
  let w := step (Sample.clock 2) StopRecording Sample.ready in
  let p := mkPending process_audio_call AfterProcessAudio in
  nth_error (pending w) 0 = Some p
  /\ console (step (Sample.clock 3) (Settle 0 (Rejected "unreachable")) w)
     = console w
       ++ [ConsoleError "Stop recording error:" (BackendError "unreachable")]
  /\ chatHistory
       (this (step (Sample.clock 3) (Settle 0 (Rejected "unreachable")) w))
     = chatHistory (this w) ++ [].
Proof.
  intros w p. split; [reflexivity|].
  exact (backend_failure_is_logged w (Sample.clock 3) 0 p "unreachable"
           eq_refl).
Defined.

(** C2 as stated does not hold: a rejected [process_audio] call is
    logged, and no message is appended to the transcript. *)
Lemma process_audio_failure_counterexample :
  let w1 := run [(Sample.clock 2, ToggleRecording);
                 (Sample.clock 3, StopRecording)] Sample.ready in
  let w2 := step (Sample.clock 4) (Settle 0 (Rejected "unreachable")) w1 in
  map command (invoked w2) = ["init_agent"; "process_audio"]
  /\ pending w2 = []
  /\ console w2
     = console w1
       ++ [ConsoleError "Stop recording error:" (BackendError "unreachable")]
  /\ chatHistory (this w2) = chatHistory (this w1).
Proof. vm_compute. repeat split. Qed.

(** ** Starting and stopping a recording *)

Lemma has_recording_controls_dec (d : Dom.Node) :
  has_recording_controls d \/ ~ has_recording_controls d.
Proof.
  unfold has_recording_controls.
  destruct (Dom.getElementById "record-btn" d);
    destruct (Dom.getElementById "stop-btn" d);
    destruct (Dom.getElementById "recording-status" d);
    try (right; intros (H1 & H2 & H3); congruence).
  left. repeat split; discriminate.
Qed.

Lemma startRecording_run (c : Clock) (w : World) :
  has_recording_controls (document w) ->
  startRecording c w
  = (Normal tt,
     with_console (fun l => l ++ [ConsoleLog "Recording started (placeholder)"])
       (with_document (recording_page true "Recording..." "#ff3333")
          (with_this (flagged true) w))).
Proof.
  intros (Hr & Hs & Ht).
  unfold startRecording, try_catch, bind, set_isRecording, update_app, modify,
    document_getElementById, gets. simpl.
  destruct (Dom.getElementById "record-btn" (document w)); [|congruence].
  destruct (Dom.getElementById "stop-btn" (document w)); [|congruence].
  destruct (Dom.getElementById "recording-status" (document w)); [|congruence].
  reflexivity.
Qed.

Lemma startRecording_fails (c : Clock) (w : World) :
  ~ has_recording_controls (document w) ->
  isRecording (this (snd (startRecording c w))) = false.
Proof.
  intros Hn.
  unfold startRecording, try_catch, bind, set_isRecording, update_app, modify,
    document_getElementById, gets. simpl.
  destruct (Dom.getElementById "record-btn" (document w)) eqn:Hr;
    destruct (Dom.getElementById "stop-btn" (document w)) eqn:Hs;
    destruct (Dom.getElementById "recording-status" (document w)) eqn:Ht;
    try reflexivity.
  exfalso. apply Hn. unfold has_recording_controls.
  rewrite Hr, Hs, Ht. repeat split; discriminate.
Qed.

Lemma startRecording_pending (c : Clock) (w : World) :
  pending (snd (startRecording c w)) = pending w.
Proof.
  unfold startRecording, try_catch, bind, set_isRecording, update_app, modify,
    document_getElementById, gets. simpl.
  destruct (Dom.getElementById "record-btn" (document w));
    destruct (Dom.getElementById "stop-btn" (document w));
    destruct (Dom.getElementById "recording-status" (document w));
    reflexivity.
Qed.

Lemma stopRecording_run (c : Clock) (w : World) :
  has_recording_controls (document w) ->
  stopRecording c w
  = (Normal tt,
     with_call process_audio_call AfterProcessAudio
       (with_document (recording_page false "Processing..." "#ff6b35")
          (with_this (flagged false) w))).
Proof.
  intros (Hr & Hs & Ht).
  unfold stopRecording, try_catch, bind, set_isRecording, update_app, modify,
    document_getElementById, gets. simpl.
  destruct (Dom.getElementById "record-btn" (document w)); [|congruence].
  destruct (Dom.getElementById "stop-btn" (document w)); [|congruence].
  destruct (Dom.getElementById "recording-status" (document w)); [|congruence].
  reflexivity.
Qed.

Lemma stopRecording_flag (c : Clock) (w : World) :
  isRecording (this (snd (stopRecording c w))) = false.
Proof.
  unfold stopRecording, try_catch, bind, set_isRecording, update_app, modify,
    document_getElementById, gets. simpl.
  destruct (Dom.getElementById "record-btn" (document w));
    destruct (Dom.getElementById "stop-btn" (document w));
    destruct (Dom.getElementById "recording-status" (document w));
    reflexivity.
Qed.

Lemma stopRecording_pending (c : Clock) (w : World) :
  exists added,
    pending (snd (stopRecording c w)) = pending w ++ added
    /\ forallb (fun p => match cont p with
                         | AfterProcessAudio => true
                         | _ => false
                         end) added = true.
Proof.
  unfold stopRecording, try_catch, bind, set_isRecording, update_app, modify,
    document_getElementById, gets. simpl.
  destruct (Dom.getElementById "record-btn" (document w));
    destruct (Dom.getElementById "stop-btn" (document w));
    destruct (Dom.getElementById "recording-status" (document w)); simpl;
    try (exists []; now rewrite app_nil_r).
  eexists [_]. split; reflexivity.
Qed.

Lemma recording_page_controls (b : bool) (text colour : string)
    (d : Dom.Node) :
  Dom.stable d = true ->
  Dom.stable (recording_page b text colour d) = true
  /\ Dom.controls (recording_page b text colour d)
     = Dom.set_first "stop-btn" (negb b)
         (Dom.set_first "record-btn" b (Dom.controls d)).
Proof.
  intros Hs. unfold recording_page.
  pose proof (stable_set_disabled "record-btn" b d Hs) as H1.
  pose proof (stable_set_disabled "stop-btn" (negb b) _ H1) as H2.
  assert (H3 : Dom.stable
                 (Dom.set_textContent "recording-status" text
                    (Dom.set_disabled "stop-btn" (negb b)
                       (Dom.set_disabled "record-btn" b d))) = true).
  { apply stable_replace; auto using text_children_untracked. }
  split.
  - now apply stable_set_style.
  - rewrite controls_set_style by assumption.
    unfold Dom.set_textContent.
    rewrite controls_replace by auto using text_children_untracked.
    now rewrite !controls_set_disabled.
Qed.

Lemma has_recording_controls_present (d : Dom.Node) :
  has_recording_controls d <->
  In "record-btn" (map fst (Dom.controls d))
  /\ In "stop-btn" (map fst (Dom.controls d))
  /\ In "recording-status" (map fst (Dom.controls d)).
Proof.
  unfold has_recording_controls.
  now rewrite !present_controls.
Qed.

Lemma recording_page_disabled (b : bool) (text colour : string)
    (d : Dom.Node) :
  Dom.stable d = true -> has_recording_controls d ->
  Dom.disabled_of "record-btn" (recording_page b text colour d) = Some b
  /\ Dom.disabled_of "stop-btn" (recording_page b text colour d)
     = Some (negb b).
Proof.
  intros Hs Hc. apply has_recording_controls_present in Hc as (Hr & Hp & _).
  destruct (recording_page_controls b text colour d Hs) as [_ Hctl].
  rewrite !disabled_of_controls, Hctl by reflexivity. split.
  - rewrite assoc_set_first_other by discriminate.
    now apply assoc_set_first_same.
  - apply assoc_set_first_same. now rewrite ids_set_first.
Qed.

Lemma recording_page_keeps_controls (b : bool) (text colour : string)
    (d : Dom.Node) (i : string) :
  Dom.stable d = true -> Dom.tracked_id i = true ->
  Dom.getElementById i d <> None ->
  Dom.getElementById i (recording_page b text colour d) <> None.
Proof.
  intros Hs Hi. rewrite !present_controls by assumption.
  destruct (recording_page_controls b text colour d Hs) as [_ ->].
  now rewrite !ids_set_first.
Qed.

Lemma shown_controls (r : Role) (text : string) (d : Dom.Node) :
  Dom.stable d = true ->
  Dom.stable (shown r text d) = true
  /\ Dom.controls (shown r text d) = Dom.controls d.
Proof.
  intros Hs. unfold shown.
  destruct (Dom.getElementById "chat-messages" d); [|auto].
  assert (Hu : Dom.untracked
                 (Dom.Element
                    (Dom.createElement "div" ""
                       ("chat-message " ++ Role_to_string r))
                    (Dom.text_children text)) = true).
  { simpl. apply text_children_untracked. }
  split; [now apply stable_appendChild | now apply controls_appendChild].
Qed.

Lemma ready_page_controls (text : string) (d : Dom.Node) :
  Dom.stable d = true ->
  Dom.stable (ready_page text d) = true
  /\ Dom.controls (ready_page text d) = Dom.controls d.
Proof.
  intros Hs. unfold ready_page.
  assert (H1 : Dom.stable (Dom.set_textContent "recording-status" "Ready" d)
               = true).
  { apply stable_replace; auto. }
  pose proof (stable_set_style "recording-status" "color" "#cccccc" _ H1)
    as H2.
  destruct (shown_controls assistant ("Audio processed: " ++ text) _ H2)
    as [H3 C3].
  split; [exact H3|]. rewrite C3, controls_set_style by assumption.
  unfold Dom.set_textContent. apply controls_replace; auto.
Qed.

Lemma updateAudioClipsList_run (c : Clock) (w : World) :
  Dom.getElementById "clips-list" (document w) <> None ->
  updateAudioClipsList c w
  = (Normal tt,
     with_this
       (fun a =>
          mkDyhtApp (isRecording a) (audioContext a) (liveWaveformCanvas a)
            (playbackWaveformCanvas a) (chatHistory a)
            (audioClips a ++ [placeholder_clip c]) (isAdminVerified a))
       (with_document
          (Dom.set_innerHTML "clips-list"
             (clip_item_markup (localeTimeString c))) w)).
Proof.
  intros Hc. unfold updateAudioClipsList, bind, document_getElementById, gets.
  destruct (Dom.getElementById "clips-list" (document w)); [|congruence].
  reflexivity.
Qed.

Lemma stopRecording_resolved (c : Clock) (text : string) (w : World) :
  Dom.stable (document w) = true ->
  Dom.getElementById "clips-list" (document w) <> None ->
  exec (resume AfterProcessAudio (Resolved text)) c w
  = with_this
      (fun a =>
         mkDyhtApp (isRecording a) (audioContext a) (liveWaveformCanvas a)
           (playbackWaveformCanvas a) (chatHistory a)
           (audioClips a ++ [placeholder_clip c]) (isAdminVerified a))
      (with_document
         (Dom.set_innerHTML "clips-list"
            (clip_item_markup (localeTimeString c)))
         (with_document (ready_page text)
            (with_this (said assistant ("Audio processed: " ++ text) c) w))).
Proof.
  intros Hs Hc.
  assert (Hc' : Dom.getElementById "clips-list"
                  (ready_page text (document w)) <> None).
  { rewrite present_controls in * by reflexivity.
    now rewrite (proj2 (ready_page_controls text _ Hs)). }
  unfold exec, resume, stopRecording_resume, try_catch, bind,
    settled, ret, set_textContent, set_style, modify.
  cbv beta iota. rewrite addChatMessage_run. cbv beta iota.
  rewrite updateAudioClipsList_run; [reflexivity | exact Hc'].
Qed.

(** C3, amended: on a stable page that has the record, stop, status
    and clip-list elements, starting a recording sets the recording
    flag, disables the record control and enables the stop control.
    Stopping clears the flag, reverses the two controls at once and
    issues one [process_audio] call, the clip list and the transcript
    still as they were. When that call resolves with a transcription,
    exactly one clip is appended to the clip list and one assistant
    message with the transcription to the transcript, the two controls
    as the stop left them. When the call is rejected, the clip list,
    the transcript and the page stay as the stop left them. *)
Theorem recording_controls_and_clip (w : World) (c1 c2 c3 : Clock)
    (text reason : string) :
  Dom.stable (document w) = true ->
  has_recording_controls (document w) ->
  Dom.getElementById "clips-list" (document w) <> None ->
  isRecording (this w) = false ->
  let w1 := step c1 ToggleRecording w in
  let w2 := step c2 StopRecording w1 in
  let w3 := step c3 (Settle (List.length (pending w)) (Resolved text)) w2 in
  let w3' :=
    step c3 (Settle (List.length (pending w)) (Rejected reason)) w2 in
  (isRecording (this w1) = true
   /\ Dom.disabled_of "record-btn" (document w1) = Some true
   /\ Dom.disabled_of "stop-btn" (document w1) = Some false)
  /\ (isRecording (this w2) = false
      /\ Dom.disabled_of "record-btn" (document w2) = Some false
      /\ Dom.disabled_of "stop-btn" (document w2) = Some true
      /\ invoked w2 = invoked w ++ [process_audio_call]
      /\ pending w2
         = pending w ++ [mkPending process_audio_call AfterProcessAudio]
      /\ audioClips (this w2) = audioClips (this w)
      /\ chatHistory (this w2) = chatHistory (this w))
  /\ (audioClips (this w3) = audioClips (this w) ++ [placeholder_clip c3]
      /\ chatHistory (this w3)
         = chatHistory (this w)
           ++ [mkChatMessage assistant ("Audio processed: " ++ text)
                 (isoString c3)]
      /\ Dom.disabled_of "record-btn" (document w3) = Some false
      /\ Dom.disabled_of "stop-btn" (document w3) = Some true)
  /\ (audioClips (this w3') = audioClips (this w)
      /\ chatHistory (this w3') = chatHistory (this w)
      /\ document w3' = document w2).
Proof.
  intros Hs Hc Hl Hrec w1 w2 w3 w3'.
  set (d1 := recording_page true "Recording..." "#ff3333" (document w)).
  assert (E1 : w1 = with_console
                      (fun l => l ++ [ConsoleLog "Recording started (placeholder)"])
                      (with_document (fun _ => d1) (with_this (flagged true) w))).
  { subst w1. unfold step, exec, handle, toggleRecording, bind, gets.
    rewrite Hrec. simpl. now rewrite startRecording_run. }
  destruct (recording_page_controls true "Recording..." "#ff3333" _ Hs)
    as [Hs1 _]. fold d1 in Hs1.
  assert (Hc1 : has_recording_controls d1).
  { destruct Hc as (H1 & H2 & H3).
    repeat split; apply recording_page_keeps_controls; auto. }
  set (d2 := recording_page false "Processing..." "#ff6b35" d1).
  assert (E2 : w2 = with_call process_audio_call AfterProcessAudio
                      (with_document (fun _ => d2)
                         (with_this (flagged false) w1))).
  { subst w2. unfold step, exec, handle.
    rewrite stopRecording_run by (rewrite E1; exact Hc1).
    rewrite E1. reflexivity. }
  destruct (recording_page_controls false "Processing..." "#ff6b35" _ Hs1)
    as [Hs2 _]. fold d2 in Hs2.
  assert (Hl2 : Dom.getElementById "clips-list" d2 <> None).
  { repeat apply recording_page_keeps_controls; auto. }
  destruct (recording_page_disabled true "Recording..." "#ff3333" _ Hs Hc)
    as [R1 S1]. fold d1 in R1, S1. simpl negb in S1.
  destruct (recording_page_disabled false "Processing..." "#ff6b35" _ Hs1 Hc1)
    as [R2 S2]. fold d2 in R2, S2. simpl negb in S2.
  assert (En : List.length (pending w)
               = List.length
                   (pending (with_document (fun _ => d2)
                               (with_this (flagged false) w1))))
    by (rewrite E1; reflexivity).
  split; [|split; [|split]].
  4: { subst w3'. rewrite E2, En, step_settle_last, E1. repeat split. }
  - rewrite E1. simpl. auto.
  - rewrite E2, E1. simpl. repeat split; auto.
  - subst w3. rewrite E2.
    replace (List.length (pending w))
      with (List.length
              (pending (with_document (fun _ => d2)
                          (with_this (flagged false) w1))))
      by (rewrite E1; reflexivity).
    rewrite step_settle_last.
    rewrite stopRecording_resolved by (simpl; assumption).
    rewrite E1. simpl. repeat split.
    + destruct (ready_page_controls text d2 Hs2) as [Hs3 C3].
      rewrite disabled_of_controls by reflexivity.
      unfold Dom.set_innerHTML. rewrite controls_replace, C3; auto.
      now rewrite <- disabled_of_controls.
    + destruct (ready_page_controls text d2 Hs2) as [Hs3 C3].
      rewrite disabled_of_controls by reflexivity.
      unfold Dom.set_innerHTML. rewrite controls_replace, C3; auto.
      now rewrite <- disabled_of_controls.
Qed.

Lemma recording_controls_and_clip_example :
  Dom.stable (document Sample.ready) = true
  /\ has_recording_controls (document Sample.ready)
  /\ Dom.getElementById "clips-list" (document Sample.ready) <> None
  /\ isRecording (this Sample.ready) = false
  /\ audioClips
       (this
          (step (Sample.clock 4) (Settle 0 (Resolved "good morning"))
             (step (Sample.clock 3) StopRecording
                (step (Sample.clock 2) ToggleRecording Sample.ready))))
     = [placeholder_clip (Sample.clock 4)].
Proof.
  assert (Hs : Dom.stable (document Sample.ready) = true) by reflexivity.
  assert (Hc : has_recording_controls (document Sample.ready))
    by (repeat split; vm_compute; discriminate).
  assert (Hl : Dom.getElementById "clips-list" (document Sample.ready)
               <> None) by (vm_compute; discriminate).
  do 4 (split; [assumption || reflexivity|]).
  exact (proj1 (proj1 (proj2 (proj2
           (recording_controls_and_clip Sample.ready (Sample.clock 2)
              (Sample.clock 3) (Sample.clock 4) "good morning" "unreachable"
              Hs Hc Hl eq_refl))))).
Defined.

(** C3 as stated fails when the [process_audio] call is rejected: the
    controls are reversed, but neither a clip nor a message is added. *)
Lemma stopRecording_rejected_counterexample :
  let w1 := step (Sample.clock 2) ToggleRecording Sample.ready in
  let w2 := step (Sample.clock 3) StopRecording w1 in
  let w3 := step (Sample.clock 4) (Settle 0 (Rejected "unreachable")) w2 in
  Dom.disabled_of "record-btn" (document w3) = Some false
  /\ Dom.disabled_of "stop-btn" (document w3) = Some true
  /\ pending w3 = []
  /\ audioClips (this w3) = []
  /\ chatHistory (this w3) = chatHistory (this Sample.ready).
Proof. vm_compute. repeat split. Qed.

(** ** The lifecycle *)

Lemma phase_calm (w w' : World) :
  calm not_process_audio w w' -> phase w' = phase w.
Proof.
  intros [Hr (added & Hp & Ha)]. unfold phase. rewrite Hr, Hp, existsb_app.
  replace (existsb awaits_process_audio added) with false;
    [now rewrite orb_false_r|].
  symmetry. apply not_true_iff_false. intros He.
  apply existsb_exists in He as (p & Hin & Hp').
  rewrite forallb_forall in Ha. specialize (Ha p Hin).
  unfold awaits_process_audio, not_process_audio in *.
  destruct (cont p); discriminate.
Qed.

Lemma calm_console (allowed : Cont -> bool) f (w : World) :
  calm allowed w (with_console f w).
Proof. split; [reflexivity|]. exists []. now rewrite app_nil_r. Qed.

Lemma calm_nothing_added (w w' : World) :
  calm (fun _ => false) w w' ->
  isRecording (this w') = isRecording (this w) /\ pending w' = pending w.
Proof.
  intros [Hr (added & Hp & Ha)]. split; [exact Hr|].
  destruct added; [now rewrite app_nil_r in Hp | discriminate].
Qed.

Lemma existsb_remove_at {A} (f : A -> bool) (n : nat) (l : list A) :
  existsb f (remove_at n l) = true -> existsb f l = true.
Proof.
  unfold remove_at. rewrite existsb_app, orb_true_iff.
  rewrite <- (firstn_skipn n l) at 3. rewrite existsb_app, orb_true_iff.
  intros [H|H]; [left; exact H|]. right.
  destruct (skipn n l) as [|x l'] eqn:Hsk.
  - rewrite skipn_all2 in H; [discriminate|].
    apply (f_equal (@List.length A)) in Hsk. rewrite length_skipn in Hsk.
    simpl in Hsk. lia.
  - replace (skipn (S n) l) with l' in H.
    + simpl. now rewrite H, orb_true_r.
    + change (S n) with (1 + n)%nat. rewrite <- skipn_skipn, Hsk.
      reflexivity.
Qed.

Lemma step_toggle_idle (c : Clock) (w : World) :
  has_recording_controls (document w) -> isRecording (this w) = false ->
  isRecording (this (step c ToggleRecording w)) = true
  /\ pending (step c ToggleRecording w) = pending w.
Proof.
  intros Hc Hr. unfold step, exec, handle, toggleRecording, bind, gets.
  rewrite Hr. simpl. rewrite startRecording_run by assumption. auto.
Qed.

Lemma step_stop (c : Clock) (w : World) :
  has_recording_controls (document w) ->
  isRecording (this (step c StopRecording w)) = false
  /\ pending (step c StopRecording w)
     = pending w ++ [mkPending process_audio_call AfterProcessAudio].
Proof.
  intros Hc. unfold step, exec, handle.
  rewrite stopRecording_run by assumption. auto.
Qed.

Lemma step_toggle_recording (c : Clock) (w : World) :
  isRecording (this w) = true ->
  step c ToggleRecording w = step c StopRecording w.
Proof.
  intros Hr. unfold step, exec, handle, toggleRecording, bind, gets.
  now rewrite Hr.
Qed.

Lemma phase_processing (w : World) (p : Pending) (l : list Pending) :
  isRecording (this w) = false -> pending w = l ++ [p] ->
  awaits_process_audio p = true -> phase w = Processing.
Proof.
  intros Hr Hp Ha. unfold phase. rewrite Hr, Hp, existsb_app. simpl.
  now rewrite Ha, orb_true_r.
Qed.

Lemma phase_recording (w : World) :
  isRecording (this w) = true -> phase w = Recording.
Proof. intros Hr. unfold phase. now rewrite Hr. Qed.

Lemma step_settle_calm (c : Clock) (n : nat) (r : Settlement) (w : World)
    (p : Pending) :
  nth_error (pending w) n = Some p ->
  isRecording (this (step c (Settle n r) w)) = isRecording (this w)
  /\ pending (step c (Settle n r) w) = remove_at n (pending w).
Proof.
  intros Hp. rewrite (step_settle c n r w p Hp).
  apply (calm_nothing_added (with_pending (remove_at n (pending w)) w)).
  apply (preserves_exec (calm (fun _ => false))).
  - intros f w0. apply calm_console.
  - apply calm_resume.
Qed.

Lemma remove_at_middle {A} (l1 l2 : list A) (p : A) :
  remove_at (List.length l1) (l1 ++ p :: l2) = l1 ++ l2.
Proof.
  unfold remove_at. f_equal.
  - now rewrite firstn_app, Nat.sub_diag, firstn_all, app_nil_r.
  - induction l1 as [|x l1 IH]; [reflexivity | exact IH].
Qed.

Lemma only_call_settled {A} (f : A -> bool) (n : nat) (l : list A) (p : A) :
  existsb f l = true -> nth_error l n = Some p ->
  existsb f (remove_at n l) = false -> f p = true.
Proof.
  intros Hl Hp Hr. apply nth_error_split in Hp as (l1 & l2 & -> & <-).
  rewrite remove_at_middle in Hr.
  rewrite existsb_app in Hl, Hr. simpl in Hl.
  apply orb_false_iff in Hr as [H1 H2]. rewrite H1, H2 in Hl.
  simpl in Hl. now rewrite orb_false_r in Hl.
Qed.

(** What the continuation of [stopRecording] leaves in the transcript
    and in the console, whatever the page. *)
Lemma process_audio_settled (c : Clock) (r : Settlement) (w : World) :
  let w' := exec (resume AfterProcessAudio r) c w in
  chatHistory (this w')
  = chatHistory (this w) ++ fst (process_audio_entries r c)
  /\ console w' = console w ++ snd (process_audio_entries r c)
  /\ invoked w' = invoked w.
Proof.
  destruct r as [text | reason].
  - unfold exec, resume, stopRecording_resume, try_catch, bind, settled, ret,
      set_textContent, set_style, modify.
    cbv beta iota. rewrite addChatMessage_run. cbv beta iota.
    unfold updateAudioClipsList, bind, document_getElementById, gets.
    cbv beta iota.
    match goal with
    | |- context [Dom.getElementById "clips-list" ?d] =>
        destruct (Dom.getElementById "clips-list" d)
    end; simpl; rewrite app_nil_r; auto.
  - simpl. rewrite app_nil_r. auto.
Qed.

(** C4, amended: in a world whose page has the record button, the stop
    button and the status line, a press on record while [Idle] gives
    [Recording] and issues no call; a stop while [Recording], by either
    control, gives [Processing] and issues one [process_audio] call; the
    settlement of the only [process_audio] call in flight while
    [Processing] gives [Idle] whether the call resolves, which appends
    the transcription to the transcript, or is rejected, which logs the
    error and nothing more. Every event keeps the phase or makes one of
    these transitions or one of two more: [Processing] to [Recording],
    by a press on record while the call is in flight, and [Idle] to
    [Processing], by a press on stop while idle; and only the
    settlement of the only [process_audio] call in flight leaves
    [Processing] for [Idle]. *)
Theorem recording_lifecycle (w : World) (c : Clock) :
  has_recording_controls (document w) ->
  (phase w = Idle ->
   phase (step c ToggleRecording w) = Recording
   /\ invoked (step c ToggleRecording w) = invoked w)
  /\ (phase w = Recording ->
      (phase (step c ToggleRecording w) = Processing
       /\ invoked (step c ToggleRecording w)
          = invoked w ++ [process_audio_call])
      /\ (phase (step c StopRecording w) = Processing
          /\ invoked (step c StopRecording w)
             = invoked w ++ [process_audio_call]))
  /\ (forall n r p,
        phase w = Processing ->
        nth_error (pending w) n = Some p ->
        existsb awaits_process_audio (remove_at n (pending w)) = false ->
        let w' := step c (Settle n r) w in
        phase w' = Idle
        /\ chatHistory (this w')
           = chatHistory (this w) ++ fst (process_audio_entries r c)
        /\ console w' = console w ++ snd (process_audio_entries r c)
        /\ invoked w' = invoked w)
  /\ (forall e,
        phase (step c e w) = phase w
        \/ coded_transition (pending w) e (phase w) (phase (step c e w))).
Proof.
  intros Hc.
  assert (Hstop : phase (step c StopRecording w) = Processing).
  { destruct (step_stop c w Hc) as [Hr Hp].
    now apply (phase_processing _ _ _ Hr Hp). }
  assert (Hcall : invoked (step c StopRecording w)
                  = invoked w ++ [process_audio_call]).
  { unfold step, exec, handle. now rewrite stopRecording_run. }
  assert (Hstart : isRecording (this w) = false ->
                   phase (step c ToggleRecording w) = Recording).
  { intros Hr. apply phase_recording. now apply step_toggle_idle. }
  assert (Hflag : forall q, phase w = q -> q <> Recording ->
                            isRecording (this w) = false).
  { intros q Hq Hn. unfold phase in Hq.
    destruct (isRecording (this w)); [congruence | reflexivity]. }
  assert (Hrec : phase w = Recording -> isRecording (this w) = true).
  { unfold phase. destruct (isRecording (this w)); [reflexivity|].
    destruct (existsb _ _); discriminate. }
  split; [|split; [|split]].
  - intros Hi. pose proof (Hflag Idle Hi ltac:(discriminate)) as Hr.
    split; [now apply Hstart|].
    unfold step, exec, handle, toggleRecording, bind, gets.
    rewrite Hr. simpl. now rewrite startRecording_run.
  - intros Hp. apply Hrec in Hp.
    rewrite step_toggle_recording by assumption. auto.
  - intros n r p Hph Hp Hrest w'.
    pose proof (Hflag Processing Hph ltac:(discriminate)) as Hr.
    assert (Hk : cont p = AfterProcessAudio).
    { assert (Ha : awaits_process_audio p = true).
      { apply (only_call_settled _ n (pending w)); try assumption.
        unfold phase in Hph. rewrite Hr in Hph.
        destruct (existsb _ _); [reflexivity | discriminate]. }
      unfold awaits_process_audio in Ha.
      destruct (cont p); (reflexivity || discriminate). }
    split.
    + destruct (step_settle_calm c n r w p Hp) as [Hr' Hq].
      unfold phase. subst w'. now rewrite Hr', Hq, Hrest, Hr.
    + subst w'. rewrite (step_settle c n r w p Hp), Hk.
      apply (process_audio_settled c r
               (with_pending (remove_at n (pending w)) w)).
  - intros e. destruct (bystander e) eqn:Hb.
    + left. apply phase_calm.
      apply (preserves_exec (calm not_process_audio)).
      * intros f w0. apply calm_console.
      * apply calm_handle; auto.
    + destruct e; try discriminate Hb.
      * (* toggle *)
        destruct (isRecording (this w)) eqn:Hr.
        -- rewrite step_toggle_recording, Hstop by assumption.
           rewrite (phase_recording w Hr). right. constructor.
        -- rewrite (Hstart eq_refl). right. unfold phase. rewrite Hr.
           destruct (existsb _ _); constructor.
      * (* stop *)
        rewrite Hstop. destruct (phase w);
          [right; constructor | right; constructor | now left].
      * (* settle *)
        destruct (nth_error (pending w) n) as [p|] eqn:Hp.
        -- destruct (step_settle_calm c n r w p Hp) as [Hr Hq].
           unfold phase. rewrite Hr, Hq.
           destruct (isRecording (this w)); [now left|].
           destruct (existsb awaits_process_audio (remove_at n (pending w)))
             eqn:He.
           ++ apply existsb_remove_at in He. rewrite He. now left.
           ++ destruct (existsb awaits_process_audio (pending w)) eqn:Hl;
                [|now left].
              right. apply (coded_settle _ n r p Hp); [|exact He].
              now apply (only_call_settled _ n (pending w)).
        -- rewrite step_settle_none by assumption. now left.
Qed.

Lemma recording_lifecycle_example :
  let w := run [(Sample.clock 2, ToggleRecording);
                (Sample.clock 3, StopRecording)] Sample.ready in
  let w' := step (Sample.clock 4) (Settle 0 (Rejected "no backend")) w in
  has_recording_controls (document w)
  /\ phase w = Processing
  /\ phase w' = Idle
  /\ chatHistory (this w') = chatHistory (this w)
  /\ console w'
     = console w
       ++ [ConsoleError "Stop recording error:" (BackendError "no backend")]
  /\ invoked w' = invoked w.
Proof.
  intros w.
  assert (Hc : has_recording_controls (document w))
    by (repeat split; vm_compute; discriminate).
  split; [exact Hc|]. split; [reflexivity|].
  pose proof (proj1 (proj2 (proj2 (recording_lifecycle w (Sample.clock 4) Hc)))
                0%nat (Rejected "no backend")
                (mkPending process_audio_call AfterProcessAudio)
                eq_refl eq_refl eq_refl) as (H1 & H2 & H3 & H4).
  simpl fst in H2. rewrite app_nil_r in H2.
  split; [exact H1|]. split; [exact H2|]. split; [exact H3 | exact H4].
Defined.

(** C4 as stated fails, in two ways, each by clicks on buttons that are
    not disabled. A recording that is started while the [process_audio]
    call is still in flight takes the lifecycle from [Processing] to
    [Recording]: the stop has enabled the record button again. And on a
    page whose markup leaves the stop button enabled, which [init] does
    nothing about, a press on stop while idle takes the lifecycle from
    [Idle] to [Processing]. *)
Lemma unspecified_transitions_counterexample :
  (let w0 := Sample.ready in
   let w1 := step (Sample.clock 2) ToggleRecording w0 in
   let w2 := step (Sample.clock 3) StopRecording w1 in
   Dom.disabled_of "record-btn" (document w0) = Some false
   /\ Dom.disabled_of "stop-btn" (document w1) = Some false
   /\ Dom.disabled_of "record-btn" (document w2) = Some false
   /\ phase w2 = Processing
   /\ phase (step (Sample.clock 4) ToggleRecording w2) = Recording
   /\ ~ specified_transition Processing Recording)
  /\ (let w0 := step (Sample.clock 1) (Settle 0 (Resolved "ok"))
                  (boot Partial.stop_enabled (Some "running")
                     (Sample.clock 0)) in
      has_recording_controls (document w0)
      /\ Dom.disabled_of "stop-btn" (document w0) = Some false
      /\ phase w0 = Idle
      /\ phase (step (Sample.clock 2) StopRecording w0) = Processing
      /\ ~ specified_transition Idle Processing).
Proof.
  split.
  - repeat split; try (vm_compute; reflexivity).
    intros H. inversion H.
  - repeat split; try (vm_compute; reflexivity);
      try (vm_compute; discriminate).
    intros H. inversion H.
Qed.

(** ** The recording flag and the two controls *)

Lemma untouched_console f (w : World) : untouched w (with_console f w).
Proof. now apply untouched_elsewhere. Qed.

Lemma tidy_console f (w : World) : tidy w (with_console f w).
Proof. apply untouched_tidy, untouched_console. Qed.

Lemma untouched_disabled_of (i : string) (w w' : World) :
  Dom.tracked_id i = true -> Dom.stable (document w) = true ->
  untouched w w' ->
  Dom.disabled_of i (document w') = Dom.disabled_of i (document w).
Proof.
  intros Hi Hs Hu. destruct (Hu Hs) as [_ Hc].
  now rewrite !disabled_of_controls, Hc.
Qed.

Lemma step_tidy (c : Clock) (e : Event) (w : World) :
  Dom.stable (document w) = true ->
  Dom.stable (document (step c e w)) = true.
Proof.
  intros Hs. destruct e;
    try (apply (preserves_exec tidy);
         [ intros f w0; apply tidy_console
         | apply tidy_handle; intros; discriminate
         | exact Hs ]).
  destruct (nth_error (pending w) n) as [p|] eqn:Hp.
  - rewrite (step_settle c n r w p Hp).
    apply (preserves_exec tidy (resume (cont p) r)
             (fun f w0 => tidy_console f w0) (tidy_resume _ _) c
             (with_pending (remove_at n (pending w)) w)).
    exact Hs.
  - now rewrite step_settle_none.
Qed.

(** A handler that is neither a recording method nor a settlement. *)
Lemma step_bystander (allowed : Cont -> bool) (c : Clock) (e : Event)
    (w : World) :
  bystander e = true ->
  allowed AfterChatWithAgent = true ->
  (confirms_kill e = true -> allowed AfterEmergencyKillSwitch = true) ->
  calm allowed w (step c e w) /\ untouched w (step c e w).
Proof.
  intros Hb Hchat Hkill. split.
  - apply (preserves_exec (calm allowed)).
    + intros f w0. apply calm_console.
    + now apply calm_handle.
  - apply (preserves_exec untouched).
    + intros f w0. apply untouched_console.
    + now apply untouched_handle.
Qed.

(** The settlement of a call other than the kill switch's. *)
Lemma step_settle_quiet (c : Clock) (n : nat) (r : Settlement) (w : World)
    (p : Pending) :
  nth_error (pending w) n = Some p ->
  cont p <> AfterEmergencyKillSwitch ->
  untouched w (step c (Settle n r) w).
Proof.
  intros Hp Hk. rewrite (step_settle c n r w p Hp).
  apply (preserves_exec untouched (resume (cont p) r)
           (fun f w0 => untouched_console f w0)
           (untouched_resume _ _ Hk) c
           (with_pending (remove_at n (pending w)) w)).
Qed.

Lemma step_settle_kill (c : Clock) (n : nat) (r : Settlement) (w : World)
    (p : Pending) (i : string) :
  nth_error (pending w) n = Some p ->
  cont p = AfterEmergencyKillSwitch ->
  Dom.stable (document w) = true ->
  Dom.tracked_id i = true ->
  Dom.disabled_of i (document w) = Some true ->
  Dom.disabled_of i (document (step c (Settle n r) w)) = Some true.
Proof.
  intros Hp Hk Hs Hi Hd. rewrite (step_settle c n r w p Hp), Hk.
  destruct r as [result | reason].
  - rewrite emergencyKillSwitch_resolved. simpl.
    apply disable_buttons_keeps_disabled.
    destruct (shown_controls assistant kill_message _ Hs) as [_ Hc].
    now rewrite disabled_of_controls, Hc, <- disabled_of_controls.
  - exact Hd.
Qed.

Lemma record_locked_step (c : Clock) (e : Event) (w : World) :
  record_locked w -> record_locked (step c e w).
Proof.
  intros [Hs Hl]. split; [now apply step_tidy|].
  destruct (bystander e) eqn:Hb.
  - destruct (step_bystander (fun _ => true) c e w Hb) as [[Hr _] Hu]; auto.
    rewrite Hr, (untouched_disabled_of "record-btn" _ _ eq_refl Hs Hu). exact Hl.
  - destruct e; try discriminate Hb.
    + (* toggle *)
      destruct (isRecording (this w)) eqn:Hr.
      * rewrite step_toggle_recording by assumption.
        unfold step, exec, handle.
        pose proof (stopRecording_flag c w) as Hf.
        destruct (stopRecording c w) as [[u|err] w']; simpl in *; congruence.
      * unfold step, exec, handle, toggleRecording, bind, gets.
        rewrite Hr. simpl.
        destruct (has_recording_controls_dec (document w)) as [Hc|Hn].
        -- rewrite startRecording_run by assumption. simpl. intros _.
           now apply recording_page_disabled.
        -- pose proof (startRecording_fails c w Hn) as Hf.
           destruct (startRecording c w) as [[u|err] w']; simpl in *;
             congruence.
    + (* stop *)
      unfold step, exec, handle.
      pose proof (stopRecording_flag c w) as Hf.
      destruct (stopRecording c w) as [[u|err] w']; simpl in *; congruence.
    + (* settle *)
      destruct (nth_error (pending w) n) as [p|] eqn:Hp.
      * destruct (step_settle_calm c n r w p Hp) as [Hr _]. rewrite Hr.
        intros Hrec. specialize (Hl Hrec).
        destruct (cont p) eqn:Hk;
          try (rewrite (untouched_disabled_of "record-btn" w _ eq_refl Hs); [exact Hl|];
               apply (step_settle_quiet c n r w p Hp); congruence).
        now apply (step_settle_kill c n r w p).
      * now rewrite step_settle_none.
Qed.

Lemma step_settle_kill_rejected (c : Clock) (n : nat) (reason : string)
    (w : World) (p : Pending) :
  nth_error (pending w) n = Some p ->
  cont p = AfterEmergencyKillSwitch ->
  document (step c (Settle n (Rejected reason)) w) = document w.
Proof.
  intros Hp Hk. rewrite (step_settle c n _ w p Hp), Hk. reflexivity.
Qed.

Lemma stop_offered_step (k : bool) (c : Clock) (e : Event) (w : World) :
  record_locked w -> stop_offered k w ->
  stop_offered (if kill_resolves e w then true
                else if starts e w then false
                else k)
               (step c e w).
Proof.
  intros [Hs _] Ho.
  destruct (kill_resolves e w) eqn:Hkr; [intros _ H; discriminate H|].
  destruct (bystander e) eqn:Hb.
  - replace (starts e w) with false by (now destruct e).
    destruct (step_bystander (fun _ => true) c e w Hb) as [[Hr _] Hu]; auto.
    unfold stop_offered.
    rewrite Hr, (untouched_disabled_of "stop-btn" _ _ eq_refl Hs Hu).
    exact Ho.
  - destruct e; try discriminate Hb.
    + (* toggle *)
      unfold starts. destruct (isRecording (this w)) eqn:Hr; simpl.
      * rewrite step_toggle_recording by assumption.
        unfold step, exec, handle, stop_offered.
        pose proof (stopRecording_flag c w) as Hf.
        destruct (stopRecording c w) as [[u|err] w']; simpl in *; congruence.
      * unfold step, exec, handle, toggleRecording, bind, gets, stop_offered.
        rewrite Hr. simpl.
        destruct (has_recording_controls_dec (document w)) as [Hc|Hn].
        -- rewrite startRecording_run by assumption. simpl. intros _ _.
           now apply recording_page_disabled.
        -- pose proof (startRecording_fails c w Hn) as Hf.
           destruct (startRecording c w) as [[u|err] w']; simpl in *;
             congruence.
    + (* stop *)
      unfold step, exec, handle, stop_offered. simpl.
      pose proof (stopRecording_flag c w) as Hf.
      destruct (stopRecording c w) as [[u|err] w']; simpl in *; congruence.
    + (* settle *)
      simpl starts. cbv iota.
      destruct (nth_error (pending w) n) as [p|] eqn:Hn.
      * destruct (step_settle_calm c n r w p Hn) as [Hr _].
        unfold stop_offered. rewrite Hr. intros Hrec Hk.
        specialize (Ho Hrec Hk).
        destruct (cont p) eqn:Hc;
          try (rewrite (untouched_disabled_of "stop-btn" w _ eq_refl Hs);
               [exact Ho|];
               apply (step_settle_quiet c n r w p Hn); congruence).
        destruct r as [result | reason].
        -- simpl in Hkr. rewrite Hn, Hc in Hkr. discriminate Hkr.
        -- now rewrite (step_settle_kill_rejected c n reason w p Hn Hc).
      * rewrite step_settle_none by assumption. exact Ho.
Qed.

Lemma boot_world (page : Dom.Node) (browser : option string) (c : Clock) :
  isRecording (this (boot page browser c)) = false
  /\ document (boot page browser c) = page
  /\ pending (boot page browser c)
     = [mkPending (mkInvocation "init_agent" NoArgs) AfterInitAgent].
Proof. destruct browser; repeat split. Qed.

Lemma run_record_locked (es : list (Clock * Event)) (w : World) :
  record_locked w -> record_locked (run es w).
Proof.
  revert w. induction es as [|[c e] es IH]; simpl; intros w H; [exact H|].
  apply IH. now apply record_locked_step.
Qed.

Lemma run_stop_offered (es : list (Clock * Event)) (k : bool) (w : World) :
  record_locked w -> stop_offered k w ->
  stop_offered (cut_off k es w) (run es w).
Proof.
  revert k w. induction es as [|[c e] es IH]; simpl; intros k w Hl Ho;
    [exact Ho|].
  apply IH; [now apply record_locked_step | now apply stop_offered_step].
Qed.

(** C5, amended: take a page on which no element with the id of the
    record button, the stop button, the status line or the clip list
    lies inside the status line or inside the clip list. In every world
    that a run of events reaches from the start of the controller on
    such a page, if the recording flag is set then the record control is
    disabled, and the stop control is enabled unless a kill switch call
    has resolved since the press on record that started the
    recording. *)
Theorem recording_locks_record_control (page : Dom.Node)
    (browser : option string) (c0 : Clock) (es : list (Clock * Event)) :
  Dom.stable page = true ->
  let w := run es (boot page browser c0) in
  isRecording (this w) = true ->
  Dom.disabled_of "record-btn" (document w) = Some true
  /\ (cut_off false es (boot page browser c0) = false ->
      Dom.disabled_of "stop-btn" (document w) = Some false).
Proof.
  intros Hs w Hrec.
  destruct (boot_world page browser c0) as (Hr & Hd & Hp).
  assert (Hl : record_locked (boot page browser c0)).
  { split; [now rewrite Hd | congruence]. }
  assert (Ho : stop_offered false (boot page browser c0)).
  { intros H. congruence. }
  split.
  - now apply (run_record_locked es _ Hl).
  - intros Hk. now apply (run_stop_offered es false _ Hl Ho).
Qed.

Lemma recording_locks_record_control_example :
  let es := [(Sample.clock 1, Settle 0 (Resolved "ok"));
             (Sample.clock 2, EmergencyKillSwitch true);
             (Sample.clock 3, Settle 0 (Rejected "no backend"));
             (Sample.clock 4, ToggleRecording);
             (Sample.clock 5, EmergencyKillSwitch true)] in
  let w := run es (boot Sample.page (Some "running") (Sample.clock 0)) in
  Dom.stable Sample.page = true
  /\ isRecording (this w) = true
  /\ cut_off false es (boot Sample.page (Some "running") (Sample.clock 0))
     = false
  /\ Dom.disabled_of "record-btn" (document w) = Some true
  /\ Dom.disabled_of "stop-btn" (document w) = Some false.
Proof.
  intros es w.
  pose proof (recording_locks_record_control Sample.page (Some "running")
                (Sample.clock 0) es eq_refl eq_refl) as [Hr Hs].
  do 3 (split; [reflexivity|]).
  split; [exact Hr | exact (Hs eq_refl)].
Defined.


(** C5 as stated fails: a kill switch that is confirmed, and whose call
    resolves, during a recording disables the stop control while the
    recording flag stays set. *)
Lemma kill_switch_while_recording_counterexample :
  let w := run [(Sample.clock 1, Settle 0 (Resolved "ok"));
                (Sample.clock 2, ToggleRecording);
                (Sample.clock 3, EmergencyKillSwitch true);
                (Sample.clock 4, Settle 0 (Resolved "ok"))]
               (boot Sample.page (Some "running") (Sample.clock 0)) in
  isRecording (this w) = true
  /\ Dom.disabled_of "record-btn" (document w) = Some true
  /\ Dom.disabled_of "stop-btn" (document w) = Some true.
Proof. vm_compute. repeat split. Qed.

(* ================================================================== *)
(** ** Calls in flight and their commands *)

#[local] Instance named_preorder : PreOrder named.
Proof. split; unfold named; [intros w; auto | intros w1 w2 w3; auto]. Qed.

Lemma named_call (call : Invocation) (k : Cont) (w : World) :
  command call = command_of k -> named w (with_call call k w).
Proof.
  intros Hc H. simpl. apply Forall_app. split; [exact H|].
  constructor; [exact Hc | constructor].
Qed.

Lemma named_elsewhere (w w' : World) : pending w' = pending w -> named w w'.
Proof. intros Hp H. now rewrite Hp. Qed.

Lemma Forall_remove_at {A} (P : A -> Prop) (n : nat) (l : list A) :
  Forall P l -> Forall P (remove_at n l).
Proof.
  unfold remove_at. rewrite <- (firstn_skipn n l) at 1.
  rewrite !Forall_app. intros [H1 H2]. split; [exact H1|].
  change (S n) with (1 + n)%nat. rewrite <- skipn_skipn.
  destruct (skipn n l); simpl; [constructor | now inversion H2].
Qed.

Lemma named_handle (e : Event) :
  (forall n r, e <> Settle n r) -> preserves named (handle e).
Proof.
  intros Hn. destruct e; try (now exfalso; eapply Hn); walk_all;
    first [ apply named_elsewhere; reflexivity
          | apply named_call; reflexivity ].
Qed.

Lemma named_resume (k : Cont) (r : Settlement) : preserves named (resume k r).
Proof.
  destruct k, r; walk_all; apply named_elsewhere; reflexivity.
Qed.

(** Every call in flight carries the command of the method that awaits
    it, in every world that a run reaches. *)
Lemma calls_in_flight_well_named (page : Dom.Node) (browser : option string)
    (c0 : Clock) (es : list (Clock * Event)) :
  Forall well_named (pending (run es (boot page browser c0))).
Proof.
  assert (H0 : Forall well_named (pending (boot page browser c0))).
  { destruct (boot_world page browser c0) as (_ & _ & ->).
    repeat constructor. }
  revert H0. generalize (boot page browser c0).
  induction es as [|[c e] es IH]; simpl; intros w Hw; [exact Hw|].
  apply IH. destruct e;
    try (apply (preserves_exec named);
         [ intros f w0; now apply named_elsewhere
         | apply named_handle; intros; discriminate
         | exact Hw ]).
  destruct (nth_error (pending w) n) as [p|] eqn:Hp.
  - rewrite (step_settle c n r w p Hp).
    apply (preserves_exec named (resume (cont p) r)
             (fun f w0 => named_elsewhere w0 _ eq_refl) (named_resume _ _) c
             (with_pending (remove_at n (pending w)) w)).
    simpl. now apply Forall_remove_at.
  - now rewrite step_settle_none.
Qed.

Module RenderFacts.
Import Render.

(** The loop runs its 72 rounds and ends on its own condition. *)
Lemma waveform_loop_unrolled (N : Number) (extra : nat)
    (centerX centerY : num N) (isRecording : bool) (time : num N) :
  waveform_loop N (73 + extra) centerX centerY isRecording time 0
  = Some (map (path_command N centerX centerY isRecording time)
              sample_degrees).
Proof. vm_compute. reflexivity. Qed.

Lemma sample_degrees_step (k : nat) :
  (k < 72)%nat -> nth k sample_degrees 0%Z = (5 * Z.of_nat k)%Z.
Proof.
  intros Hk. unfold sample_degrees.
  change 0%Z with ((fun k => (5 * Z.of_nat k)%Z) 0%nat) at 1.
  rewrite map_nth, seq_nth by assumption. reflexivity.
Qed.

Lemma path_is_stroked (N : Number) (centerX centerY : num N)
    (isRecording : bool) (time : num N) :
  map (path_command N centerX centerY isRecording time) sample_degrees
  = stroke_path N
      (map (vertex N centerX centerY isRecording time) sample_degrees).
Proof. vm_compute. reflexivity. Qed.

(** The path of a frame starts at the vertex for 0 degrees. *)
Lemma frame_starts_at_first_vertex (N : Number) (extra : nat)
    (width height : Render.num N) (now : Z) (isRecording : bool) :
  let v := vertex N (div N width (of_Z N 2)) (div N height (of_Z N 2))
             isRecording (mul N (of_Z N now) (decimal N 1 3)) 0 in
  match drawCircularWaveform N (73 + extra) width height now isRecording with
  | Some frame => nth_error frame 9
  | None => None
  end
  = Some (moveTo N (fst v) (snd v)).
Proof.
  unfold drawCircularWaveform.
  rewrite waveform_loop_unrolled. reflexivity.
Qed.

Import Reals Lra.
Local Open Scope R_scope.

Lemma amplitude_recording_bound (time : R) (i : Z) :
  Rabs (amplitude real true time i) <= 30.
Proof.
  unfold amplitude. simpl.
  match goal with
  | |- Rabs (sin ?a * _ + sin ?b * _) <= _ =>
      pose proof (SIN_bound a); pose proof (SIN_bound b);
      generalize dependent (sin a); generalize dependent (sin b)
  end.
  intros s2 H2 s1 H1. apply Rabs_le. lra.
Qed.

Lemma amplitude_idle_bound (time : R) (i : Z) :
  Rabs (amplitude real false time i) <= 5.
Proof.
  unfold amplitude. simpl.
  match goal with
  | |- Rabs (sin ?a * _) <= _ =>
      pose proof (SIN_bound a); generalize dependent (sin a)
  end.
  intros s1 H1. apply Rabs_le. lra.
Qed.

Lemma vertex_on_deformed_circle (centerX centerY : R) (isRecording : bool)
    (time : R) (i : Z) :
  let a := amplitude real isRecording time i in
  fst (vertex real centerX centerY isRecording time i)
  = centerX + cos (angle real i) * (80 + a)
  /\ snd (vertex real centerX centerY isRecording time i)
     = centerY + sin (angle real i) * (80 + a)
  /\ (fst (vertex real centerX centerY isRecording time i) - centerX) ^ 2
     + (snd (vertex real centerX centerY isRecording time i) - centerY) ^ 2
     = (80 + a) ^ 2
  /\ 0 < 80 + a.
Proof.
  intros a. unfold vertex. simpl fst. simpl snd.
  change (radius real) with 80.
  change (add real) with Rplus. change (mul real) with Rmult.
  change (Render.sin real) with sin. change (Render.cos real) with cos.
  fold a. repeat split.
  - pose proof (sin2_cos2 (IZR i * PI / 180)) as H. unfold Rsqr in H.
    clearbody a.
    generalize dependent (sin (IZR i * PI / 180)).
    generalize dependent (cos (IZR i * PI / 180)). intros co si H.
    replace ((centerX + co * (80 + a) - centerX) ^ 2
             + (centerY + si * (80 + a) - centerY) ^ 2)
      with ((si * si + co * co) * (80 + a) ^ 2) by ring.
    rewrite H. ring.
  - assert (Ha : Rabs a <= 30).
    { subst a. destruct isRecording.
      - apply amplitude_recording_bound.
      - pose proof (amplitude_idle_bound time i). lra. }
    unfold Rabs in Ha. destruct (Rcase_abs a); lra.
Qed.

Lemma angle_in_degrees (i : Z) :
  angle real i = IZR i * PI / 180.
Proof. reflexivity. Qed.

(** [Date.now() * 0.001]: the clock in seconds. *)
Lemma seconds_of_clock (now : Z) : seconds real now = IZR now * (1 / 1000).
Proof.
  unfold seconds. simpl. f_equal. f_equal. ring.
Qed.

(** The amplitude in terms of the clock. *)
Lemma amplitude_of_clock (isRecording : bool) (now i : Z) :
  amplitude real isRecording (seconds real now) i
  = let t := IZR now * (1 / 1000) in
    if isRecording
    then sin (t * 3 + IZR i * (1 / 10)) * 20
         + sin (t * 7 + IZR i * (5 / 100)) * 10
    else sin (t + IZR i * (2 / 100)) * 5.
Proof.
  rewrite seconds_of_clock. unfold amplitude. simpl.
  destruct isRecording.
  - replace (1 / (10 * 1)) with (1 / 10) by (f_equal; ring).
    replace (5 / (10 * (10 * 1))) with (5 / 100) by (f_equal; ring).
    reflexivity.
  - replace (2 / (10 * (10 * 1))) with (2 / 100) by (f_equal; ring).
    reflexivity.
Qed.

Lemma amplitude_at_start (isRecording : bool) :
  amplitude real isRecording (seconds real 0) 0 = 0.
Proof.
  rewrite amplitude_of_clock. cbv zeta. destruct isRecording.
  - replace (0 * (1 / 1000) * 3 + 0 * (1 / 10)) with 0 by lra.
    replace (0 * (1 / 1000) * 7 + 0 * (5 / 100)) with 0 by lra.
    rewrite sin_0. lra.
  - replace (0 * (1 / 1000) + 0 * (2 / 100)) with 0 by lra.
    rewrite sin_0. lra.
Qed.

Lemma amplitude_early (isRecording : bool) (now : Z) :
  (0 < now < 285)%Z -> 0 < amplitude real isRecording (seconds real now) 0.
Proof.
  intros [Hlo Hhi]. apply IZR_lt in Hlo, Hhi.
  pose proof PI2_1 as Hpi.
  rewrite amplitude_of_clock. cbv zeta. destruct isRecording.
  - replace (IZR now * (1 / 1000) * 3 + 0 * (1 / 10))
      with (IZR now * (3 / 1000)) by lra.
    replace (IZR now * (1 / 1000) * 7 + 0 * (5 / 100))
      with (IZR now * (7 / 1000)) by lra.
    assert (H3 : 0 < sin (IZR now * (3 / 1000)))
      by (apply sin_gt_0; lra).
    assert (H7 : 0 < sin (IZR now * (7 / 1000)))
      by (apply sin_gt_0; lra).
    lra.
  - replace (IZR now * (1 / 1000) + 0 * (2 / 100))
      with (IZR now * (1 / 1000)) by lra.
    assert (H1 : 0 < sin (IZR now * (1 / 1000)))
      by (apply sin_gt_0; lra).
    lra.
Qed.

Lemma first_vertex (centerX centerY time : R) (isRecording : bool) :
  fst (vertex real centerX centerY isRecording time 0)
  = centerX + (80 + amplitude real isRecording time 0).
Proof.
  destruct (vertex_on_deformed_circle centerX centerY isRecording time 0)
    as (Hx & _).
  rewrite Hx, angle_in_degrees.
  replace (0 * PI / 180) with 0 by lra. rewrite cos_0. lra.
Qed.

(** C9: a frame clears the canvas, strokes the reference circle of
    radius 80 and then strokes one closed path through 72 vertices, one
    every 5 degrees from 0 to 355, before it asks for the next frame;
    the loop ends on its own condition whatever fuel is left, for every
    size of the canvas. The vertices are those for the clock reading
    times 0.001. Over the reals the vertex for [i] degrees lies at
    distance [80 + a] from the centre in the direction of [i] degrees,
    where, with [t] the clock in seconds, [a] is
    [sin (3 t + 0.1 i) * 20 + sin (7 t + 0.05 i) * 10] while recording,
    bounded by 30, and [sin (t + 0.02 i) * 5] otherwise, bounded by 5.
    The frame moves with the clock: at a clock reading between 0 and
    285 milliseconds it is not the frame of clock reading 0. *)
Theorem drawCircularWaveform_frame (N : Number) (extra : nat)
    (width height : Render.num N) (now : Z) (isRecording : bool) :
  (let centerX := div N width (of_Z N 2) in
   let centerY := div N height (of_Z N 2) in
   let time := mul N (of_Z N now) (decimal N 1 3) in
   drawCircularWaveform N (73 + extra) width height now isRecording
   = Some
       ([clearRect N (of_Z N 0) (of_Z N 0) width height;
         set_strokeStyle "#333333";
         set_lineWidth N (of_Z N 2);
         beginPath;
         arc N centerX centerY (of_Z N 80) (of_Z N 0)
             (mul N (of_Z N 2) (Render.PI N));
         stroke;
         set_strokeStyle "#00ff00";
         set_lineWidth N (of_Z N 3);
         beginPath]
        ++ stroke_path N
             (map (vertex N centerX centerY isRecording time) sample_degrees)
        ++ [closePath; stroke; requestAnimationFrame]))
  /\ (List.length sample_degrees = 72%nat
      /\ forall k, (k < 72)%nat ->
                   nth k sample_degrees 0%Z = (5 * Z.of_nat k)%Z)
  /\ (forall (centerX centerY : R) (i : Z),
        let t := IZR now * (1 / 1000) in
        let a :=
          if isRecording
          then sin (t * 3 + IZR i * (1 / 10)) * 20
               + sin (t * 7 + IZR i * (5 / 100)) * 10
          else sin (t + IZR i * (2 / 100)) * 5 in
        let v :=
          vertex real centerX centerY isRecording
            (Render.mul real (Render.of_Z real now) (Render.decimal real 1 3))
            i in
        fst v = centerX + cos (IZR i * PI / 180) * (80 + a)
        /\ snd v = centerY + sin (IZR i * PI / 180) * (80 + a)
        /\ (fst v - centerX) ^ 2 + (snd v - centerY) ^ 2 = (80 + a) ^ 2
        /\ Rabs a <= (if isRecording then 30 else 5)
        /\ 0 < 80 + a)
  /\ ((0 < now < 285)%Z ->
      forall (fuel : nat) (w h : R),
        drawCircularWaveform real (73 + fuel) w h now isRecording
        <> drawCircularWaveform real (73 + fuel) w h 0 isRecording).
Proof.
  split; [|split; [|split]].
  - intros centerX centerY time. unfold drawCircularWaveform.
    fold centerX centerY. change (seconds N now) with time.
    rewrite waveform_loop_unrolled, path_is_stroked. reflexivity.
  - split; [reflexivity | apply sample_degrees_step].
  - intros centerX centerY i t a v.
    change (Render.mul real (Render.of_Z real now) (Render.decimal real 1 3))
      with (seconds real now) in v.
    assert (Ha : amplitude real isRecording (seconds real now) i = a)
      by apply amplitude_of_clock.
    destruct (vertex_on_deformed_circle centerX centerY isRecording
                (seconds real now) i) as (Hx & Hy & Hd & Hp).
    rewrite Ha in Hx, Hy, Hd, Hp. rewrite angle_in_degrees in Hx, Hy.
    repeat split; try assumption.
    rewrite <- Ha. destruct isRecording.
    + apply amplitude_recording_bound.
    + apply amplitude_idle_bound.
  - intros Hnow fuel w h Heq.
    pose proof (frame_starts_at_first_vertex real fuel w h now isRecording)
      as H1.
    pose proof (frame_starts_at_first_vertex real fuel w h 0 isRecording)
      as H0.
    cbv zeta in H1, H0. rewrite Heq, H0 in H1.
    assert (Hx : fst (vertex real (w / 2) (h / 2) isRecording
                        (seconds real 0) 0)
                 = fst (vertex real (w / 2) (h / 2) isRecording
                          (seconds real now) 0)).
    { injection H1 as Hx _. exact Hx. }
    rewrite !first_vertex, amplitude_at_start in Hx.
    pose proof (amplitude_early isRecording now Hnow). lra.
Qed.

Lemma drawCircularWaveform_frame_example :
  (0 < 100 < 285)%Z
  /\ drawCircularWaveform real 73 640 480 100 true
     <> drawCircularWaveform real 73 640 480 0 true
  /\ drawCircularWaveform real 73 640 480 100 false
     <> drawCircularWaveform real 73 640 480 0 false.
Proof.
  split; [lia|]. split.
  - exact (proj2 (proj2 (proj2
             (drawCircularWaveform_frame real 0 640 480 100 true)))
             ltac:(lia) 0%nat 640 480).
  - exact (proj2 (proj2 (proj2
             (drawCircularWaveform_frame real 0 640 480 100 false)))
             ltac:(lia) 0%nat 640 480).
Defined.

End RenderFacts.

(* ================================================================== *)
(** * Further facts *)

(** ** Reading the page after an update *)

Module QueryFacts.
Import Dom Query.

Lemma find_app_first {A} (q : A -> bool) (l1 l2 : list A) :
  find q (l1 ++ l2)
  = match find q l1 with Some x => Some x | None => find q l2 end.
Proof.
  induction l1 as [|x l1 IH]; simpl; [reflexivity|].
  now destruct (q x).
Qed.

Lemma getElementById_find_first (i : string) (d : Node) :
  getElementById i d = option_map fst (find_first (has_id i) d).
Proof.
  unfold getElementById.
  induction d as [s | a cs IH] using Node_induction; simpl; [reflexivity|].
  destruct (has_id i a); [reflexivity|].
  induction cs as [|c cs IHcs]; simpl; [reflexivity|].
  inversion IH as [|? ? Hc Hrest]; subst.
  rewrite find_app_first, Hc.
  destruct (find_first (has_id i) c); simpl; [reflexivity | auto].
Qed.

(** An update finds its target exactly where [find_first] does. *)
Lemma update_first_none (p : Attrs -> bool)
    (f : Attrs -> list Node -> Attrs * list Node) (d : Node) :
  update_first p f d = None <-> find_first p d = None.
Proof.
  induction d as [s | a cs IH] using Node_induction; simpl; [tauto|].
  destruct (p a); [split; discriminate|].
  induction cs as [|c cs IHcs]; simpl; [tauto|].
  inversion IH as [|? ? Hc Hrest]; subst. specialize (IHcs Hrest).
  destruct (update_first p f c) eqn:Hu; destruct (find_first p c) eqn:Hf;
    simpl.
  - split; discriminate.
  - destruct Hc as [_ H]. specialize (H eq_refl). discriminate.
  - destruct Hc as [H _]. specialize (H eq_refl). discriminate.
  - destruct (update_first_in (update_first p f) cs); simpl in *.
    + split; [discriminate|]. intros H. apply IHcs in H. discriminate.
    + tauto.
Qed.

Section SameTarget.
Variable p : Attrs -> bool.
Variable f : Attrs -> list Node -> Attrs * list Node.
Hypothesis still_target :
  forall a cs, p a = true -> p (fst (f a cs)) = true.

Lemma find_first_update_first (d : Node) :
  forall d', update_first p f d = Some d' ->
    find_first p d'
    = option_map (fun ac => f (fst ac) (snd ac)) (find_first p d).
Proof.
  induction d as [s | a cs IH] using Node_induction;
    intros d' Hup; simpl in Hup; [discriminate|].
  simpl. destruct (p a) eqn:Hp.
  - inversion Hup; subst. simpl. rewrite still_target by assumption.
    simpl. now destruct (f a cs).
  - destruct (update_first_in (update_first p f) cs) as [cs'|] eqn:Hcs;
      [|discriminate].
    inversion Hup; subst. simpl. rewrite Hp. clear Hup Hp.
    revert cs' Hcs. induction cs as [|c cs IHcs]; simpl; intros cs' Hcs;
      [discriminate|].
    inversion IH as [|? ? Hc Hrest]; subst.
    destruct (update_first p f c) as [c'|] eqn:Hu.
    + inversion Hcs; subst. simpl. rewrite (Hc c' eq_refl).
      destruct (find_first p c) eqn:Hf; [reflexivity|].
      apply (update_first_none p f) in Hf. congruence.
    + destruct (update_first_in (update_first p f) cs) as [cs0|] eqn:Hcs0;
        [|discriminate].
      inversion Hcs; subst. simpl.
      apply (update_first_none p f) in Hu. rewrite Hu. now apply IHcs.
Qed.

Lemma find_first_update (d : Node) :
  find_first p (update p f d)
  = option_map (fun ac => f (fst ac) (snd ac)) (find_first p d).
Proof.
  unfold update. destruct (update_first p f d) as [d'|] eqn:Hup.
  - now apply find_first_update_first.
  - apply update_first_none in Hup. now rewrite Hup.
Qed.
End SameTarget.

(** The properties of an element after an update of its properties. *)
Lemma getElementById_update_same (i : string) (g : Attrs -> Attrs)
    (d : Node) :
  (forall a, elemId (g a) = elemId a) ->
  getElementById i (update (has_id i) (fun a cs => (g a, cs)) d)
  = option_map g (getElementById i d).
Proof.
  intros Hg. rewrite !getElementById_find_first, find_first_update.
  - now destruct (find_first (has_id i) d) as [[a cs]|].
  - intros a cs. unfold has_id. simpl. now rewrite Hg.
Qed.

(** The properties of an element after an update of another one. *)
Lemma getElementById_update_other (i j : string) (g : Attrs -> Attrs)
    (d : Node) :
  (forall a, elemId (g a) = elemId a) -> i <> j ->
  getElementById i (update (has_id j) (fun a cs => (g a, cs)) d)
  = getElementById i d.
Proof.
  intros Hg Hij. unfold getElementById. apply DomFacts.find_update.
  intros a cs Ha. unfold rewrite_of. simpl.
  unfold has_id in *. rewrite Hg. apply String.eqb_eq in Ha.
  rewrite Ha. destruct (String.eqb_spec j i); [congruence | reflexivity].
Qed.

(** The children of an element after its content is replaced. *)
Lemma childrenById_replaced (i : string) (content : list Node) (d : Node) :
  getElementById i d <> None ->
  childrenById i (update (has_id i) (fun a _ => (a, content)) d)
  = Some content.
Proof.
  intros H. unfold childrenById. rewrite find_first_update by auto.
  rewrite getElementById_find_first in H.
  destruct (find_first (has_id i) d) as [[a cs]|]; [reflexivity|].
  now contradiction H.
Qed.

(** The children of an element after an update of its properties. *)
Lemma childrenById_update_same (i : string) (g : Attrs -> Attrs) (d : Node) :
  (forall a, elemId (g a) = elemId a) ->
  childrenById i (update (has_id i) (fun a cs => (g a, cs)) d)
  = childrenById i d.
Proof.
  intros Hg. unfold childrenById. rewrite find_first_update.
  - now destruct (find_first (has_id i) d) as [[a cs]|].
  - intros a cs. unfold has_id. simpl. now rewrite Hg.
Qed.

(** What lies below an element of the page is on the page. *)
Lemma find_first_elements (p : Attrs -> bool) (d : Node) :
  forall a cs, find_first p d = Some (a, cs) ->
    incl (a :: flat_map elements cs) (elements d).
Proof.
  induction d as [s | a0 cs0 IH] using Node_induction;
    intros a cs Hf; simpl in Hf; [discriminate|].
  destruct (p a0).
  - inversion Hf; subst. apply incl_refl.
  - simpl. apply incl_tl.
    induction cs0 as [|c cs0 IHcs]; simpl in *; [discriminate|].
    inversion IH as [|? ? Hc Hrest]; subst.
    destruct (find_first p c) as [[a1 cs1]|] eqn:Hfc.
    + inversion Hf; subst. apply incl_appl. now apply Hc.
    + apply incl_appr. now apply IHcs.
Qed.

Lemma set_property_sets (prop v : string) (st : list (string * string)) :
  In (prop, v) (set_property prop v st).
Proof.
  induction st as [|[k w] st IH]; simpl; [now left|].
  destruct (String.eqb_spec k prop) as [->|Hne]; [now left | now right].
Qed.

End QueryFacts.

(** ** Logs only grow *)

Lemma extends_refl {A} (l : list A) : extends l l.
Proof. exists []. now rewrite app_nil_r. Qed.

Lemma extends_trans {A} (l1 l2 l3 : list A) :
  extends l1 l2 -> extends l2 l3 -> extends l1 l3.
Proof.
  intros [m1 ->] [m2 ->]. exists (m1 ++ m2). now rewrite app_assoc.
Qed.

Lemma extends_snoc {A} (l : list A) (x : A) : extends l (l ++ [x]).
Proof. now exists [x]. Qed.

#[local] Instance grows_preorder : PreOrder grows.
Proof.
  split.
  - intros w. repeat split; apply extends_refl.
  - intros w1 w2 w3 (A1 & B1 & C1 & D1 & E1) (A2 & B2 & C2 & D2 & E2).
    repeat split; eapply extends_trans; eassumption.
Qed.

Ltac log_update :=
  unfold grows; simpl;
  repeat split; first [ apply extends_refl | apply extends_snoc ].

Lemma grows_handle (e : Event) : preserves grows (handle e).
Proof. destruct e; unfold handle, settle; walk_all; log_update. Qed.

Lemma grows_step (c : Clock) (e : Event) (w : World) : grows w (step c e w).
Proof.
  unfold step, exec. pose proof (grows_handle e c w) as H.
  destruct (handle e c w) as [[u|err] w']; simpl in H; [exact H|].
  transitivity w'; [exact H | log_update].
Qed.

(** X1: no event removes or reorders anything: after any run of events
    the transcript, the clip list, the list of backend calls issued,
    the console and the dialogs shown all begin with what they held
    before the run. *)
Theorem logs_only_grow (es : list (Clock * Event)) (w : World) :
  grows w (run es w).
Proof.
  revert w. induction es as [|[c e] es IH]; intros w; simpl.
  - reflexivity.
  - transitivity (step c e w); [apply grows_step | apply IH].
Qed.

(** ** The admin flag over a run *)

#[local] Instance same_admin_preorder : PreOrder same_admin.
Proof.
  split; unfold same_admin; [intros w; reflexivity|].
  intros w1 w2 w3 H1 H2. congruence.
Qed.

Lemma same_admin_resume (k : Cont) (r : Settlement) :
  preserves same_admin (resume k r).
Proof. destruct k, r; walk_all; reflexivity. Qed.

Lemma same_admin_handle (e : Event) :
  (forall adminCode, e <> VerifyAdminCode adminCode) ->
  preserves same_admin (handle e).
Proof.
  intros Hn. destruct e; try (now exfalso; eapply Hn);
    unfold handle, settle; walk_all; reflexivity.
Qed.

Lemma admin_flag_step (c : Clock) (e : Event) (w : World) :
  isAdminVerified (this (step c e w))
  = isAdminVerified (this w) || grants e.
Proof.
  destruct e;
    try (simpl grants; rewrite orb_false_r;
         apply (preserves_exec same_admin);
         [ intros f w0; reflexivity
         | apply same_admin_handle; intros; discriminate ]).
  unfold step, exec, handle, verifyAdminCode, try_catch.
  destruct adminCode; simpl.
  - now rewrite orb_false_r.
  - rewrite verifyAdminCode_try_run. simpl. now rewrite orb_true_r.
Qed.

(** X2: the admin flag is never taken back. After a run it is set
    exactly when it was set before or the run holds a verification of a
    non-empty code. *)
Theorem admin_flag_over_runs (es : list (Clock * Event)) (w : World) :
  isAdminVerified (this (run es w))
  = isAdminVerified (this w) || existsb (fun ce => grants (snd ce)) es.
Proof.
  revert w. induction es as [|[c e] es IH]; intros w; simpl.
  - now rewrite orb_false_r.
  - now rewrite IH, admin_flag_step, orb_assoc.
Qed.

(** ** Backend calls, one event at a time *)

#[local] Instance issues_preorder (P : Pending -> Prop) : PreOrder (issues P).
Proof.
  split.
  - intros w. exists []. simpl. rewrite !app_nil_r. auto.
  - intros w1 w2 w3 (a1 & P1 & I1 & F1) (a2 & P2 & I2 & F2).
    exists (a1 ++ a2).
    rewrite P2, P1, I2, I1, map_app, !app_assoc, Forall_app. auto.
Qed.

Lemma issues_nothing (w w' : World) :
  issues never w w' -> pending w' = pending w /\ invoked w' = invoked w.
Proof.
  intros (added & Hp & Hi & Hf). destruct added as [|p added].
  - simpl in *. now rewrite app_nil_r in *.
  - inversion Hf as [|? ? Hn _]. destruct Hn.
Qed.

Lemma issues_elsewhere (P : Pending -> Prop) (w w' : World) :
  pending w' = pending w -> invoked w' = invoked w -> issues P w w'.
Proof.
  intros Hp Hi. exists []. simpl. rewrite !app_nil_r. auto.
Qed.

(** The continuations issue no call: nothing is tried again. *)
Lemma issues_resume (k : Cont) (r : Settlement) :
  preserves (issues never) (resume k r).
Proof.
  destruct k, r; walk_all; apply issues_elsewhere; reflexivity.
Qed.

Lemma issues_silent (e : Event) :
  silent e = true -> preserves (issues never) (handle e).
Proof.
  intros Hs. destruct e; try discriminate Hs; walk_all;
    apply issues_elsewhere; reflexivity.
Qed.

Lemma issues_startRecording : preserves (issues never) startRecording.
Proof. walk_all; apply issues_elsewhere; reflexivity. Qed.

Lemma exec_issues_nothing (m : M unit) (c : Clock) (w : World) :
  preserves (issues never) m ->
  pending (exec m c w) = pending w /\ invoked (exec m c w) = invoked w.
Proof.
  intros Hm. apply issues_nothing. unfold exec. specialize (Hm c w).
  destruct (m c w) as [[u|err] w']; simpl in Hm; [exact Hm|].
  transitivity w'; [exact Hm | now apply issues_elsewhere].
Qed.

(** What [sendMessage] does, by the state of the input field. *)
Lemma sendMessage_null (c : Clock) (w : World) :
  Dom.getElementById "chat-input" (document w) = None ->
  sendMessage c w = (Thrown (TypeError "Cannot read properties of null"), w).
Proof.
  intros Hn. unfold sendMessage, bind, document_getElementById, gets.
  now rewrite Hn.
Qed.

(** What [stopRecording] does where a control is missing. *)
Lemma stopRecording_failed (c : Clock) (w : World) :
  ~ has_recording_controls (document w) ->
  exists message,
    stopRecording c w
    = (Normal tt,
       with_console
         (fun l => l ++ [ConsoleError "Stop recording error:"
                           (TypeError message)])
         (with_document (half_switched false)
            (with_this (flagged false) w))).
Proof.
  intros Hn.
  unfold stopRecording, try_catch, bind, set_isRecording, update_app, modify,
    document_getElementById, gets, stopRecording_catch, console_error,
    half_switched. simpl.
  destruct (Dom.getElementById "record-btn" (document w)) eqn:Hr;
    destruct (Dom.getElementById "stop-btn" (document w)) eqn:Hs;
    destruct (Dom.getElementById "recording-status" (document w)) eqn:Ht;
    simpl;
    try (unfold with_document, with_console, with_this; simpl;
         rewrite ?Hr, ?Hs; eexists; reflexivity).
  exfalso. apply Hn. unfold has_recording_controls.
  rewrite Hr, Hs, Ht. repeat split; discriminate.
Qed.

Lemma process_audio_well_formed :
  well_formed_call process_audio_call
  /\ well_named (mkPending process_audio_call AfterProcessAudio).
Proof. split; [right; right; left|]; reflexivity. Qed.

(** An event other than a settlement brings at most one call into
    flight, and that call is well formed. *)
Lemma step_issues (c : Clock) (e : Event) (w : World) :
  (forall n r, e <> Settle n r) ->
  exists added,
    pending (step c e w) = pending w ++ added
    /\ invoked (step c e w) = invoked w ++ map awaited added
    /\ (List.length added <= 1)%nat
    /\ Forall (fun p => well_formed_call (awaited p) /\ well_named p) added.
Proof.
  intros Hn.
  assert (Hnone : forall w', pending w' = pending w ->
                             invoked w' = invoked w ->
            exists added,
              pending w' = pending w ++ added
              /\ invoked w' = invoked w ++ map awaited added
              /\ (List.length added <= 1)%nat
              /\ Forall (fun p => well_formed_call (awaited p)
                                  /\ well_named p) added).
  { intros w' Hp Hi. exists []. simpl. rewrite !app_nil_r. auto. }
  assert (Hstop : exists added,
            pending (step c StopRecording w) = pending w ++ added
            /\ invoked (step c StopRecording w)
               = invoked w ++ map awaited added
            /\ (List.length added <= 1)%nat
            /\ Forall (fun p => well_formed_call (awaited p)
                                /\ well_named p) added).
  { unfold step, exec, handle.
    destruct (has_recording_controls_dec (document w)) as [Hc|Hc].
    - rewrite stopRecording_run by assumption.
      exists [mkPending process_audio_call AfterProcessAudio]. simpl.
      repeat split; auto. constructor; [|constructor].
      apply process_audio_well_formed.
    - destruct (stopRecording_failed c w Hc) as [message ->].
      now apply Hnone. }
  destruct (silent e) eqn:Hs.
  - apply Hnone; apply (exec_issues_nothing (handle e) c w);
      now apply issues_silent.
  - destruct e; try discriminate Hs.
    + (* sendMessage *)
      unfold step, exec, handle.
      destruct (Dom.getElementById "chat-input" (document w)) as [a|] eqn:Ha.
      * destruct (Js.truthy (Js.trim (Dom.value a))) eqn:Ht.
        -- rewrite (sendMessage_run c w a Ha Ht).
           eexists [_]. simpl. repeat split; auto.
           constructor; [|constructor]. split; [|reflexivity].
           right. left. exists (Dom.value a). auto.
        -- rewrite (sendMessage_blank c w a Ha Ht). now apply Hnone.
      * rewrite (sendMessage_null c w Ha). now apply Hnone.
    + (* toggleRecording *)
      destruct (isRecording (this w)) eqn:Hr.
      * rewrite step_toggle_recording by assumption. exact Hstop.
      * unfold step, handle, toggleRecording.
        assert (E : exec (recording <- gets (fun w => isRecording (this w)) ;;
                          if negb recording then startRecording
                          else stopRecording)%js c w
                    = exec startRecording c w).
        { unfold exec, bind, gets. now rewrite Hr. }
        rewrite E.
        apply Hnone; apply (exec_issues_nothing startRecording c w);
          apply issues_startRecording.
    + exact Hstop.
    + (* emergencyKillSwitch *)
      destruct answer.
      * rewrite emergencyKillSwitch_confirmed.
        exists [mkPending kill_call AfterEmergencyKillSwitch]. simpl.
        repeat split; auto. constructor; [|constructor].
        split; [|reflexivity]. right. right. right. reflexivity.
      * rewrite emergencyKillSwitch_declined. now apply Hnone.
    + now exfalso; eapply Hn.
Qed.

(** A settlement takes its call out of flight and issues none. *)
Lemma settle_issues (c : Clock) (n : nat) (r : Settlement) (w : World) :
  invoked (step c (Settle n r) w) = invoked w
  /\ pending (step c (Settle n r) w)
     = match nth_error (pending w) n with
       | Some _ => remove_at n (pending w)
       | None => pending w
       end.
Proof.
  destruct (nth_error (pending w) n) as [p|] eqn:Hp.
  - rewrite (step_settle c n r w p Hp).
    destruct (exec_issues_nothing (resume (cont p) r) c
                (with_pending (remove_at n (pending w)) w)
                (issues_resume _ _)) as [H1 H2].
    now rewrite H1, H2.
  - now rewrite step_settle_none.
Qed.

(** X3: every event other than a settlement issues at most one backend
    call, which goes into flight as it is issued; a settlement issues no
    call, so nothing is ever tried again, and takes exactly the call it
    settles out of flight. *)
Theorem one_call_per_event (c : Clock) (e : Event) (w : World) :
  match e with
  | Settle n r =>
      invoked (step c e w) = invoked w
      /\ pending (step c e w)
         = match nth_error (pending w) n with
           | Some _ => remove_at n (pending w)
           | None => pending w
           end
  | _ =>
      exists added,
        pending (step c e w) = pending w ++ added
        /\ invoked (step c e w) = invoked w ++ map awaited added
        /\ (List.length added <= 1)%nat
  end.
Proof.
  destruct e; try apply settle_issues;
    match goal with
    | |- context [step c ?e w] =>
        destruct (step_issues c e w) as (added & Hp & Hi & Hl & _);
          [intros; discriminate | exists added; auto]
    end.
Qed.

(** X4: every backend call that a run has issued is one of the four
    calls as the methods make them: [init_agent] and
    [emergency_kill_switch] without arguments, [process_audio] with the
    placeholder samples, [chat_with_agent] with a message that is not
    empty and has no white space at its ends. *)
Theorem backend_calls_well_formed (page : Dom.Node)
    (browser : option string) (c0 : Clock) (es : list (Clock * Event)) :
  Forall well_formed_call (invoked (run es (boot page browser c0))).
Proof.
  assert (H0 : Forall well_formed_call (invoked (boot page browser c0))).
  { destruct browser; repeat constructor. }
  revert H0. generalize (boot page browser c0).
  induction es as [|[c e] es IH]; simpl; intros w Hw; [exact Hw|].
  apply IH.
  assert (Hs : forall n r, invoked (step c (Settle n r) w) = invoked w)
    by (intros; apply settle_issues).
  destruct e; try (now rewrite Hs);
    match goal with
    | |- context [step c ?e w] =>
        destruct (step_issues c e w) as (added & _ & Hi & _ & Hf);
          [intros; discriminate|]
    end;
    rewrite Hi; apply Forall_app; (split; [exact Hw|]);
    apply Forall_map; revert Hf; apply Forall_impl; tauto.
Qed.

(** ** Handlers on a page that lacks their elements *)

Lemma flagged_back (b : bool) (w : World) :
  isRecording (this w) = false ->
  with_this (flagged false) (with_this (flagged b) w) = w.
Proof.
  destruct w as [[r ac lc pc ch cl av] d co di inv pe an]. simpl.
  intros ->. reflexivity.
Qed.

Lemma startRecording_failed (c : Clock) (w : World) :
  ~ has_recording_controls (document w) ->
  exists message,
    startRecording c w
    = (Normal tt,
       with_this (flagged false)
         (with_console
            (fun l => l ++ [ConsoleError "Recording error:"
                              (TypeError message)])
            (with_document (half_switched true)
               (with_this (flagged true) w)))).
Proof.
  intros Hn.
  unfold startRecording, try_catch, bind, set_isRecording, update_app, modify,
    document_getElementById, gets, console_error, half_switched. simpl.
  destruct (Dom.getElementById "record-btn" (document w)) eqn:Hr;
    destruct (Dom.getElementById "stop-btn" (document w)) eqn:Hs;
    destruct (Dom.getElementById "recording-status" (document w)) eqn:Ht;
    simpl;
    try (unfold with_document, with_console, with_this; simpl;
         rewrite ?Hr, ?Hs; eexists; reflexivity).
  exfalso. apply Hn. unfold has_recording_controls.
  rewrite Hr, Hs, Ht. repeat split; discriminate.
Qed.

Lemma toggle_idle_starts (c : Clock) (w : World) :
  isRecording (this w) = false ->
  step c ToggleRecording w = exec startRecording c w.
Proof.
  intros Hr. unfold step, handle, toggleRecording, exec, bind, gets.
  now rewrite Hr.
Qed.

(** X5: pressing record on a page that lacks one of the three recording
    elements starts nothing. The [TypeError] is caught and logged, the
    flag is taken back, no call is issued; the assignments made before
    the failing one stay on the page. *)
Theorem start_without_controls (c : Clock) (w : World) :
  isRecording (this w) = false ->
  ~ has_recording_controls (document w) ->
  exists message,
    step c ToggleRecording w
    = with_console
        (fun l => l ++ [ConsoleError "Recording error:" (TypeError message)])
        (with_document (half_switched true) w).
Proof.
  intros Hr Hn. destruct (startRecording_failed c w Hn) as [message E].
  exists message. rewrite toggle_idle_starts by assumption.
  unfold exec. rewrite E.
  rewrite <- (flagged_back true w Hr) at 2. reflexivity.
Qed.

Lemma start_without_controls_example :
  isRecording (this (Partial.world Partial.buttons_only)) = false
  /\ ~ has_recording_controls (document (Partial.world Partial.buttons_only))
  /\ exists message,
       step (Sample.clock 1) ToggleRecording (Partial.world Partial.buttons_only)
       = with_console
           (fun l => l ++ [ConsoleError "Recording error:"
                             (TypeError message)])
           (with_document (half_switched true)
              (Partial.world Partial.buttons_only)).
Proof.
  assert (Hn : ~ has_recording_controls
                 (document (Partial.world Partial.buttons_only))).
  { intros (_ & _ & H). now apply H. }
  split; [reflexivity|]. split; [exact Hn|].
  exact (start_without_controls (Sample.clock 1)
           (Partial.world Partial.buttons_only) eq_refl Hn).
Defined.







(** X7: stopping on a page that lacks one of the three recording
    elements clears the flag and nothing more: the [TypeError] is caught
    and logged, no [process_audio] call is issued, and no message and no
    clip are added. *)
Theorem stop_without_controls (c : Clock) (w : World) :
  ~ has_recording_controls (document w) ->
  exists message,
    step c StopRecording w
    = with_console
        (fun l => l ++ [ConsoleError "Stop recording error:"
                          (TypeError message)])
        (with_document (half_switched false)
           (with_this (flagged false) w)).
Proof.
  intros Hn. destruct (stopRecording_failed c w Hn) as [message E].
  exists message. unfold step, handle, exec. now rewrite E.
Qed.

Lemma stop_without_controls_example :
  let w := step (Sample.clock 1) ToggleRecording
             (Partial.world Partial.buttons_only) in
  ~ has_recording_controls (document w)
  /\ exists message,
       step (Sample.clock 2) StopRecording w
       = with_console
           (fun l => l ++ [ConsoleError "Stop recording error:"
                             (TypeError message)])
           (with_document (half_switched false)
              (with_this (flagged false) w)).
Proof.
  intros w.
  assert (Hn : ~ has_recording_controls (document w)).
  { intros (_ & _ & H). now apply H. }
  split; [exact Hn|].
  exact (stop_without_controls (Sample.clock 2) w Hn).
Defined.

(** X8: sending on a page without the input field is not caught: the
    read of its value is outside the [try], so the handler ends in an
    unhandled [TypeError] and changes nothing else. *)
Theorem sendMessage_without_input (c : Clock) (w : World) :
  Dom.getElementById "chat-input" (document w) = None ->
  step c SendMessage w
  = with_console
      (fun l => l ++ [Uncaught (TypeError "Cannot read properties of null")])
      w.
Proof.
  intros Hn. unfold step, handle, exec. now rewrite sendMessage_null.
Qed.

Lemma sendMessage_without_input_example :
  Dom.getElementById "chat-input"
    (document (Partial.world Partial.buttons_only)) = None
  /\ step (Sample.clock 1) SendMessage (Partial.world Partial.buttons_only)
     = with_console
         (fun l => l ++ [Uncaught
                           (TypeError "Cannot read properties of null")])
         (Partial.world Partial.buttons_only).
Proof.
  split; [reflexivity|].
  exact (sendMessage_without_input (Sample.clock 1)
           (Partial.world Partial.buttons_only) eq_refl).
Defined.

(** ** A message on its way *)

Lemma valueById_shown (r : Role) (text : string) (d : Dom.Node) :
  Query.valueById "chat-input" (shown r text d)
  = Query.valueById "chat-input" d.
Proof.
  unfold Query.valueById. now rewrite shown_spares by discriminate.
Qed.

Lemma valueById_cleared (d : Dom.Node) :
  Dom.getElementById "chat-input" d <> None ->
  Query.valueById "chat-input" (Dom.set_value "chat-input" "" d) = Some "".
Proof.
  intros H. unfold Query.valueById, Dom.set_value.
  rewrite (QueryFacts.getElementById_update_same "chat-input"
             (Dom.with_value "")) by reflexivity.
  destruct (Dom.getElementById "chat-input" d); [reflexivity | congruence].
Qed.

(** X9: a message that is not blank goes out trimmed: the transcript
    and the [chat_with_agent] call hold the text without the white space
    at its ends, and the input field is emptied at once. However the
    call settles, the field stays empty: after a failure the text is not
    given back. *)
Theorem sendMessage_trims_and_clears (c c' : Clock) (w : World)
    (a : Dom.Attrs) (r : Settlement) :
  Dom.getElementById "chat-input" (document w) = Some a ->
  Js.truthy (Js.trim (Dom.value a)) = true ->
  let message := Js.trim (Dom.value a) in
  let w1 := step c SendMessage w in
  let w2 := step c' (Settle (List.length (pending w)) r) w1 in
  chatHistory (this w1)
  = chatHistory (this w) ++ [mkChatMessage user message (isoString c)]
  /\ invoked w1
     = invoked w ++ [mkInvocation "chat_with_agent" (MessageArg message)]
  /\ Query.valueById "chat-input" (document w1) = Some ""
  /\ Query.valueById "chat-input" (document w2) = Some ""
  /\ invoked w2 = invoked w1.
Proof.
  intros Ha Ht message w1 w2.
  assert (H1 : w1 = with_call (mkInvocation "chat_with_agent"
                                 (MessageArg message)) AfterChatWithAgent
                      (with_document (Dom.set_value "chat-input" "")
                         (with_document (shown user message)
                            (with_this (said user message c) w)))).
  { subst w1. unfold step, exec, handle.
    now rewrite (sendMessage_run c w a Ha Ht). }
  assert (Hv : Query.valueById "chat-input" (document w1) = Some "").
  { rewrite H1. simpl. apply valueById_cleared.
    rewrite shown_spares by discriminate. congruence. }
  split; [now rewrite H1|]. split; [now rewrite H1|].
  split; [exact Hv|].
  subst w2. rewrite H1 in *.
  match goal with
  | |- context [step c' (Settle ?n r) (with_call ?call ?k ?w0)] =>
      change n with (List.length (pending w0));
      rewrite (step_settle_last c' r w0 call k)
  end.
  simpl in Hv.
  destruct r as [result|reason].
  - unfold exec, resume, sendMessage_resume, try_catch, bind, settled, ret.
    rewrite addChatMessage_run. simpl. now rewrite valueById_shown.
  - unfold exec, resume, sendMessage_resume, try_catch, settled, throw,
      sendMessage_catch, console_error, modify, bind.
    rewrite addChatMessage_run. simpl. now rewrite valueById_shown.
Qed.

Lemma sendMessage_trims_and_clears_example :
  let w := step (Sample.clock 2) (Typed "chat-input" "  hello ")
             Sample.ready in
  let a := Dom.with_value "  hello "
             (Dom.createElement "input" "chat-input" "") in
  let w1 := step (Sample.clock 3) SendMessage w in
  let w2 := step (Sample.clock 4)
              (Settle (List.length (pending w)) (Rejected "down"))
              w1 in
  Dom.getElementById "chat-input" (document w) = Some a
  /\ Js.truthy (Js.trim (Dom.value a)) = true
  /\ chatHistory (this w1)
     = chatHistory (this w)
       ++ [mkChatMessage user "hello" (isoString (Sample.clock 3))]
  /\ invoked w1
     = invoked w ++ [mkInvocation "chat_with_agent" (MessageArg "hello")]
  /\ Query.valueById "chat-input" (document w1) = Some ""
  /\ Query.valueById "chat-input" (document w2) = Some ""
  /\ invoked w2 = invoked w1.
Proof.
  intros w a w1 w2. split; [reflexivity|]. split; [reflexivity|].
  exact (sendMessage_trims_and_clears (Sample.clock 3) (Sample.clock 4) w a
           (Rejected "down") eq_refl eq_refl).
Defined.

(** ** The start of the controller *)

Lemma present_shown (i : string) (r : Role) (text : string) (d : Dom.Node) :
  i <> "" -> present i (shown r text d) = present i d.
Proof. intros Hi. unfold present. now rewrite shown_spares. Qed.

Lemma init_resume_run (r : Settlement) (c : Clock) (w : World) :
  exists log,
    exec (init_resume r) c w
    = with_animating
        (if present "live-waveform" (document w) then true else animating w)
        (with_this
           (fun a =>
              mkDyhtApp (isRecording a) (audioContext a)
                (if present "live-waveform" (document w)
                 then Some "live-waveform" else None)
                (if present "playback-waveform" (document w)
                 then Some "playback-waveform" else None)
                (chatHistory a) (audioClips a) (isAdminVerified a))
           (with_console (fun l => l ++ log)
              (with_document (shown assistant (init_message r))
                 (with_this (said assistant (init_message r) c) w)))).
Proof.
  pose proof (present_shown "live-waveform" assistant (init_message r)
                (document w) ltac:(discriminate)) as Hl.
  pose proof (present_shown "playback-waveform" assistant (init_message r)
                (document w) ltac:(discriminate)) as Hp.
  unfold present in *.
  destruct r as [result|reason].
  - exists [].
    unfold exec, init_resume, loadInitialData_resume, try_catch, settled, ret,
      bind.
    rewrite addChatMessage_run.
    unfold setupWaveformCanvases, startLiveWaveform, set_canvases, update_app,
      document_getElementById, gets, modify, bind. simpl in *.
    destruct (Dom.getElementById "live-waveform"
                (shown assistant _ (document w)));
      destruct (Dom.getElementById "live-waveform" (document w));
      try discriminate;
      destruct (Dom.getElementById "playback-waveform"
                  (shown assistant _ (document w)));
      destruct (Dom.getElementById "playback-waveform" (document w));
      try discriminate;
      destruct w as [ap0 dc0 co0 di0 inv0 pe0 an0]; simpl;
      unfold with_animating, with_this, with_console, with_document; simpl;
      rewrite ?app_nil_r; reflexivity.
  - exists [ConsoleError "Failed to initialize agent:" (BackendError reason)].
    unfold exec, init_resume, loadInitialData_resume, try_catch, settled,
      throw, loadInitialData_catch, console_error, modify, bind.
    rewrite addChatMessage_run.
    unfold setupWaveformCanvases, startLiveWaveform, set_canvases, update_app,
      document_getElementById, gets, modify, bind. simpl in *.
    destruct (Dom.getElementById "live-waveform"
                (shown assistant _ (document w)));
      destruct (Dom.getElementById "live-waveform" (document w));
      try discriminate;
      destruct (Dom.getElementById "playback-waveform"
                  (shown assistant _ (document w)));
      destruct (Dom.getElementById "playback-waveform" (document w));
      try discriminate;
      destruct w as [ap0 dc0 co0 di0 inv0 pe0 an0]; simpl;
      unfold with_animating, with_this, with_console, with_document; simpl;
      reflexivity.
Qed.

(** X10: the controller starts in two halves. Up to the [init_agent]
    call the transcript is empty, the canvases are not looked up and the
    animation does not run, whether or not the browser gives an audio
    context. When the call settles, resolved or rejected, exactly one
    assistant message is in the transcript, no call is left in flight,
    and the animation runs exactly when the page has the live canvas. *)
Theorem init_completes_either_way (page : Dom.Node)
    (browser : option string) (c0 c1 : Clock) (r : Settlement) :
  let w0 := boot page browser c0 in
  let w1 := step c1 (Settle 0 r) w0 in
  (chatHistory (this w0) = []
   /\ invoked w0 = [mkInvocation "init_agent" NoArgs]
   /\ liveWaveformCanvas (this w0) = None
   /\ animating w0 = false
   /\ audioContext (this w0)
      = match browser with Some _ => true | None => false end)
  /\ (chatHistory (this w1)
      = [mkChatMessage assistant (init_message r) (isoString c1)]
      /\ invoked w1 = invoked w0
      /\ pending w1 = []
      /\ animating w1 = present "live-waveform" page
      /\ audioContext (this w1) = audioContext (this w0)).
Proof.
  intros w0 w1.
  split; [destruct browser; repeat split|].
  destruct (boot_world page browser c0) as (_ & Hd & Hp).
  assert (Ha : animating w0 = false) by (destruct browser; reflexivity).
  assert (Hc : chatHistory (this w0) = []) by (destruct browser; reflexivity).
  subst w1. fold w0 in Hd, Hp.
  rewrite (step_settle c1 0 r w0
             (mkPending (mkInvocation "init_agent" NoArgs) AfterInitAgent))
    by (rewrite Hp; reflexivity).
  cbn [cont resume].
  destruct (init_resume_run r c1
              (with_pending (remove_at 0 (pending w0)) w0)) as [log ->].
  simpl. rewrite Hd, Hc, Hp, Ha. repeat split.
  now destruct (present "live-waveform" page).
Qed.

(** ** The status line *)

Lemma status_of_recording_page (recording : bool) (text colour : string)
    (d : Dom.Node) :
  Dom.getElementById "recording-status" d <> None ->
  Query.childrenById "recording-status" (recording_page recording text colour d)
  = Some (Dom.text_children text).
Proof.
  intros H. unfold recording_page, Dom.set_style.
  rewrite (QueryFacts.childrenById_update_same "recording-status"
             (fun a => Dom.with_style
                         (Dom.set_property "color" colour (Dom.style a)) a))
    by reflexivity.
  unfold Dom.set_textContent. apply QueryFacts.childrenById_replaced.
  unfold Dom.set_disabled.
  rewrite !(QueryFacts.getElementById_update_other "recording-status")
    by (reflexivity || discriminate).
  exact H.
Qed.

(** X11: a rejected [process_audio] call leaves the status line at
    [Processing...]: the failure is logged and the text that the stop
    has set is not taken back. *)
Theorem status_stuck_after_failure (c c' : Clock) (w : World)
    (reason : string) :
  has_recording_controls (document w) ->
  let w1 := step c StopRecording w in
  let w2 := step c' (Settle (List.length (pending w)) (Rejected reason)) w1 in
  Query.childrenById "recording-status" (document w1)
  = Some [Dom.Text "Processing..."]
  /\ Query.childrenById "recording-status" (document w2)
     = Some [Dom.Text "Processing..."]
  /\ pending w2 = pending w.
Proof.
  intros Hc w1 w2.
  assert (E1 : w1 = with_call process_audio_call AfterProcessAudio
                      (with_document
                         (recording_page false "Processing..." "#ff6b35")
                         (with_this (flagged false) w))).
  { subst w1. unfold step, exec, handle. now rewrite stopRecording_run. }
  assert (H1 : Query.childrenById "recording-status" (document w1)
               = Some [Dom.Text "Processing..."]).
  { rewrite E1. simpl.
    apply (status_of_recording_page false "Processing..." "#ff6b35").
    apply Hc. }
  split; [exact H1|].
  subst w2. rewrite E1 in *.
  match goal with
  | |- context [step c' (Settle ?n ?r) (with_call ?call ?k ?w0)] =>
      change n with (List.length (pending w0));
      rewrite (step_settle_last c' r w0 call k)
  end.
  split; [exact H1 | reflexivity].
Qed.

Lemma status_stuck_after_failure_example :
  let w := step (Sample.clock 2) ToggleRecording Sample.ready in
  let w1 := step (Sample.clock 3) StopRecording w in
  let w2 := step (Sample.clock 4)
              (Settle (List.length (pending w)) (Rejected "no backend")) w1 in
  has_recording_controls (document w)
  /\ Query.childrenById "recording-status" (document w1)
     = Some [Dom.Text "Processing..."]
  /\ Query.childrenById "recording-status" (document w2)
     = Some [Dom.Text "Processing..."]
  /\ pending w2 = pending w.
Proof.
  intros w.
  assert (Hc : has_recording_controls (document w))
    by (repeat split; discriminate).
  split; [exact Hc|].
  exact (status_stuck_after_failure (Sample.clock 3) (Sample.clock 4) w
           "no backend" Hc).
Defined.

(** ** The panel and the render loop *)

(** X12: minimizing and closing the panel change the page and nothing
    else: the controller, the calls, the console, the dialogs and the
    render loop stay as they are; on a page without the panel the two
    handlers do nothing at all. *)
Theorem panels_touch_only_the_page (c : Clock) (e : Event) (w : World) :
  panel_event e = true ->
  step c e w = with_document (fun _ => document (step c e w)) w
  /\ (Dom.getElementById "dwight-panel" (document w) = None ->
      step c e w = w).
Proof.
  intros He. destruct e; try discriminate He;
    unfold step, exec, handle, minimizePanel, closePanel, bind,
      document_getElementById, gets, set_style, modify;
    destruct (Dom.getElementById "dwight-panel" (document w));
    destruct w as [ap0 dc0 co0 di0 inv0 pe0 an0]; simpl;
    (split; [reflexivity | congruence || reflexivity]).
Qed.

Lemma panels_touch_only_the_page_example :
  panel_event ClosePanel = true
  /\ step (Sample.clock 2) ClosePanel Sample.ready
     = with_document
         (fun _ => document (step (Sample.clock 2) ClosePanel Sample.ready))
         Sample.ready
  /\ (Dom.getElementById "dwight-panel" (document Sample.ready) = None ->
      step (Sample.clock 2) ClosePanel Sample.ready = Sample.ready).
Proof.
  split; [reflexivity|].
  exact (panels_touch_only_the_page (Sample.clock 2) ClosePanel Sample.ready
           eq_refl).
Defined.




#[local] Instance keeps_animating_preorder : PreOrder keeps_animating.
Proof.
  split.
  - intros w H. exact H.
  - intros w1 w2 w3 H12 H23 H. auto.
Qed.

Lemma keeps_animating_handle (e : Event) :
  preserves keeps_animating (handle e).
Proof.
  destruct e; unfold handle, settle; walk_all;
    unfold keeps_animating; simpl; auto.
Qed.

Lemma keeps_animating_step (c : Clock) (e : Event) (w : World) :
  keeps_animating w (step c e w).
Proof.
  unfold step, exec. pose proof (keeps_animating_handle e c w) as H.
  destruct (handle e c w) as [[u|err] w']; simpl in H; exact H.
Qed.

(** X14: nothing cancels the render loop. Once the animation runs it
    runs after every run of events, among them the kill switch and the
    closing of the panel. *)
Theorem animation_never_stops (es : list (Clock * Event)) (w : World) :
  animating w = true -> animating (run es w) = true.
Proof.
  revert w. induction es as [|[c e] es IH]; simpl; intros w H; [exact H|].
  apply IH. now apply keeps_animating_step.
Qed.

Lemma animation_never_stops_example :
  animating Sample.ready = true
  /\ animating
       (run [(Sample.clock 2, EmergencyKillSwitch true);
             (Sample.clock 3, Settle 0 (Resolved "ok"));
             (Sample.clock 4, ClosePanel)] Sample.ready) = true.
Proof.
  split; [reflexivity|].
  exact (animation_never_stops
           [(Sample.clock 2, EmergencyKillSwitch true);
            (Sample.clock 3, Settle 0 (Resolved "ok"));
            (Sample.clock 4, ClosePanel)] Sample.ready eq_refl).
Defined.

(** ** Handlers beside the recording *)

(** X15: the handlers other than the two recording methods and the
    settlements leave the recording alone: on a stable page the flag,
    the [disabled] state of the record and stop controls and the
    stability of the page are the same after the event. *)
Theorem bystanders_spare_recording (c : Clock) (e : Event) (w : World) :
  bystander e = true ->
  Dom.stable (document w) = true ->
  let w' := step c e w in
  isRecording (this w') = isRecording (this w)
  /\ Dom.disabled_of "record-btn" (document w')
     = Dom.disabled_of "record-btn" (document w)
  /\ Dom.disabled_of "stop-btn" (document w')
     = Dom.disabled_of "stop-btn" (document w)
  /\ Dom.stable (document w') = true.
Proof.
  intros Hb Hs w'.
  destruct (step_bystander (fun _ => true) c e w Hb eq_refl (fun _ => eq_refl))
    as [[Hr _] Hu].
  destruct (Hu Hs) as [Hs' Hc].
  split; [exact Hr|].
  rewrite !DomFacts.disabled_of_controls by reflexivity.
  subst w'. now rewrite Hc.
Qed.

Lemma bystanders_spare_recording_example :
  let w := step (Sample.clock 2) ToggleRecording Sample.ready in
  let w' := step (Sample.clock 3) (SwitchModel "large") w in
  bystander (SwitchModel "large") = true
  /\ Dom.stable (document w) = true
  /\ isRecording (this w') = isRecording (this w)
  /\ Dom.disabled_of "record-btn" (document w')
     = Dom.disabled_of "record-btn" (document w)
  /\ Dom.disabled_of "stop-btn" (document w')
     = Dom.disabled_of "stop-btn" (document w)
  /\ Dom.stable (document w') = true.
Proof.
  intros w. split; [reflexivity|]. split; [reflexivity|].
  exact (bystanders_spare_recording (Sample.clock 3) (SwitchModel "large") w
           eq_refl eq_refl).
Defined.

(** ** The clip list *)

Lemma process_audio_resolved (c : Clock) (n : nat) (text : string)
    (w : World) (p : Pending) :
  Dom.stable (document w) = true ->
  Dom.getElementById "clips-list" (document w) <> None ->
  nth_error (pending w) n = Some p ->
  cont p = AfterProcessAudio ->
  let w' := step c (Settle n (Resolved text)) w in
  audioClips (this w') = audioClips (this w) ++ [placeholder_clip c]
  /\ Query.childrenById "clips-list" (document w')
     = Some (clip_item_markup (localeTimeString c)).
Proof.
  intros Hs Hc Hp Hk w'. subst w'.
  rewrite (step_settle c n _ w p Hp), Hk.
  rewrite stopRecording_resolved by assumption.
  split; [reflexivity|]. simpl.
  unfold Dom.set_innerHTML. apply QueryFacts.childrenById_replaced.
  rewrite DomFacts.present_controls in * by reflexivity.
  now rewrite (proj2 (ready_page_controls text _ Hs)).
Qed.

(** X16: on a page that has the clip list, and on which no element
    with the id of the record button, the stop button, the status line
    or the clip list lies inside the status line or inside the clip
    list, the clip view does not follow the clip list. When a
    [process_audio] call in flight resolves, one clip is appended to the
    list, while the view is replaced by the one fixed item, stamped with
    the time of that moment: however many clips the list holds, the view
    shows one. *)
Theorem clip_view_shows_one_item (c : Clock) (n : nat) (text : string)
    (w : World) (p : Pending) :
  Dom.stable (document w) = true ->
  Dom.getElementById "clips-list" (document w) <> None ->
  nth_error (pending w) n = Some p ->
  cont p = AfterProcessAudio ->
  let w' := step c (Settle n (Resolved text)) w in
  List.length (audioClips (this w')) = S (List.length (audioClips (this w)))
  /\ Query.childrenById "clips-list" (document w')
     = Some (clip_item_markup (localeTimeString c))
  /\ List.length (clip_item_markup (localeTimeString c)) = 1%nat.
Proof.
  intros Hs Hc Hp Hk w'.
  destruct (process_audio_resolved c n text w p Hs Hc Hp Hk) as [Ha Hv].
  fold w' in Ha, Hv. rewrite Ha, Hv, length_app. simpl.
  repeat split. lia.
Qed.

Lemma clip_view_shows_one_item_example :
  let w := run [(Sample.clock 2, ToggleRecording);
                (Sample.clock 3, StopRecording);
                (Sample.clock 4, Settle 0 (Resolved "one"));
                (Sample.clock 5, ToggleRecording);
                (Sample.clock 6, StopRecording)] Sample.ready in
  let w' := step (Sample.clock 7) (Settle 0 (Resolved "two")) w in
  List.length (audioClips (this w)) = 1%nat
  /\ List.length (audioClips (this w')) = S (List.length (audioClips (this w)))
  /\ Query.childrenById "clips-list" (document w')
     = Some (clip_item_markup (localeTimeString (Sample.clock 7)))
  /\ List.length (clip_item_markup (localeTimeString (Sample.clock 7)))
     = 1%nat.
Proof.
  intros w. split; [reflexivity|].
  exact (clip_view_shows_one_item (Sample.clock 7) 0 "two" w
           (mkPending process_audio_call AfterProcessAudio)
           eq_refl ltac:(discriminate) eq_refl eq_refl).
Defined.

(** ** After the kill switch *)

Lemma childrenById_elements (i : string) (d : Dom.Node)
    (cs : list Dom.Node) :
  Query.childrenById i d = Some cs ->
  incl (flat_map Dom.elements cs) (Dom.elements d).
Proof.
  unfold Query.childrenById.
  destruct (Query.find_first (Dom.has_id i) d) as [[a cs']|] eqn:Hf;
    [|discriminate].
  simpl. intros E. inversion E; subst.
  intros x Hx. apply (QueryFacts.find_first_elements _ _ _ _ Hf).
  now right.
Qed.

(** X17: on a page that has the clip list, and on which no element
    with the id of the record button, the stop button, the status line
    or the clip list lies inside the status line or inside the clip
    list, the lockout of the kill switch does not last. When a
    [process_audio] call in flight resolves, also after every button has
    been disabled, the clip view is rebuilt, and the play and delete
    buttons in it are on the page and enabled. *)
Theorem clip_buttons_come_enabled (c : Clock) (n : nat) (text : string)
    (w : World) (p : Pending) :
  Dom.stable (document w) = true ->
  Dom.getElementById "clips-list" (document w) <> None ->
  nth_error (pending w) n = Some p ->
  cont p = AfterProcessAudio ->
  let w' := step c (Settle n (Resolved text)) w in
  exists play delete,
    In play (Dom.elements (document w'))
    /\ In delete (Dom.elements (document w'))
    /\ Dom.className play = "clip-btn play"
    /\ Dom.className delete = "clip-btn delete"
    /\ enabled_button play = true
    /\ enabled_button delete = true.
Proof.
  intros Hs Hc Hp Hk w'.
  destruct (process_audio_resolved c n text w p Hs Hc Hp Hk) as [_ Hv].
  fold w' in Hv. apply childrenById_elements in Hv.
  exists (Dom.createElement "button" "" "clip-btn play"),
         (Dom.createElement "button" "" "clip-btn delete").
  repeat split; try reflexivity; apply Hv; simpl; tauto.
Qed.

Lemma clip_buttons_come_enabled_example :
  let w := run [(Sample.clock 2, ToggleRecording);
                (Sample.clock 3, StopRecording);
                (Sample.clock 4, EmergencyKillSwitch true);
                (Sample.clock 5, Settle 1 (Resolved "ok"))] Sample.ready in
  let w' := step (Sample.clock 6) (Settle 0 (Resolved "text")) w in
  existsb enabled_button (Dom.elements (document w)) = false
  /\ exists play delete,
       In play (Dom.elements (document w'))
       /\ In delete (Dom.elements (document w'))
       /\ Dom.className play = "clip-btn play"
       /\ Dom.className delete = "clip-btn delete"
       /\ enabled_button play = true
       /\ enabled_button delete = true.
Proof.
  intros w. split; [reflexivity|].
  exact (clip_buttons_come_enabled (Sample.clock 6) 0 "text" w
           (mkPending process_audio_call AfterProcessAudio)
           eq_refl ltac:(discriminate) eq_refl eq_refl).
Defined.

Lemma chat_input_after_kill (d : Dom.Node) (a : Dom.Attrs) (text : string) :
  Dom.getElementById "chat-input" d = Some a ->
  exists a',
    Dom.getElementById "chat-input"
      (Dom.disable_buttons (shown assistant text d)) = Some a'
    /\ Dom.value a' = Dom.value a.
Proof.
  intros Ha. unfold Dom.disable_buttons.
  rewrite DomFacts.getElementById_map_attrs
    by (intros x; now destruct (Dom.button_not_kill_switch x)).
  rewrite shown_spares by discriminate. rewrite Ha. simpl.
  eexists. split; [reflexivity|].
  now destruct (Dom.button_not_kill_switch a).
Qed.

(** X18: the kill switch does not stop the chat. Once it has resolved
    the send button is disabled with the others, but the handler is as
    before: a message that reaches it, as by the Enter key in the input
    field, goes to the backend as a [chat_with_agent] call. *)
Theorem chat_survives_kill_switch (c c' : Clock) (n : nat) (ack : string)
    (w : World) (p : Pending) (a : Dom.Attrs) :
  nth_error (pending w) n = Some p ->
  cont p = AfterEmergencyKillSwitch ->
  Dom.getElementById "chat-input" (document w) = Some a ->
  Js.truthy (Js.trim (Dom.value a)) = true ->
  let w1 := step c (Settle n (Resolved ack)) w in
  let w2 := step c' SendMessage w1 in
  invoked w2
  = invoked w
    ++ [mkInvocation "chat_with_agent" (MessageArg (Js.trim (Dom.value a)))].
Proof.
  intros Hp Hk Ha Ht w1 w2.
  assert (E1 : w1 = with_document Dom.disable_buttons
                      (with_document (shown assistant kill_message)
                         (with_this (said assistant kill_message c)
                            (with_pending (remove_at n (pending w)) w)))).
  { subst w1. rewrite (step_settle c n _ w p Hp), Hk.
    apply emergencyKillSwitch_resolved. }
  destruct (chat_input_after_kill (document w) a kill_message Ha)
    as (a' & Ha' & Hv).
  subst w2. unfold step at 1, exec, handle.
  rewrite (sendMessage_run c' w1 a').
  - rewrite E1, Hv. reflexivity.
  - rewrite E1. exact Ha'.
  - now rewrite Hv.
Qed.

Lemma chat_survives_kill_switch_example :
  let w := run [(Sample.clock 2, Typed "chat-input" "still there?");
                (Sample.clock 3, EmergencyKillSwitch true)] Sample.ready in
  let a := Dom.with_value "still there?"
             (Dom.createElement "input" "chat-input" "") in
  let w1 := step (Sample.clock 4) (Settle 0 (Resolved "ok")) w in
  let w2 := step (Sample.clock 5) SendMessage w1 in
  Dom.disabled_of "send-btn" (document w1) = Some true
  /\ Dom.getElementById "chat-input" (document w) = Some a
  /\ invoked w2
     = invoked w
       ++ [mkInvocation "chat_with_agent"
             (MessageArg (Js.trim (Dom.value a)))].
Proof.
  intros w a. split; [reflexivity|]. split; [reflexivity|].
  exact (chat_survives_kill_switch (Sample.clock 4) (Sample.clock 5) 0 "ok" w
           (mkPending kill_call AfterEmergencyKillSwitch) a
           eq_refl eq_refl eq_refl eq_refl).
Defined.

(** ** The settings *)

(** X19: switching the theme and the three check boxes write to the
    console and do nothing else: the controller, the page, the dialogs
    and the backend calls are as before. *)
Theorem settings_only_log (c : Clock) (e : Event) (w : World) :
  logs_only e = true ->
  exists entries,
    step c e w = with_console (fun l => l ++ entries) w
    /\ entries <> []
    /\ forallb is_log entries = true.
Proof.
  intros He. destruct e; try discriminate He.
  - exists [ConsoleLog ("Switching to theme: " ++ theme);
            ConsoleLog ("Admin verified: "
                        ++ Js.string_of_bool (isAdminVerified (this w)))].
    split; [|split; [discriminate | reflexivity]].
    unfold step, exec, handle, switchTheme, bind, console_log, gets, modify,
      with_console.
    cbn [this document console dialogs invoked pending animating].
    now rewrite <- app_assoc.
  - eexists [_]. split; [reflexivity|]. split; [discriminate | reflexivity].
  - eexists [_]. split; [reflexivity|]. split; [discriminate | reflexivity].
  - eexists [_]. split; [reflexivity|]. split; [discriminate | reflexivity].
Qed.

Lemma settings_only_log_example :
  logs_only (SwitchTheme "dark") = true
  /\ exists entries,
       step (Sample.clock 2) (SwitchTheme "dark") Sample.ready
       = with_console (fun l => l ++ entries) Sample.ready
       /\ entries <> []
       /\ forallb is_log entries = true.
Proof.
  split; [reflexivity|].
  exact (settings_only_log (Sample.clock 2) (SwitchTheme "dark") Sample.ready
           eq_refl).
Defined.

(** ** The transcript and the backend *)

#[local] Instance keeps_in_step_preorder : PreOrder keeps_in_step.
Proof.
  split.
  - intros w H. exact H.
  - intros w1 w2 w3 H12 H23 H. auto.
Qed.

Ltac transcript_update :=
  unfold keeps_in_step, in_step, user_texts, sent_texts; simpl;
  rewrite ?filter_app, ?map_app, ?flat_map_app; simpl;
  rewrite ?app_nil_r; try congruence; auto.

Lemma keeps_in_step_handle (e : Event) :
  e <> SendMessage -> preserves keeps_in_step (handle e).
Proof.
  intros He. destruct e; try congruence; unfold handle, settle; walk_all;
    transcript_update.
Qed.

Lemma keeps_in_step_sendMessage (c : Clock) (w : World) :
  keeps_in_step w (snd (sendMessage c w)).
Proof.
  destruct (Dom.getElementById "chat-input" (document w)) as [a|] eqn:Ha.
  - destruct (Js.truthy (Js.trim (Dom.value a))) eqn:Ht.
    + rewrite (sendMessage_run c w a Ha Ht). transcript_update.
    + rewrite (sendMessage_blank c w a Ha Ht). intros H. exact H.
  - rewrite (sendMessage_null c w Ha). intros H. exact H.
Qed.

Lemma keeps_in_step_step (c : Clock) (e : Event) (w : World) :
  keeps_in_step w (step c e w).
Proof.
  assert (H : keeps_in_step w (snd (handle e c w))).
  { destruct e; try (apply keeps_in_step_handle; discriminate).
    apply keeps_in_step_sendMessage. }
  unfold step, exec.
  destruct (handle e c w) as [[u|err] w']; simpl in H; exact H.
Qed.

(** X20: the backend is sent exactly what the user has said. In every
    world that a run reaches from the start of the controller, the texts
    of the user's messages in the transcript are the texts of the
    [chat_with_agent] calls issued, in the same order. *)
Theorem user_messages_are_the_calls (page : Dom.Node)
    (browser : option string) (c0 : Clock) (es : list (Clock * Event)) :
  let w := run es (boot page browser c0) in
  user_texts (this w) = sent_texts w.
Proof.
  assert (H0 : in_step (boot page browser c0))
    by (destruct browser; reflexivity).
  simpl. revert H0. generalize (boot page browser c0).
  induction es as [|[c e] es IH]; simpl; intros w Hw; [exact Hw|].
  apply IH. now apply keeps_in_step_step.
Qed.

Lemma chat_resolved (c : Clock) (text : string) (w : World) :
  exec (resume AfterChatWithAgent (Resolved text)) c w
  = with_document (shown assistant text)
      (with_this (said assistant text c) w).
Proof.
  unfold exec, resume, sendMessage_resume, try_catch, bind, settled, ret.
  now rewrite addChatMessage_run.
Qed.

Lemma nth_error_remove_at_before {A} (n m : nat) (l : list A) :
  (n < m)%nat -> (m < List.length l)%nat ->
  nth_error (remove_at m l) n = nth_error l n.
Proof.
  intros Hnm Hm. unfold remove_at.
  rewrite nth_error_app1 by (rewrite length_firstn; lia).
  rewrite <- (firstn_skipn m l) at 2.
  now rewrite nth_error_app1 by (rewrite length_firstn; lia).
Qed.

(** X21: replies go to the end of the transcript in the order in which
    the calls settle, not in the order in which the messages were sent:
    of two [chat_with_agent] calls in flight, when the later one
    resolves first its reply comes first. *)
Theorem replies_in_settlement_order (c1 c2 : Clock) (n1 n2 : nat)
    (p1 p2 : Pending) (t1 t2 : string) (w : World) :
  (n1 < n2)%nat ->
  nth_error (pending w) n1 = Some p1 ->
  nth_error (pending w) n2 = Some p2 ->
  cont p1 = AfterChatWithAgent ->
  cont p2 = AfterChatWithAgent ->
  chatHistory
    (this (run [(c2, Settle n2 (Resolved t2));
                (c1, Settle n1 (Resolved t1))] w))
  = chatHistory (this w)
    ++ [mkChatMessage assistant t2 (isoString c2);
        mkChatMessage assistant t1 (isoString c1)].
Proof.
  intros Hlt H1 H2 K1 K2. simpl.
  rewrite (step_settle c2 n2 _ w p2 H2), K2, chat_resolved.
  assert (H1' : nth_error
                  (pending
                     (with_document (shown assistant t2)
                        (with_this (said assistant t2 c2)
                           (with_pending (remove_at n2 (pending w)) w))))
                  n1 = Some p1).
  { simpl. rewrite nth_error_remove_at_before; [exact H1 | exact Hlt |].
    apply nth_error_Some. congruence. }
  rewrite (step_settle c1 n1 _ _ p1 H1'), K1, chat_resolved. simpl.
  now rewrite <- app_assoc.
Qed.

Lemma replies_in_settlement_order_example :
  let w := run [(Sample.clock 2, Typed "chat-input" "first");
                (Sample.clock 3, SendMessage);
                (Sample.clock 4, Typed "chat-input" "second");
                (Sample.clock 5, SendMessage)] Sample.ready in
  map content (chatHistory (this w))
  = ["Dwight AI agent initialized. Ready to assist!"; "first"; "second"]
  /\ chatHistory
       (this (run [(Sample.clock 6, Settle 1 (Resolved "to second"));
                   (Sample.clock 7, Settle 0 (Resolved "to first"))] w))
     = chatHistory (this w)
       ++ [mkChatMessage assistant "to second" (isoString (Sample.clock 6));
           mkChatMessage assistant "to first" (isoString (Sample.clock 7))].
Proof.
  intros w. split; [reflexivity|].
  exact (replies_in_settlement_order (Sample.clock 7) (Sample.clock 6) 0 1
           (mkPending (mkInvocation "chat_with_agent" (MessageArg "first"))
              AfterChatWithAgent)
           (mkPending (mkInvocation "chat_with_agent" (MessageArg "second"))
              AfterChatWithAgent)
           "to first" "to second" w
           ltac:(lia) eq_refl eq_refl eq_refl eq_refl).
Defined.

Lemma childrenById_update_children (i : string)
    (h : list Dom.Node -> list Dom.Node) (d : Dom.Node) :
  Query.childrenById i
    (Dom.update (Dom.has_id i) (fun a cs => (a, h cs)) d)
  = option_map h (Query.childrenById i d).
Proof.
  unfold Query.childrenById. rewrite QueryFacts.find_first_update.
  - now destruct (Query.find_first (Dom.has_id i) d) as [[a cs]|].
  - intros a cs Ha. exact Ha.
Qed.

(** X22: the transcript and its view move together. [addChatMessage]
    never throws; it appends the message to the history and, where the
    page has the view, one element to the end of the view, which holds
    the content as text, not as markup, under the class of the role. On
    a page without the view only the history grows. *)
Theorem transcript_view_follows (r : Role) (text : string) (c : Clock)
    (w : World) :
  let w' := snd (addChatMessage r text c w) in
  fst (addChatMessage r text c w) = Normal tt
  /\ chatHistory (this w')
     = chatHistory (this w) ++ [mkChatMessage r text (isoString c)]
  /\ Query.childrenById "chat-messages" (document w')
     = option_map (fun cs => cs ++ [bubble r text])
         (Query.childrenById "chat-messages" (document w))
  /\ (Dom.getElementById "chat-messages" (document w) = None ->
      document w' = document w).
Proof.
  rewrite addChatMessage_run. simpl. repeat split.
  - unfold shown.
    destruct (Dom.getElementById "chat-messages" (document w)) eqn:Hv.
    + unfold Dom.appendChild.
      apply (childrenById_update_children "chat-messages"
               (fun cs => cs ++ [bubble r text])).
    + unfold Query.childrenById.
      rewrite QueryFacts.getElementById_find_first in Hv.
      now destruct (Query.find_first (Dom.has_id "chat-messages")
                      (document w)).
  - intros Hn. unfold shown. now rewrite Hn.
Qed.

(** ** What the admin flag and the audio context guard *)

Section Respects.
Context {A B : Type}.

Lemma respects_ret (a : A) : respects (ret a).
Proof. intros c w1 w2 H. split; [reflexivity | exact H]. Qed.

Lemma respects_throw (e : JsError) : respects (@throw A e).
Proof. intros c w1 w2 H. split; [reflexivity | exact H]. Qed.

Lemma respects_read_clock (f : Clock -> A) : respects (read_clock f).
Proof. intros c w1 w2 H. split; [reflexivity | exact H]. Qed.

Lemma respects_gets (f : World -> A) :
  (forall w1 w2, alike w1 w2 -> f w1 = f w2) -> respects (gets f).
Proof.
  intros Hf c w1 w2 H. unfold gets. simpl.
  split; [now rewrite (Hf w1 w2 H) | exact H].
Qed.

Lemma respects_bind (m : M A) (k : A -> M B) :
  respects m -> (forall a, respects (k a)) -> respects (bind m k).
Proof.
  intros Hm Hk c w1 w2 H. unfold bind.
  destruct (Hm c w1 w2 H) as [Ho Hw].
  destruct (m c w1) as [[a1|e1] w1']; destruct (m c w2) as [[a2|e2] w2'];
    simpl in *; try discriminate.
  - inversion Ho; subst. now apply Hk.
  - inversion Ho; subst. split; [reflexivity | exact Hw].
Qed.

Lemma respects_try_catch (body : M A) (handler : JsError -> M A) :
  respects body -> (forall e, respects (handler e)) ->
  respects (try_catch body handler).
Proof.
  intros Hb Hh c w1 w2 H. unfold try_catch.
  destruct (Hb c w1 w2 H) as [Ho Hw].
  destruct (body c w1) as [[a1|e1] w1']; destruct (body c w2) as [[a2|e2] w2'];
    simpl in *; try discriminate.
  - split; [exact Ho | exact Hw].
  - inversion Ho; subst. now apply Hh.
Qed.
End Respects.

Lemma respects_modify (f : World -> World) :
  (forall w1 w2, alike w1 w2 -> alike (f w1) (f w2)) -> respects (modify f).
Proof.
  intros Hf c w1 w2 H. unfold modify. simpl. split; [reflexivity | auto].
Qed.

Ltac by_alike :=
  let H := fresh "H" in
  intros [[xr1 xa1 xl1 xp1 xh1 xc1 xv1] xd1 xo1 xg1 xi1 xe1 xn1]
         [[xr2 xa2 xl2 xp2 xh2 xc2 xv2] xd2 xo2 xg2 xi2 xe2 xn2] H;
  unfold alike, blind, with_this in *; simpl in *;
  inversion H; subst; reflexivity.

Ltac walk_alike :=
  repeat match goal with
    | |- respects (ret _) => apply respects_ret
    | |- respects (throw _) => apply respects_throw
    | |- respects (read_clock _) => apply respects_read_clock
    | |- respects (gets _) => apply respects_gets; by_alike
    | |- respects (modify _) => apply respects_modify; by_alike
    | |- respects (bind _ _) => apply respects_bind; [|intro]
    | |- respects (try_catch _ _) => apply respects_try_catch; [|intro]
    | |- respects (match ?x with _ => _ end) => destruct x
    end.

Ltac walk_all_alike :=
  repeat first
    [ progress walk_alike
    | progress (open_methods; open_primitives;
                unfold document_getElementById, settle;
                cbv beta iota zeta) ].

Lemma respects_handle (e : Event) :
  reads_admin e = false -> respects (handle e).
Proof.
  intros He. destruct e; try discriminate He; walk_all_alike.
Qed.

Lemma alike_step (c : Clock) (e : Event) (w1 w2 : World) :
  reads_admin e = false -> alike w1 w2 ->
  alike (step c e w1) (step c e w2).
Proof.
  intros He H. unfold step, exec.
  destruct (respects_handle e He c w1 w2 H) as [Ho Hw].
  destruct (handle e c w1) as [[u1|e1] w1'];
    destruct (handle e c w2) as [[u2|e2] w2'];
    simpl in *; try discriminate; [exact Hw|].
  inversion Ho; subst.
  revert Hw. generalize w1' w2'. by_alike.
Qed.

(** X23: the admin flag and the audio context guard nothing. Two runs
    of the same events from worlds that differ only in the flag and in
    whether an audio context is held end in worlds that differ only
    there: no handler asks for either, the theme switch aside, which
    writes the flag to the console. *)
Theorem admin_flag_guards_nothing (es : list (Clock * Event))
    (w1 w2 : World) :
  forallb (fun ce => negb (reads_admin (snd ce))) es = true ->
  alike w1 w2 -> alike (run es w1) (run es w2).
Proof.
  revert w1 w2. induction es as [|[c e] es IH]; simpl; intros w1 w2 He H;
    [exact H|].
  apply andb_true_iff in He as [He Hes]. apply negb_true_iff in He.
  apply IH; [exact Hes | now apply alike_step].
Qed.

Lemma admin_flag_guards_nothing_example :
  let es := [(Sample.clock 2, Typed "chat-input" "shut down");
             (Sample.clock 3, SendMessage);
             (Sample.clock 4, EmergencyKillSwitch true);
             (Sample.clock 5, Settle 1 (Resolved "ok"));
             (Sample.clock 6, ToggleRecording)] in
  let w1 := Sample.ready in
  let w2 := with_this
              (fun a =>
                 mkDyhtApp (isRecording a) false (liveWaveformCanvas a)
                   (playbackWaveformCanvas a) (chatHistory a) (audioClips a)
                   true)
              Sample.ready in
  audioContext (this w1) = true
  /\ isAdminVerified (this w1) = false
  /\ alike (run es w1) (run es w2).
Proof.
  intros es w1 w2. split; [reflexivity|]. split; [reflexivity|].
  exact (admin_flag_guards_nothing es w1 w2 eq_refl eq_refl).
Defined.
